(** * Release-Tracker: the upstream client core

    A shallow embedding of [backend/igdb_client.py] (token manager, rate
    limiter, query construction and dispatch, response classification)
    and of the entity parsing loops of [backend/server.py] over the
    records of [backend/models.py].

    Conventions of the embedding.
    - Python [int] is [Z]; [str] is [string]; [Optional[T]] is [option T].
    - Clock readings and durations are exact rationals [Q], in seconds:
      the rounding of the 64-bit floats and of the microsecond fields is
      not modelled. [time.time()] counts from the epoch. [datetime.now()]
      is a [datetime] without time zone, taken from the local clock of
      the host; what that clock shows at an instant, and the instant that
      [timestamp()] gives for such a [datetime], are the host's business
      and part of the environment.
    - The client object is mutable and shared: it is a component of the
      state threaded through every call, and a raised exception keeps
      the mutations made before it.
    - A call of the client is a computation in that state, and [await]
      is sequencing within it. Calls that follow one another are
      composed; coroutines that overlap on the one client are run by an
      event loop that switches between them where they sleep.
    - Logging has no effect on the state and is left out, except where
      the logged text can raise. *)

From Stdlib Require Import String Ascii List ZArith QArith Lqa Lia Bool DecimalString.
Import ListNotations.

Set Implicit Arguments.
Set Warnings "-register-all".

(** ** Python primitives *)

Module Py.

Local Open Scope string_scope.

(** [str(n)] for an [int]. *)
Definition str_int (n : Z) : string := NilZero.string_of_int (Z.to_int n).

(** [sep.join(parts)]. *)
Fixpoint join (sep : string) (parts : list string) : string :=
  match parts with
  | [] => EmptyString
  | [p] => p
  | p :: rest => p ++ sep ++ join sep rest
  end.

(** Truth value of a [str]: the empty string is false. *)
Definition truthy_str (s : string) : bool :=
  match s with
  | EmptyString => false
  | String _ _ => true
  end.

(** Truth value of a [list]: the empty list is false. *)
Definition truthy_list {A} (l : list A) : bool :=
  match l with
  | [] => false
  | _ :: _ => true
  end.

(** [x < y] on clock readings. *)
Definition Qltb (x y : Q) : bool := negb (Qle_bool y x).

(** [int(x)] for a float: truncation toward zero. *)
Definition int_of (x : Q) : Z := Z.quot (Qnum x) (Zpos (Qden x)).

(** The double-quote and the line-feed characters. *)
Definition dquote : string := String "034"%char EmptyString.
Definition newline : string := String "010"%char EmptyString.

End Py.

(** ** JSON values, as [json] decodes them *)

Inductive JSON : Type :=
| JNull
| JBool (b : bool)
| JInt (n : Z)
| JFloat (x : Q)
| JStr (s : string)
| JList (items : list JSON)
| JObj (members : list (string * JSON)).

(** [d.get(key)] on a decoded object: the binding of [key], if any. *)
Fixpoint dict_find (key : string) (members : list (string * JSON)) : option JSON :=
  match members with
  | [] => None
  | (k, v) :: rest => if String.eqb k key then Some v else dict_find key rest
  end.

(** ** The HTTP transport (httpx), as far as the client relies on it *)

Module httpx.

Local Open Scope string_scope.

(** A response whose decoded JSON body has type [A]; [json_body] is
    [None] when the body does not decode. *)
Record Response (A : Type) : Type := mkResponse {
  status_code : Z;
  reason_phrase : string;
  url : string;
  json_body : option A
}.

(** What one POST comes to: a transport failure (time-out, connection
    error, ...) with its message, or a response. *)
Inductive Outcome (A : Type) : Type :=
| Failed (message : string)
| Responded (r : Response A).

Arguments Failed {A} message.
Arguments Responded {A} r.

(** [response.is_success]. *)
Definition is_success {A} (r : Response A) : bool :=
  ((200 <=? status_code r) && (status_code r <=? 299))%Z.

(** The text of the [HTTPStatusError] that [raise_for_status] builds
    (responses are modelled without headers, so the variant of the
    text that quotes a redirect location does not arise). *)
Definition error_type (status : Z) : string :=
  match (status / 100)%Z with
  | 1%Z => "Informational response"
  | 3%Z => "Redirect response"
  | 4%Z => "Client error"
  | 5%Z => "Server error"
  | _ => "Invalid status code"
  end.

Definition status_message {A} (r : Response A) : string :=
  error_type (status_code r) ++ " '" ++ Py.str_int (status_code r) ++ " "
    ++ reason_phrase r ++ "' for url '" ++ url r ++ "'" ++ Py.newline
    ++ "For more information check: https://developer.mozilla.org/en-US/docs/Web/HTTP/Status/"
    ++ Py.str_int (status_code r).

End httpx.

(** ** Exceptions *)

Inductive exn : Type :=
| IGDBAuthError (message : string)
| IGDBRateLimitError (message : string)
| HTTPStatusError (message : string) (status : Z)   (* httpx; of the response it carries, the status *)
| RequestError (message : string)                   (* httpx, transport failures *)
| JSONDecodeError
| KeyError (key : string)
| TypeError (message : string)
| ValueError (message : string)
| OverflowError (message : string)
| OSError (message : string)
| ZeroDivisionError (message : string)
| ValidationError (message : string)
| HTTPException (status : Z) (detail : string).

(** [isinstance(e, httpx.HTTPError)]: the status and the transport errors. *)
Definition is_HTTPError (e : exn) : bool :=
  match e with
  | HTTPStatusError _ _ | RequestError _ => true
  | _ => false
  end.

(** [str(e)]. *)
Definition str_exn (e : exn) : string :=
  match e with
  | IGDBAuthError m | IGDBRateLimitError m | HTTPStatusError m _ | RequestError m
  | TypeError m | ValueError m | OverflowError m | OSError m | ZeroDivisionError m
  | ValidationError m | HTTPException _ m => m
  | JSONDecodeError => "Expecting value"
  | KeyError k => ("'" ++ k ++ "'")%string
  end.

Inductive Result (A : Type) : Type :=
| Ok (a : A)
| Raise (e : exn).

Arguments Ok {A} a.
Arguments Raise {A} e.

(** [len(v)] for a decoded JSON value: only lists, objects (their keys
    are distinct) and strings have a length. *)
Definition len (v : JSON) : Result Z :=
  match v with
  | JList items => Ok (Z.of_nat (length items))
  | JObj members => Ok (Z.of_nat (length members))
  | JStr s => Ok (Z.of_nat (String.length s))
  | _ => Raise (TypeError "object has no len()")
  end.

(** ** The world around the client *)

(** A duration that cannot be negative: time does not run backwards. *)
Record Duration : Type := mkDuration { dur_num : N; dur_den : positive }.

Definition seconds (d : Duration) : Q := Z.of_N (dur_num d) # dur_den d.

(** An identity-provider payload, at the types the client annotates:
    the two keys it reads, each possibly absent. The value of
    [access_token] is a string or [null] ([Optional[str]]), that of
    [expires_in] an integer. *)
Record TokenData : Type := mkTokenData {
  td_access_token : option (option string);
  td_expires_in : option Z
}.

(** A [datetime] without time zone: the seconds from 1970-01-01 00:00:00
    to the time that its fields show, and its [fold], which tells the
    second of two occurrences of one local time from the first. *)
Record NaiveDatetime : Type := mkNaive { wall : Q; fold : bool }.

(** The environment is arbitrary but fixed: how long the [n]-th effect
    takes beyond what the program asked for (scheduling and network
    latency); the local time of the host, that is, what its clock shows
    at an instant ([datetime.fromtimestamp], which [datetime.now()]
    applies to the current instant) and the instant the host assigns to
    a local time ([datetime.timestamp], which raises where the platform
    cannot convert); and what a POST issued as the [n]-th effect comes
    to. *)
Record Env : Type := mkEnv {
  latency : nat -> Duration;
  localtime : Q -> NaiveDatetime;
  mktime : NaiveDatetime -> Result Q;
  token_endpoint : nat -> httpx.Outcome TokenData;
  entity_endpoint : nat -> httpx.Outcome JSON
}.

Inductive Event : Type :=
| EvTime (t : Q)                       (* time.time() returned t *)
| EvNow (t : Q)                        (* datetime.now() showed t *)
| EvSleep (d : Q)                      (* await asyncio.sleep(d) *)
| EvTokenPost (url : string) (params : list (string * string))
              (headers : list (string * string))
| EvPost (url : string) (content : string) (headers : list (string * string)).

Record IGDBClient : Type := mkIGDBClient {
  client_id : string;
  client_secret : string;
  base_url : string;
  token_url : string;
  access_token : option string;
  token_expires_at : option Q;
  requests_per_second : Q;
  last_request_time : Q;
  request_interval : Q
}.

Record State : Type := mkState {
  self : IGDBClient;
  clock : Q;
  step : nat;
  trace : list Event
}.

(** ** The monad of the embedding: environment, state, exceptions *)

Definition M (A : Type) : Type := Env -> State -> Result A * State.

Definition ret {A} (a : A) : M A := fun _ st => (Ok a, st).

Definition bind {A B} (m : M A) (k : A -> M B) : M B :=
  fun env st =>
    match m env st with
    | (Ok a, st') => k a env st'
    | (Raise e, st') => (Raise e, st')
    end.

Definition raise {A} (e : exn) : M A := fun _ st => (Raise e, st).

(** [try: body  except <class> as e: handler e]; [handler] answers
    [None] for an exception its clause does not match. *)
Definition try_except {A} (body : M A) (handler : exn -> option (M A)) : M A :=
  fun env st =>
    match body env st with
    | (Ok a, st') => (Ok a, st')
    | (Raise e, st') =>
        match handler e with
        | Some h => h env st'
        | None => (Raise e, st')
        end
    end.

Declare Scope py_scope.
Delimit Scope py_scope with py.
Notation "x <- m ;; k" := (bind m (fun x => k))
  (at level 61, m at next level, right associativity) : py_scope.
Notation "m ;;; k" := (bind m (fun _ => k))
  (at level 61, right associativity) : py_scope.
Local Open Scope py_scope.

Definition get_self : M IGDBClient := fun _ st => (Ok (self st), st).

Definition set_self (c : IGDBClient) : M unit :=
  fun _ st => (Ok tt, mkState c (clock st) (step st) (trace st)).

Definition emit (ev : Event) : M unit :=
  fun _ st => (Ok tt, mkState (self st) (clock st) (step st) (trace st ++ [ev])).

(** Whatever the program does next, some time passes first. *)
Definition elapse : M unit :=
  fun env st =>
    (Ok tt, mkState (self st) (clock st + seconds (latency env (step st)))
                    (S (step st)) (trace st)).

Definition read_clock : M Q := fun _ st => (Ok (clock st), st).

Definition advance (d : Q) : M unit :=
  fun _ st => (Ok tt, mkState (self st) (clock st + d) (step st) (trace st)).

Definition time_time : M Q :=
  elapse ;;; t <- read_clock ;; emit (EvTime t) ;;; ret t.

(** What the local clock of the host shows. *)
Definition local_clock : M NaiveDatetime :=
  fun env st => (Ok (localtime env (clock st)), st).

Definition datetime_now : M NaiveDatetime :=
  elapse ;;; now <- local_clock ;; emit (EvNow (wall now)) ;;; ret now.

(** [await asyncio.sleep(d)]: suspended for [d] (not at all when
    [d <= 0]) and then for as long as the scheduler takes. *)
Definition asyncio_sleep (d : Q) : M unit :=
  emit (EvSleep d) ;;;
  advance (if Py.Qltb 0 d then d else 0) ;;;
  elapse.

(** [await self._client.post(url, params=..., headers=...)]. *)
Definition post_params (url : string) (params headers : list (string * string))
  : M (httpx.Response TokenData) :=
  fun env st =>
    let st1 := mkState (self st) (clock st) (step st)
                       (trace st ++ [EvTokenPost url params headers]) in
    let answer := token_endpoint env (step st1) in
    match elapse env st1 with
    | (_, st2) =>
        match answer with
        | httpx.Failed m => (Raise (RequestError m), st2)
        | httpx.Responded r => (Ok r, st2)
        end
    end.

(** [await self._client.post(url, content=..., headers=...)]. *)
Definition post_content (url content : string) (headers : list (string * string))
  : M (httpx.Response JSON) :=
  fun env st =>
    let st1 := mkState (self st) (clock st) (step st)
                       (trace st ++ [EvPost url content headers]) in
    let answer := entity_endpoint env (step st1) in
    match elapse env st1 with
    | (_, st2) =>
        match answer with
        | httpx.Failed m => (Raise (RequestError m), st2)
        | httpx.Responded r => (Ok r, st2)
        end
    end.

(** [response.raise_for_status()]. *)
Definition raise_for_status {A} (r : httpx.Response A) : M unit :=
  if httpx.is_success r then ret tt
  else raise (HTTPStatusError (httpx.status_message r) (httpx.status_code r)).

(** [response.json()]. *)
Definition response_json {A} (r : httpx.Response A) : M A :=
  match httpx.json_body r with
  | Some v => ret v
  | None => raise JSONDecodeError
  end.

(** ** datetime arithmetic *)

Module datetime.

(** [timedelta(seconds=s)] for an integer [s]: the days of a
    [timedelta] lie within [-999999999, 999999999]. *)
Definition timedelta_seconds (s : Z) : M Q :=
  if ((-999999999 * 86400 <=? s) && (s <? 1000000000 * 86400))%Z
  then ret (inject_Z s)
  else raise (OverflowError "days out of range").

(** [timedelta(days=d)]. *)
Definition timedelta_days (d : Z) : M Q :=
  if ((-999999999 <=? d) && (d <=? 999999999))%Z
  then ret (inject_Z (d * 86400))
  else raise (OverflowError "days out of range").

(** [t + delta] on the fields of a [datetime]: the years of a
    [datetime] lie within [1, 9999]. The [fold] of the sum is 0. *)
Definition add (t delta : Q) : M Q :=
  let r := t + delta in
  if Qle_bool (inject_Z (-62135596800)) r && Py.Qltb r (inject_Z 253402300800)
  then ret r
  else raise (OverflowError "date value out of range").

(** [d.timestamp()] for a [datetime] without time zone. *)
Definition timestamp (d : NaiveDatetime) : M Q :=
  fun env st => (mktime env d, st).

End datetime.

(** ** backend/igdb_client.py *)

Module igdb_client.

Local Open Scope string_scope.

(** [IGDBClient.__init__]; [1.0 / requests_per_second] raises on zero. *)
Definition __init__ (client_id client_secret : string) (requests_per_second : Q)
  : Result IGDBClient :=
  if Qeq_bool requests_per_second 0
  then Raise (ZeroDivisionError "float division by zero")
  else Ok {| client_id := client_id;
             client_secret := client_secret;
             base_url := "https://api.igdb.com/v4";
             token_url := "https://id.twitch.tv/oauth2/token";
             access_token := None;
             token_expires_at := None;
             requests_per_second := requests_per_second;
             last_request_time := 0;
             request_interval := 1 / requests_per_second |}.

Definition set_access_token (v : option string) : M unit :=
  s <- get_self ;;
  set_self (mkIGDBClient (client_id s) (client_secret s) (base_url s) (token_url s)
              v (token_expires_at s)
              (requests_per_second s) (last_request_time s) (request_interval s)).

Definition set_token_expires_at (v : option Q) : M unit :=
  s <- get_self ;;
  set_self (mkIGDBClient (client_id s) (client_secret s) (base_url s) (token_url s)
              (access_token s) v
              (requests_per_second s) (last_request_time s) (request_interval s)).

Definition set_last_request_time (v : Q) : M unit :=
  s <- get_self ;;
  set_self (mkIGDBClient (client_id s) (client_secret s) (base_url s) (token_url s)
              (access_token s) (token_expires_at s)
              (requests_per_second s) v (request_interval s)).

(** The guard of [_get_access_token]:
    [self.access_token and self.token_expires_at and
     datetime.now() < self.token_expires_at], evaluated left to right;
    the clock is read only when both fields are set. A [datetime] is
    always true. *)
Definition cached_token : M (option string) :=
  s <- get_self ;;
  match access_token s with
  | Some tok =>
      if Py.truthy_str tok then
        match token_expires_at s with
        | Some expires_at =>
            now <- datetime_now ;;
            if Py.Qltb (wall now) expires_at then ret (Some tok) else ret None
        | None => ret None
        end
      else ret None
  | None => ret None
  end.

(** [token_data["access_token"]]: the value under the key, [None] for
    [null]. *)
Definition subscript_access_token (token_data : TokenData) : M (option string) :=
  match td_access_token token_data with
  | Some v => ret v
  | None => raise (KeyError "access_token")
  end.

(** [token_data.get("expires_in", 3600)]. *)
Definition get_expires_in (token_data : TokenData) : Z :=
  match td_expires_in token_data with
  | Some v => v
  | None => 3600%Z
  end.

Definition _get_access_token : M (option string) :=
  hit <- cached_token ;;
  match hit with
  | Some tok => ret (Some tok)
  | None =>
      s <- get_self ;;
      try_except
        (response <- post_params (token_url s)
                       [("client_id", client_id s);
                        ("client_secret", client_secret s);
                        ("grant_type", "client_credentials")]
                       [("Accept", "application/json")] ;;
         raise_for_status response ;;;
         token_data <- response_json response ;;
         tok <- subscript_access_token token_data ;;
         set_access_token tok ;;;
         let expires_in := get_expires_in token_data in
         now <- datetime_now ;;
         delta <- datetime.timedelta_seconds (expires_in - 300) ;;
         expires_at <- datetime.add (wall now) delta ;;
         set_token_expires_at (Some expires_at) ;;;
         s' <- get_self ;;
         ret (access_token s'))
        (fun e =>
           if is_HTTPError e
           then Some (raise (IGDBAuthError ("Authentication failed: " ++ str_exn e)))
           else None)
  end.

Definition _rate_limit : M unit :=
  current_time <- time_time ;;
  s <- get_self ;;
  let time_since_last_request := current_time - last_request_time s in
  (if Py.Qltb time_since_last_request (request_interval s)
   then
     let sleep_time := request_interval s - time_since_last_request in
     asyncio_sleep sleep_time
   else ret tt) ;;;
  t <- time_time ;;
  set_last_request_time t.

(** [f"Bearer {token}"]; [None] is formatted as its name. *)
Definition format_token (token : option string) : string :=
  match token with
  | Some t => t
  | None => "None"
  end.

Definition request_headers (s : IGDBClient) (token : option string)
  : list (string * string) :=
  [("Client-ID", client_id s);
   ("Authorization", "Bearer " ++ format_token token);
   ("Accept", "application/json");
   ("Content-Type", "text/plain")].

Definition _make_request (endpoint query : string) : M JSON :=
  _rate_limit ;;;
  token <- _get_access_token ;;
  s <- get_self ;;
  let headers := request_headers s token in
  let url := base_url s ++ "/" ++ endpoint in
  try_except
    (response <- post_content url query headers ;;
     (if (httpx.status_code response =? 429)%Z
      then raise (IGDBRateLimitError "Rate limit exceeded")
      else ret tt) ;;;
     raise_for_status response ;;;
     response_json response)
    (fun e => if is_HTTPError e then Some (raise e) else None).

Definition upcoming_fields : string :=
  "fields name,summary,rating,first_release_date,cover.url,release_dates.date,release_dates.human,release_dates.platform.name,release_dates.platform.abbreviation,platforms.name,platforms.abbreviation".

(** The list [query_parts] of [get_upcoming_games] when it is joined. *)
Definition upcoming_query_parts (start_timestamp end_timestamp limit : Z)
    (platform_ids : option (list Z)) : list string :=
  let query_parts :=
    [upcoming_fields;
     "where release_dates.date >= " ++ Py.str_int start_timestamp
       ++ " & release_dates.date < " ++ Py.str_int end_timestamp] in
  let query_parts :=
    match platform_ids with
    | Some ids =>
        if Py.truthy_list ids then
          let platform_filter := Py.join " | " (map Py.str_int ids) in
          app query_parts ["& release_dates.platform = (" ++ platform_filter ++ ")"]
        else query_parts
    | None => query_parts
    end in
  app query_parts ["sort release_dates.date asc"; "limit " ++ Py.str_int limit].

Definition upcoming_query (start_timestamp end_timestamp limit : Z)
    (platform_ids : option (list Z)) : string :=
  Py.join "; " (upcoming_query_parts start_timestamp end_timestamp limit platform_ids)
    ++ ";".

(** [except Exception as e: logger.error(...); raise]. *)
Definition log_and_reraise {A} (body : M A) : M A :=
  try_except body (fun e => Some (raise e)).

(** The log line of [get_upcoming_games] after the response:
    [f"... {len(response_data)} ..."] is evaluated, inside the [try]. *)
Definition log_fetched (response_data : JSON) : M unit :=
  match len response_data with
  | Ok _ => ret tt
  | Raise e => raise e
  end.

Definition get_upcoming_games (days_ahead limit : Z) (platform_ids : option (list Z))
  : M JSON :=
  now1 <- datetime_now ;;
  start_time <- datetime.timestamp now1 ;;
  let start_timestamp := Py.int_of start_time in
  now2 <- datetime_now ;;
  delta <- datetime.timedelta_days days_ahead ;;
  end_date <- datetime.add (wall now2) delta ;;
  end_time <- datetime.timestamp (mkNaive end_date false) ;;
  let end_timestamp := Py.int_of end_time in
  let query := upcoming_query start_timestamp end_timestamp limit platform_ids in
  log_and_reraise
    (response_data <- _make_request "games" query ;;
     log_fetched response_data ;;;
     ret response_data).

Definition search_query (search_term : string) (limit : Z) : string :=
  "search " ++ Py.dquote ++ search_term ++ Py.dquote
    ++ "; fields name,summary,rating,first_release_date,cover.url,platforms.name; limit "
    ++ Py.str_int limit ++ ";".

Definition search_games (search_term : string) (limit : Z) : M JSON :=
  let query := search_query search_term limit in
  log_and_reraise (_make_request "games" query).

Definition platforms_query : string :=
  "fields name,abbreviation; where category = (1,5,6); sort name asc; limit 500;".

Definition get_platforms : M JSON :=
  let query := platforms_query in
  log_and_reraise (_make_request "platforms" query).

End igdb_client.

(** ** backend/models.py *)

Definition and_then {A B} (r : Result A) (k : A -> Result B) : Result B :=
  match r with
  | Ok a => k a
  | Raise e => Raise e
  end.

Notation "x <~ r ;; k" := (and_then r (fun x => k))
  (at level 61, r at next level, right associativity) : py_scope.

(** What pydantic accepts for the scalar field types is the library's
    business (it depends on its version and mode); the records below are
    validated over any such choice. *)
Class Pydantic : Type := {
  validate_int : JSON -> Result Z;
  validate_str : JSON -> Result string;
  validate_float : JSON -> Result Q;
  validate_datetime : JSON -> Result Q;
  fromtimestamp : Z -> Result Q
}.

Module models.

Local Open Scope string_scope.

Section Fields.

Context {A : Type} (validate : JSON -> Result A).

(** A field without default. *)
Definition required (name : string) (kwargs : list (string * JSON)) : Result A :=
  match dict_find name kwargs with
  | Some v => validate v
  | None => Raise (ValidationError (name ++ ": field required"))
  end.

(** A field [Optional[A] = None]. *)
Definition optional (name : string) (kwargs : list (string * JSON))
  : Result (option A) :=
  match dict_find name kwargs with
  | Some JNull => Ok None
  | Some v => x <~ validate v ;; Ok (Some x)
  | None => Ok None
  end.

Fixpoint validate_items (items : list JSON) : Result (list A) :=
  match items with
  | [] => Ok []
  | v :: rest => x <~ validate v ;; xs <~ validate_items rest ;; Ok (x :: xs)
  end.

(** A field [List[A] = []]. *)
Definition list_field (name : string) (kwargs : list (string * JSON))
  : Result (list A) :=
  match dict_find name kwargs with
  | Some (JList items) => validate_items items
  | Some _ => Raise (ValidationError (name ++ ": value is not a valid list"))
  | None => Ok []
  end.

(** A value for a field whose type is a model. *)
Definition nested (from_kwargs : list (string * JSON) -> Result A) (v : JSON)
  : Result A :=
  match v with
  | JObj kwargs => from_kwargs kwargs
  | _ => Raise (ValidationError "value is not a valid dict")
  end.

(** [Model( **data)]: the argument after the stars must be a mapping. *)
Definition construct (from_kwargs : list (string * JSON) -> Result A) (data : JSON)
  : Result A :=
  match data with
  | JObj kwargs => from_kwargs kwargs
  | _ => Raise (TypeError "argument after ** must be a mapping")
  end.

End Fields.

Section Models.

Context `{Pydantic}.

(** The [pre=True] validators [parse_timestamp] and
    [parse_first_release_timestamp]: an [int] (a [bool] is one) becomes
    a [datetime], anything else goes on to the field's own validation. *)
Definition parse_timestamp (v : JSON) : Result Q :=
  match v with
  | JInt n => fromtimestamp n
  | JBool b => fromtimestamp (if b then 1 else 0)%Z
  | _ => validate_datetime v
  end.

Record Platform : Type := mkPlatform {
  platform_id : Z;
  platform_name : string;
  abbreviation : option string
}.

Definition Platform_init (kwargs : list (string * JSON)) : Result Platform :=
  id <~ required validate_int "id" kwargs ;;
  name <~ required validate_str "name" kwargs ;;
  abbreviation <~ optional validate_str "abbreviation" kwargs ;;
  Ok (mkPlatform id name abbreviation).

Record ReleaseDate : Type := mkReleaseDate {
  release_id : Z;
  date : option Q;
  human : option string;
  platform : option Platform;
  region : option Z
}.

Definition ReleaseDate_init (kwargs : list (string * JSON)) : Result ReleaseDate :=
  id <~ required validate_int "id" kwargs ;;
  date <~ optional parse_timestamp "date" kwargs ;;
  human <~ optional validate_str "human" kwargs ;;
  platform <~ optional (nested Platform_init) "platform" kwargs ;;
  region <~ optional validate_int "region" kwargs ;;
  Ok (mkReleaseDate id date human platform region).

Record GameCover : Type := mkGameCover {
  cover_id : Z;
  cover_url : option string
}.

Definition GameCover_init (kwargs : list (string * JSON)) : Result GameCover :=
  id <~ required validate_int "id" kwargs ;;
  url <~ optional validate_str "url" kwargs ;;
  Ok (mkGameCover id url).

Record Game : Type := mkGame {
  id : Z;
  name : string;
  summary : option string;
  rating : option Q;
  first_release_date : option Q;
  release_dates : list ReleaseDate;
  platforms : list Platform;
  cover : option GameCover
}.

Definition Game_init (kwargs : list (string * JSON)) : Result Game :=
  id <~ required validate_int "id" kwargs ;;
  name <~ required validate_str "name" kwargs ;;
  summary <~ optional validate_str "summary" kwargs ;;
  rating <~ optional validate_float "rating" kwargs ;;
  first_release_date <~ optional parse_timestamp "first_release_date" kwargs ;;
  release_dates <~ list_field (nested ReleaseDate_init) "release_dates" kwargs ;;
  platforms <~ list_field (nested Platform_init) "platforms" kwargs ;;
  cover <~ optional (nested GameCover_init) "cover" kwargs ;;
  Ok (mkGame id name summary rating first_release_date release_dates platforms cover).

Record GameResponse : Type := mkGameResponse {
  games : list Game;
  total_count : option Z;
  page : Z;
  per_page : Z
}.

End Models.

End models.

(** ** backend/server.py: turning a batch into entity records *)

Module server.

Local Open Scope string_scope.

(** [for x in data]: the elements of a list, the keys of a dict, the
    characters of a string; nothing else in JSON is iterable. *)
Fixpoint characters (s : string) : list JSON :=
  match s with
  | EmptyString => []
  | String c rest => JStr (String c EmptyString) :: characters rest
  end.

Definition iterate (data : JSON) : Result (list JSON) :=
  match data with
  | JList items => Ok items
  | JObj members => Ok (map (fun kv => JStr (fst kv)) members)
  | JStr s => Ok (characters s)
  | _ => Raise (TypeError "object is not iterable")
  end.

(** The conversion loop that every route runs on a batch, with the
    list it appends to:

      for entity_data in batch:
          try:
              entities.append(Entity( **entity_data))
          except Exception as e:
              logger.warning(...)
              continue *)
Fixpoint convert {A} (Entity : JSON -> Result A) (entities : list A)
    (batch : list JSON) : list A :=
  match batch with
  | [] => entities
  | entity_data :: rest =>
      match Entity entity_data with
      | Ok entity => convert Entity (entities ++ [entity]) rest
      | Raise _ => convert Entity entities rest
      end
  end.

Definition lift {A} (r : Result A) : M A := fun _ st => (r, st).

Section Routes.

Context `{Pydantic}.

Definition Game (game_data : JSON) : Result models.Game :=
  models.construct models.Game_init game_data.

Definition Platform (platform_data : JSON) : Result models.Platform :=
  models.construct models.Platform_init platform_data.

(** [GET /api/games/search]. *)
Definition search_games (q : string) (limit : Z) : M models.GameResponse :=
  try_except
    (games_data <- igdb_client.search_games q limit ;;
     batch <- lift (iterate games_data) ;;
     let games := convert Game [] batch in
     ret (models.mkGameResponse games (Some (Z.of_nat (length games))) 1 limit))
    (fun _ => Some (raise (HTTPException 500 "Internal server error"))).

(** The part of [GET /api/games/upcoming] with [force_refresh] from
    the upstream call to the conversion of its batch (what follows
    it is the store's and the sorting's business). *)
Definition refresh_upcoming_games (days_ahead limit : Z)
    (platform_filter : option (list Z)) : M (list models.Game) :=
  games_data <- igdb_client.get_upcoming_games days_ahead limit platform_filter ;;
  batch <- lift (iterate games_data) ;;
  ret (convert Game [] batch).

End Routes.

End server.

(** ** Sequences of calls through the rate limiter *)

(** [n] calls of [_rate_limit] that follow one another, each awaited
    to its end before the next is made; after each one, the time at
    which it let its request go, which is what it recorded in
    [last_request_time]. *)
Fixpoint rate_limit_calls (n : nat) : M (list Q) :=
  match n with
  | O => ret []
  | S n' =>
      igdb_client._rate_limit ;;;
      s <- get_self ;;
      starts <- rate_limit_calls n' ;;
      ret (last_request_time s :: starts)
  end.

(** Consecutive elements are at least [interval] apart. *)
Fixpoint spaced (interval : Q) (starts : list Q) : Prop :=
  match starts with
  | t1 :: rest =>
      match rest with
      | t2 :: _ => t1 + interval <= t2
      | [] => True
      end /\ spaced interval rest
  | [] => True
  end.

(** ** Calls that overlap in the rate limiter *)

(** [_rate_limit] is a coroutine. At [await asyncio.sleep(...)] it hands
    control to the event loop, which runs the other coroutines that use
    the same client before it resumes this one. The two halves of
    [_rate_limit]: up to the [await], with the time to sleep for, if
    any; and from there on. *)
Definition rate_limit_enter : M (option Q) :=
  current_time <- time_time ;;
  s <- get_self ;;
  let time_since_last_request := current_time - last_request_time s in
  if Py.Qltb time_since_last_request (request_interval s)
  then
    let sleep_time := request_interval s - time_since_last_request in
    ret (Some sleep_time)
  else ret None.

Definition rate_limit_leave : M unit :=
  t <- time_time ;;
  igdb_client.set_last_request_time t.

(** [asyncio.sleep(d)] seen from the event loop: the coroutine is
    suspended and due [d] from now ([d] counts when it is positive);
    the loop resumes it when that time has come, if it has not come
    already, and takes its time about it. *)
Definition suspend (d : Q) : M Q :=
  emit (EvSleep d) ;;;
  t <- read_clock ;;
  ret (t + (if Py.Qltb 0 d then d else 0)).

Definition wait_until (due : Q) : M unit :=
  fun _ st =>
    (Ok tt,
     mkState (self st) (if Py.Qltb (clock st) due then due else clock st)
             (step st) (trace st)).

Definition resume (due : Q) : M unit := wait_until due ;;; elapse.

(** A call of [_rate_limit] in the hands of the event loop: not yet
    run, sleeping until [due], or returned, with the time it has
    recorded in [last_request_time]. *)
Inductive Coroutine : Type :=
| Ready
| Sleeping (due : Q)
| Returned (start : Q).

(** One turn of a coroutine: it runs until it sleeps or returns. *)
Definition turn (c : Coroutine) : M Coroutine :=
  match c with
  | Ready =>
      sleep_time <- rate_limit_enter ;;
      match sleep_time with
      | Some d => due <- suspend d ;; ret (Sleeping due)
      | None =>
          rate_limit_leave ;;;
          s <- get_self ;;
          ret (Returned (last_request_time s))
      end
  | Sleeping due =>
      resume due ;;;
      rate_limit_leave ;;;
      s <- get_self ;;
      ret (Returned (last_request_time s))
  | Returned start => ret (Returned start)
  end.

(** The coroutine the loop runs next: the first that has not run yet;
    when there is none, the sleeping one that is due first (the one
    that went to sleep first, among those due at one time). *)
Fixpoint first_ready (tasks : list Coroutine) : option nat :=
  match tasks with
  | [] => None
  | Ready :: _ => Some O
  | _ :: rest => option_map S (first_ready rest)
  end.

Fixpoint first_due (tasks : list Coroutine) : option (nat * Q) :=
  match tasks with
  | [] => None
  | c :: rest =>
      let later := option_map (fun found => (S (fst found), snd found)) (first_due rest) in
      match c with
      | Sleeping due =>
          match later with
          | Some (i, due') => if Py.Qltb due' due then Some (i, due') else Some (O, due)
          | None => Some (O, due)
          end
      | _ => later
      end
  end.

Fixpoint run_turn (i : nat) (tasks : list Coroutine) : M (list Coroutine) :=
  match tasks, i with
  | [], _ => ret []
  | c :: rest, O => c' <- turn c ;; ret (c' :: rest)
  | c :: rest, S j => rest' <- run_turn j rest ;; ret (c :: rest')
  end.

Fixpoint event_loop (turns : nat) (tasks : list Coroutine) : M (list Coroutine) :=
  match turns with
  | O => ret tasks
  | S n =>
      match first_ready tasks with
      | Some i => tasks' <- run_turn i tasks ;; event_loop n tasks'
      | None =>
          match first_due tasks with
          | Some (i, _) => tasks' <- run_turn i tasks ;; event_loop n tasks'
          | None => ret tasks
          end
      end
  end.

(** [n] calls of [_rate_limit] on the one client that are started
    together, as by [asyncio.gather] or by [n] requests that the server
    handles at the same time: a call takes two turns at most. *)
Definition gather_rate_limit (n : nat) : M (list Coroutine) :=
  event_loop (2 * n) (repeat Ready n).

(** What the next reading of the clock returns. *)
Definition next_reading (env : Env) (st : State) : Q :=
  clock st + seconds (latency env (step st)).

(** What the clock reads when a token comes back from an exchange that
    is posted in state [st]: the POST and the reading take their time. *)
Definition reading_after_post (env : Env) (st : State) : Q :=
  clock st + seconds (latency env (step st)) + seconds (latency env (S (step st))).

(** What the next [datetime.now()] shows, and what the one shows that
    follows the answer to an exchange posted in state [st]. *)
Definition next_now (env : Env) (st : State) : Q :=
  wall (localtime env (next_reading env st)).

Definition now_after_post (env : Env) (st : State) : Q :=
  wall (localtime env (reading_after_post env st)).

(** The elapsed time a call of [_rate_limit] computes in state [st], and
    whether it suspends. *)
Definition rate_limit_elapsed (env : Env) (st : State) : Q :=
  next_reading env st - last_request_time (self st).

Definition rate_limit_suspends (env : Env) (st : State) : bool :=
  Py.Qltb (rate_limit_elapsed env st) (request_interval (self st)).

(** The instant at which [_make_request] posts its query when it is
    called in state [st] and gets a token: the limiter and the token
    manager come first. *)
Definition post_time (env : Env) (st : State) : Q :=
  clock (snd (igdb_client._get_access_token env (snd (igdb_client._rate_limit env st)))).

(** ** Counting the requests in a trace *)

Definition is_token_post (ev : Event) : bool :=
  match ev with
  | EvTokenPost _ _ _ => true
  | _ => false
  end.

Definition is_entity_post (ev : Event) : bool :=
  match ev with
  | EvPost _ _ _ => true
  | _ => false
  end.

Definition token_posts (tr : list Event) : nat := length (filter is_token_post tr).

Definition entity_posts (tr : list Event) : nat := length (filter is_entity_post tr).

(** ** The order of the effects of one upstream call *)

(** The effects of the rate limiter: clock readings and sleeps. *)
Definition is_limiter_event (ev : Event) : bool :=
  match ev with
  | EvTime _ | EvSleep _ => true
  | _ => false
  end.

(** The effects of the token manager: readings of the wall clock and
    requests to the token endpoint. *)
Definition is_token_event (ev : Event) : bool :=
  match ev with
  | EvNow _ | EvTokenPost _ _ _ => true
  | _ => false
  end.

(** A call that starts in [st] and ends in [final] went through the rate
    limiter first, asked the token manager next, and then, when it had a
    token, posted [query] once to [endpoint] with the token as bearer
    credential; without a token it posted nothing. *)
Definition dispatched (env : Env) (st : State) (endpoint query : string)
    (final : State) : Prop :=
  exists (limiter token_events : list Event) (st1 st2 : State)
         (token : Result (option string)),
    igdb_client._rate_limit env st = (Ok tt, st1) /\
    trace st1 = trace st ++ limiter /\
    forallb is_limiter_event limiter = true /\
    igdb_client._get_access_token env st1 = (token, st2) /\
    trace st2 = trace st1 ++ token_events /\
    forallb is_token_event token_events = true /\
    trace final =
      trace st ++ limiter ++ token_events
        ++ match token with
           | Ok t =>
               [EvPost (base_url (self st2) ++ "/" ++ endpoint) query
                       [("Client-ID", client_id (self st2));
                        ("Authorization", "Bearer " ++ igdb_client.format_token t);
                        ("Accept", "application/json");
                        ("Content-Type", "text/plain")]]%string
           | Raise _ => []
           end /\
    entity_posts (trace final) =
      (entity_posts (trace st) + match token with Ok _ => 1 | Raise _ => 0 end)%nat.

(** The result of [_make_request] once the response is there. *)
Definition classify (answer : httpx.Outcome JSON) : Result JSON :=
  match answer with
  | httpx.Failed m => Raise (RequestError m)
  | httpx.Responded r =>
      if (httpx.status_code r =? 429)%Z
      then Raise (IGDBRateLimitError "Rate limit exceeded")
      else if httpx.is_success r
           then match httpx.json_body r with
                | Some v => Ok v
                | None => Raise JSONDecodeError
                end
           else Raise (HTTPStatusError (httpx.status_message r) (httpx.status_code r))
  end.

(** What [get_upcoming_games] makes of the outcome of its request: its
    log line takes the length of the body. *)
Definition logged (outcome : Result JSON * State) : Result JSON * State :=
  match outcome with
  | (Ok response_data, st) =>
      match len response_data with
      | Ok _ => (Ok response_data, st)
      | Raise e => (Raise e, st)
      end
  | (Raise e, st) => (Raise e, st)
  end.

(** ** Reading a query back *)

(** The statements of a query, as the upstream grammar
    ([fields ...; where ...; sort ...; limit ...;]) delimits them: a
    semicolon ends a statement unless it stands inside a string literal,
    and a double quote opens or closes a literal. *)
Fixpoint statements_from (in_literal : bool) (current : string) (query : string)
  : list string :=
  match query with
  | EmptyString =>
      match current with
      | EmptyString => []
      | _ => [current]
      end
  | String c rest =>
      if Ascii.eqb c "034"
      then statements_from (negb in_literal) (current ++ String c EmptyString) rest
      else if Ascii.eqb c ";" && negb in_literal
           then current :: statements_from false EmptyString rest
           else statements_from in_literal (current ++ String c EmptyString) rest
  end.

Definition statements (query : string) : list string :=
  statements_from false EmptyString query.

(** A string without a double quote. *)
Fixpoint quote_free (s : string) : bool :=
  match s with
  | EmptyString => true
  | String c rest => negb (Ascii.eqb c "034") && quote_free rest
  end.

(** A string with neither a double quote nor a semicolon. *)
Fixpoint plain (s : string) : bool :=
  match s with
  | EmptyString => true
  | String c rest => negb (Ascii.eqb c "034") && negb (Ascii.eqb c ";") && plain rest
  end.

(** ** Reading a batch back *)

Definition is_ok {A} (r : Result A) : bool :=
  match r with
  | Ok _ => true
  | Raise _ => false
  end.


(** Whether the constructor accepts an element. *)
Definition parses {A} (Entity : JSON -> Result A) (entity_data : JSON) : bool :=
  match Entity entity_data with
  | Ok _ => true
  | Raise _ => false
  end.

(** The records of the elements the constructor accepts, in order. *)
Fixpoint parsed {A} (Entity : JSON -> Result A) (batch : list JSON) : list A :=
  match batch with
  | [] => []
  | entity_data :: rest =>
      match Entity entity_data with
      | Ok entity => entity :: parsed Entity rest
      | Raise _ => parsed Entity rest
      end
  end.

(** ** Concrete worlds *)

Module Sample.

Local Open Scope string_scope.

(** Every effect takes a millisecond. *)
Definition millisecond : Duration := mkDuration 1 1000.

Definition token_response (status : Z) (reason : string) (body : option TokenData)
  : httpx.Outcome TokenData :=
  httpx.Responded (httpx.mkResponse status reason "https://id.twitch.tv/oauth2/token" body).

Definition entity_response (status : Z) (reason : string) (body : option JSON)
  : httpx.Outcome JSON :=
  httpx.Responded (httpx.mkResponse status reason "https://api.igdb.com/v4/games" body).

(** A host on UTC: its clock shows the time since the epoch and no
    local time comes twice. To convert a local time, [timestamp()] also
    looks a day back, or a day ahead for a [datetime] with [fold], and
    raises where that leaves the years 1 to 9999. *)
Definition utc_localtime (t : Q) : NaiveDatetime := mkNaive t false.

Definition utc_mktime (d : NaiveDatetime) : Result Q :=
  if fold d
  then
    if Py.Qltb (wall d) (inject_Z (253402300800 - 86400))
    then Ok (wall d)
    else Raise (ValueError "year 10000 is out of range")
  else
    if Qle_bool (inject_Z (-62135596800 + 86400)) (wall d)
    then Ok (wall d)
    else Raise (ValueError "year 0 is out of range").

(** On such a host, the identity provider grants a token for
    [expires_in] seconds and the catalogue answers with [answer]. *)
Definition granting (expires_in : Z) (answer : httpx.Outcome JSON) : Env :=
  mkEnv (fun _ => millisecond) utc_localtime utc_mktime
        (fun _ => token_response 200 "OK"
                    (Some (mkTokenData (Some (Some "token-1")) (Some expires_in))))
        (fun _ => answer).

(** The identity provider answers every exchange with [answer]. *)
Definition refusing (answer : httpx.Outcome TokenData) : Env :=
  mkEnv (fun _ => millisecond) utc_localtime utc_mktime (fun _ => answer)
        (fun _ => entity_response 200 "OK" (Some (JList []))).

(** The client [IGDBClient("id", "secret")] with the default rate. *)
Definition client : IGDBClient :=
  {| client_id := "id";
     client_secret := "secret";
     base_url := "https://api.igdb.com/v4";
     token_url := "https://id.twitch.tv/oauth2/token";
     access_token := None;
     token_expires_at := None;
     requests_per_second := 7 # 2;
     last_request_time := 0;
     request_interval := 1 / (7 # 2) |}.

(** A new client, at 2023-11-14 22:13:20 UTC. *)
Definition fresh : State := mkState client 1700000000 0 [].

(** The same client holding a token that is good for another hour. *)
Definition holding_token : State :=
  mkState (mkIGDBClient "id" "secret" "https://api.igdb.com/v4"
             "https://id.twitch.tv/oauth2/token"
             (Some "token-0") (Some 1700003600) (7 # 2) 1699999999 (1 / (7 # 2)))
          1700000000 0 [].

(** Scalar validation that takes each JSON value at its own type (an
    integer also where a float is expected) and understands no textual
    dates. *)
Definition scalars : Pydantic :=
  {| validate_int := fun v =>
       match v with
       | JInt n => Ok n
       | _ => Raise (ValidationError "value is not a valid integer")
       end;
     validate_str := fun v =>
       match v with
       | JStr s => Ok s
       | _ => Raise (ValidationError "str type expected")
       end;
     validate_float := fun v =>
       match v with
       | JFloat x => Ok x
       | JInt n => Ok (inject_Z n)
       | _ => Raise (ValidationError "value is not a valid float")
       end;
     validate_datetime := fun _ => Raise (ValidationError "invalid datetime format");
     fromtimestamp := fun n =>
       if ((-62135596800 <=? n) && (n <? 253402300800))%Z
       then Ok (inject_Z n)
       else Raise (OverflowError "timestamp out of range") |}.

(** A game as the catalogue sends it. *)
Definition game (id : Z) (name : string) : JSON :=
  JObj [("id", JInt id); ("name", JStr name);
        ("first_release_date", JInt 1707000000);
        ("platforms", JList [JObj [("id", JInt 6); ("name", JStr "PC (Microsoft Windows)")]])].

(** A batch of ten elements; the fourth has no name. *)
Definition batch : list JSON :=
  [game 1 "Alpha"; game 2 "Bravo"; game 3 "Charlie";
   JObj [("id", JInt 4); ("summary", JStr "nameless")];
   game 5 "Echo"; game 6 "Foxtrot"; game 7 "Golf"; game 8 "Hotel";
   game 9 "India"; game 10 "Juliett"].

End Sample.

(** ** The states a credential exchange goes through *)

(** The state right after the credentials were posted from [st]. *)
Definition posted (env : Env) (st : State) : State :=
  mkState (self st) (clock st + seconds (latency env (step st))) (S (step st))
          (trace st
             ++ [EvTokenPost (token_url (self st))
                   [("client_id", client_id (self st));
                    ("client_secret", client_secret (self st));
                    ("grant_type", "client_credentials")]
                   [("Accept", "application/json")]]%string).

(** The client after [self.access_token = tok], and the state after the
    reading of the clock that follows it. *)
Definition holding (c : IGDBClient) (tok : option string) : IGDBClient :=
  mkIGDBClient (client_id c) (client_secret c) (base_url c) (token_url c)
    tok (token_expires_at c)
    (requests_per_second c) (last_request_time c) (request_interval c).

Definition token_read (env : Env) (st : State) (tok : option string) : State :=
  mkState (holding (self st) tok) (reading_after_post env st) (S (S (step st)))
          (trace (posted env st) ++ [EvNow (now_after_post env st)]).

(** The client after [self.token_expires_at = expires_at] as well. *)
Definition expiring (c : IGDBClient) (tok : option string) (expires_at : Q)
  : IGDBClient :=
  mkIGDBClient (client_id c) (client_secret c) (base_url c) (token_url c)
    tok (Some expires_at)
    (requests_per_second c) (last_request_time c) (request_interval c).

(** The limiter's timestamp is not in the future. *)
Definition clock_ahead (st : State) : Prop := last_request_time (self st) <= clock st.

(** ** Sequences of operations on one client *)

Inductive Call : Type :=
| UpcomingGames (days_ahead limit : Z) (platform_ids : option (list Z))
| SearchGames (search_term : string) (limit : Z)
| Platforms.

Definition perform (call : Call) : M JSON :=
  match call with
  | UpcomingGames days_ahead limit platform_ids =>
      igdb_client.get_upcoming_games days_ahead limit platform_ids
  | SearchGames search_term limit => igdb_client.search_games search_term limit
  | Platforms => igdb_client.get_platforms
  end.

(** The calls follow one another: each is awaited to its end, whether
    it returns or raises, before the next is made in the state it has
    left; after each call, the timestamp of the limiter. *)
Fixpoint timestamps (calls : list Call) (env : Env) (st : State) : list Q :=
  match calls with
  | [] => []
  | call :: rest =>
      let st' := snd (perform call env st) in
      last_request_time (self st') :: timestamps rest env st'
  end.

(** Each timestamp is the one before it or at least [interval] later. *)
Fixpoint paced (interval previous : Q) (stamps : list Q) : Prop :=
  match stamps with
  | [] => True
  | t :: rest => (t = previous \/ previous + interval <= t) /\ paced interval t rest
  end.

(** A call for upcoming games that raised while it formed its window:
    it has read the local clock, once or twice, and done nothing
    else. *)
Definition failed_on_window (env : Env) (st : State) (call : Call) : Prop :=
  exists (days_ahead limit : Z) (platform_ids : option (list Z)) (e : exn)
         (readings : list Q),
    call = UpcomingGames days_ahead limit platform_ids /\
    fst (perform call env st) = Raise e /\
    self (snd (perform call env st)) = self st /\
    trace (snd (perform call env st)) = trace st ++ map EvNow readings.

(** ** Python text, for strings of ASCII characters *)

Module text.

Local Open Scope string_scope.

(** [s.split(",")]. *)
Fixpoint split_from (current : string) (s : string) : list string :=
  match s with
  | EmptyString => [current]
  | String c rest =>
      if Ascii.eqb c ","
      then current :: split_from EmptyString rest
      else split_from (current ++ String c EmptyString) rest
  end.

Definition split_comma (s : string) : list string := split_from EmptyString s.

(** [c.isspace()]: the blank, the controls 9 to 13 and 28 to 31. *)
Definition is_space (c : ascii) : bool :=
  let n := N_of_ascii c in
  (N.eqb n 32 || ((9 <=? n) && (n <=? 13)) || ((28 <=? n) && (n <=? 31)))%N.

Fixpoint lstrip (s : string) : string :=
  match s with
  | EmptyString => EmptyString
  | String c rest => if is_space c then lstrip rest else s
  end.

Fixpoint rstrip (s : string) : string :=
  match s with
  | EmptyString => EmptyString
  | String c rest =>
      match rstrip rest with
      | EmptyString => if is_space c then EmptyString else String c EmptyString
      | kept => String c kept
      end
  end.

(** [s.strip()]. *)
Definition strip (s : string) : string := rstrip (lstrip s).

Definition is_digit (c : ascii) : bool :=
  let n := N_of_ascii c in ((48 <=? n) && (n <=? 57))%N.

Definition digit_value (c : ascii) : Z := Z.of_N (N_of_ascii c) - 48.

(** The digits of an integer literal, single underscores allowed between
    them; [after_digit] says that the character before was a digit. *)
Fixpoint digits_from (value : Z) (after_digit : bool) (s : string) : option Z :=
  match s with
  | EmptyString => if after_digit then Some value else None
  | String c rest =>
      if is_digit c then digits_from (10 * value + digit_value c) true rest
      else if Ascii.eqb c "_" && after_digit then digits_from value false rest
           else None
  end.

Fixpoint count_digits (s : string) : nat :=
  match s with
  | EmptyString => O
  | String c rest => if is_digit c then S (count_digits rest) else count_digits rest
  end.

(** A decimal literal; one of more than 4300 digits is refused (the
    default of the interpreter's limit on the conversion). *)
Definition literal (digits : string) : option Z :=
  if (4300 <? count_digits digits)%nat then None else digits_from 0 false digits.

(** [int(s)], [None] where it raises [ValueError]: blanks around, a
    sign, then the literal. *)
Definition int_of_str (s : string) : option Z :=
  match strip s with
  | String "+" digits => literal digits
  | String "-" digits => option_map Z.opp (literal digits)
  | digits => literal digits
  end.

(** [s.replace(old, new)] for an [old] that is not empty: its
    occurrences from left to right, without overlap; [skip] counts the
    characters of an occurrence still to pass over. *)
Fixpoint replace_from (skip : nat) (old new s : string) : string :=
  match s with
  | EmptyString => EmptyString
  | String c rest =>
      match skip with
      | S k => replace_from k old new rest
      | O =>
          if String.prefix old s
          then new ++ replace_from (String.length old - 1) old new rest
          else String c (replace_from 0 old new rest)
      end
  end.

Definition replace (old new s : string) : string := replace_from 0 old new s.

(** A string of decimal digits. *)
Fixpoint decimal (s : string) : bool :=
  match s with
  | EmptyString => true
  | String c rest => is_digit c && decimal rest
  end.

(** A string without the character [c]. *)
Fixpoint lacks (c : ascii) (s : string) : bool :=
  match s with
  | EmptyString => true
  | String c' rest => negb (Ascii.eqb c' c) && lacks c rest
  end.

End text.

(** ** backend/models.py: the cover of a game *)

Module game_cover.

Local Open Scope string_scope.

(** [GameCover.get_cover_url(size)]; the default [size] is
    [cover_big]. *)
Definition get_cover_url (cover : models.GameCover) (size : string) : option string :=
  match models.cover_url cover with
  | Some url =>
      if Py.truthy_str url
      then Some ("https:" ++ text.replace "t_thumb" ("t_" ++ size) url)
      else None
  | None => None
  end.

End game_cover.

(** ** backend/server.py: the routes *)

Module routes.

Local Open Scope string_scope.

(** [[int(pid.strip()) for pid in platform_ids.split(",")]], [None]
    where an element raises [ValueError]. *)
Fixpoint int_all (pieces : list string) : option (list Z) :=
  match pieces with
  | [] => Some []
  | pid :: rest =>
      match text.int_of_str (text.strip pid) with
      | Some id =>
          match int_all rest with
          | Some ids => Some (id :: ids)
          | None => None
          end
      | None => None
      end
  end.

(** The parsing of the [platform_ids] parameter of
    [GET /api/games/upcoming]. *)
Definition parse_platform_ids (platform_ids : option string)
  : Result (option (list Z)) :=
  match platform_ids with
  | Some s =>
      if Py.truthy_str s then
        match int_all (text.split_comma s) with
        | Some ids => Ok (Some ids)
        | None => Raise (HTTPException 400 "Invalid platform IDs format")
        end
      else Ok None
  | None => Ok None
  end.

(** [datetime.max], 9999-12-31 23:59:59.999999. *)
Definition datetime_max : Q := 253402300799999999 # 1000000.

(** [except IGDBRateLimitError: ... except IGDBAuthError: ...
     except Exception as e: ...] of the upcoming-games route. *)
Definition upcoming_errors (e : exn) : exn :=
  match e with
  | IGDBRateLimitError _ =>
      HTTPException 429 "Rate limit exceeded. Please try again later."
  | IGDBAuthError _ => HTTPException 503 "Authentication failed with IGDB API"
  | _ => HTTPException 500 "Internal server error"
  end.

Section Routes.

Context `{Pydantic}.

(** The key [(g.first_release_date or datetime.max, g.name)]. *)
Definition sort_key (g : models.Game) : Q * string :=
  (match models.first_release_date g with
   | Some d => d
   | None => datetime_max
   end,
   models.name g).

(** [k1 < k2] on such pairs: the first components decide unless they are
    equal. *)
Definition key_lt (k1 k2 : Q * string) : bool :=
  if Qeq_bool (fst k1) (fst k2)
  then String.ltb (snd k1) (snd k2)
  else Py.Qltb (fst k1) (fst k2).

(** [sorted(games, key=...)]: a stable sort, here by insertion from the
    right; an element goes before the first one that is not smaller. *)
Fixpoint insert (g : models.Game) (sorted_games : list models.Game)
  : list models.Game :=
  match sorted_games with
  | [] => [g]
  | g' :: rest =>
      if key_lt (sort_key g') (sort_key g)
      then g' :: insert g rest
      else g :: sorted_games
  end.

Fixpoint sorted (games : list models.Game) : list models.Game :=
  match games with
  | [] => []
  | g :: rest => insert g (sorted rest)
  end.

(** The store, which the routes use through these two functions of
    [backend/database.py]. *)
Variable save_games : list models.Game -> M Z.
Variable get_upcoming_games_from_db :
  Z -> option (list Z) -> Z -> M (list models.Game).

(** Fetch from the catalogue, convert onto [games], save what there is. *)
Definition fetch_and_save (days_ahead limit : Z) (platform_filter : option (list Z))
    (games : list models.Game) : M (list models.Game) :=
  games_data <- igdb_client.get_upcoming_games days_ahead limit platform_filter ;;
  batch <- server.lift (server.iterate games_data) ;;
  let games := server.convert server.Game games batch in
  (if Py.truthy_list games then save_games games ;;; ret tt else ret tt) ;;;
  ret games.

(** [GET /api/games/upcoming]. *)
Definition get_upcoming_games (days_ahead limit : Z) (platform_ids : option string)
    (force_refresh : bool) : M models.GameResponse :=
  platform_filter <- server.lift (parse_platform_ids platform_ids) ;;
  try_except
    (games <-
       (if force_refresh
        then fetch_and_save days_ahead limit platform_filter []
        else
          games <- get_upcoming_games_from_db days_ahead platform_filter limit ;;
          if Py.truthy_list games
          then ret games
          else fetch_and_save days_ahead limit platform_filter games) ;;
     let sorted_games := sorted games in
     ret (models.mkGameResponse sorted_games
            (Some (Z.of_nat (length sorted_games))) 1 limit))
    (fun e => Some (raise (upcoming_errors e))).

End Routes.

End routes.

(** ** More concrete worlds *)

Module Scenario.

Local Open Scope string_scope.

(** The identity provider answers 200 with [body]. *)
Definition answering (body : option TokenData) : Env :=
  Sample.refusing (Sample.token_response 200 "OK" body).

(** The identity provider is slow: the third effect, which is the
    exchange of the credentials when a new client makes its first
    request, takes a quarter of a second. *)
Definition slow_exchange : Env :=
  mkEnv (fun n => if Nat.eqb n 2 then mkDuration 250 1000 else Sample.millisecond)
        Sample.utc_localtime Sample.utc_mktime
        (fun _ => Sample.token_response 200 "OK"
                    (Some (mkTokenData (Some (Some "token-1")) (Some 3600%Z))))
        (fun _ => Sample.entity_response 200 "OK" (Some (JList []))).

(** The client of [Sample.holding_token] an hour and a half later: its
    token has expired. *)
Definition expired : State :=
  mkState (self Sample.holding_token) 1700005400 0 [].

(** A client whose last request has only just started. *)
Definition busy : State :=
  mkState (mkIGDBClient "id" "secret" "https://api.igdb.com/v4"
             "https://id.twitch.tv/oauth2/token"
             (Some "token-0") (Some 1700003600) (7 # 2) 1700000000 (1 / (7 # 2)))
          1700000000 0 [].

(** A host five hours behind UTC that moves its clock forward by an
    hour at the instant [spring_forward] (2024-03-10 07:00:00 UTC, as
    in New York), with the catalogue answering [answer]. The hour that
    its clock skips is converted with the offset before the change, or
    with the one after it for a [datetime] with [fold]. *)
Definition spring_forward : Q := 1710054000.

Definition eastern_localtime (t : Q) : NaiveDatetime :=
  mkNaive (if Py.Qltb t spring_forward then t - 18000 else t - 14400) false.

Definition eastern_mktime (d : NaiveDatetime) : Result Q :=
  let changes := if fold d then spring_forward - 18000 else spring_forward - 14400 in
  Ok (if Py.Qltb (wall d) changes then wall d + 18000 else wall d + 14400).

Definition eastern (answer : httpx.Outcome JSON) : Env :=
  mkEnv (fun _ => Sample.millisecond) eastern_localtime eastern_mktime
        (fun _ => Sample.token_response 200 "OK"
                    (Some (mkTokenData (Some (Some "token-1")) (Some 3600%Z))))
        (fun _ => answer).

(** A store that takes every game, and the two reads of a store: one
    that finds nothing and one that finds [games]. *)
Definition save_all (games : list models.Game) : M Z :=
  ret (Z.of_nat (length games)).

Definition find_nothing (days_ahead : Z) (platform_ids : option (list Z)) (limit : Z)
  : M (list models.Game) :=
  ret [].

Definition find (games : list models.Game)
    (days_ahead : Z) (platform_ids : option (list Z)) (limit : Z)
  : M (list models.Game) :=
  ret games.

(** Three games: two of the same day and one without a date. *)
Definition undated : models.Game :=
  models.mkGame 3 "Alpha" None None None [] [] None.

Definition zelda : models.Game :=
  models.mkGame 1 "Zelda" None None (Some 1707000000) [] [] None.

Definition metroid : models.Game :=
  models.mkGame 2 "Metroid" None None (Some 1707000000) [] [] None.

End Scenario.

(** * Properties *)

Section Basics.

Lemma seconds_nonneg (d : Duration) : 0 <= seconds d.
Proof.
  unfold seconds, Qle; simpl. lia.
Qed.

Lemma Qltb_lt (x y : Q) : Py.Qltb x y = true <-> x < y.
Proof.
  unfold Py.Qltb. rewrite negb_true_iff, <- not_true_iff_false, Qle_bool_iff.
  split; intro Hxy; [ now apply Qnot_le_lt | now apply Qlt_not_le ].
Qed.

Lemma Qltb_ge (x y : Q) : Py.Qltb x y = false <-> y <= x.
Proof.
  unfold Py.Qltb. rewrite negb_false_iff. apply Qle_bool_iff.
Qed.

Lemma time_time_run (env : Env) (st : State) :
  time_time env st =
    (Ok (next_reading env st),
     mkState (self st) (next_reading env st) (S (step st))
             (trace st ++ [EvTime (next_reading env st)])).
Proof. reflexivity. Qed.

Lemma datetime_now_run (env : Env) (st : State) :
  datetime_now env st =
    (Ok (localtime env (next_reading env st)),
     mkState (self st) (next_reading env st) (S (step st))
             (trace st ++ [EvNow (next_now env st)])).
Proof. reflexivity. Qed.

End Basics.

Section RateLimiter.

Variable env : Env.

(** The state a call of [_rate_limit] ends in. *)
Lemma rate_limit_run (st : State) :
  exists st',
    igdb_client._rate_limit env st = (Ok tt, st') /\
    trace st' =
      trace st
        ++ EvTime (next_reading env st)
        :: (if rate_limit_suspends env st
            then [EvSleep (request_interval (self st) - rate_limit_elapsed env st)]
            else [])
        ++ [EvTime (clock st')] /\
    last_request_time (self st') = clock st' /\
    request_interval (self st') = request_interval (self st) /\
    access_token (self st') = access_token (self st) /\
    token_expires_at (self st') = token_expires_at (self st) /\
    last_request_time (self st) + request_interval (self st) <= clock st'.
Proof.
  unfold igdb_client._rate_limit, bind at 1. rewrite time_time_run.
  unfold bind at 1, get_self; cbn [self].
  fold (rate_limit_elapsed env st). fold (rate_limit_suspends env st).
  destruct (rate_limit_suspends env st) eqn:Hs.
  - eexists; split; [ reflexivity | ].
    cbn. rewrite <- !app_assoc.
    split; [ reflexivity | ]. do 4 (split; [ reflexivity | ]).
    apply Qltb_lt in Hs.
    assert (Hd : 0 < request_interval (self st) - rate_limit_elapsed env st) by lra.
    apply Qltb_lt in Hd. rewrite Hd.
    pose proof (seconds_nonneg (latency env (S (step st)))).
    pose proof (seconds_nonneg (latency env (S (S (step st))))).
    unfold rate_limit_elapsed in *. lra.
  - eexists; split; [ reflexivity | ].
    cbn. rewrite <- !app_assoc.
    split; [ reflexivity | ]. do 4 (split; [ reflexivity | ]).
    apply Qltb_ge in Hs.
    pose proof (seconds_nonneg (latency env (S (step st)))).
    unfold rate_limit_elapsed in *. lra.
Qed.

Lemma rate_limit_enter_run (st : State) :
  rate_limit_enter env st =
    (Ok (if rate_limit_suspends env st
         then Some (request_interval (self st) - rate_limit_elapsed env st)
         else None),
     mkState (self st) (next_reading env st) (S (step st))
             (trace st ++ [EvTime (next_reading env st)])).
Proof.
  unfold rate_limit_enter, bind at 1. rewrite time_time_run.
  unfold bind, get_self; cbn [self].
  fold (rate_limit_elapsed env st). fold (rate_limit_suspends env st).
  destruct (rate_limit_suspends env st); reflexivity.
Qed.

(** The two halves make up [_rate_limit], with the sleep between
    them. *)
Lemma rate_limit_halves (st : State) :
  igdb_client._rate_limit env st =
    (sleep_time <- rate_limit_enter ;;
     match sleep_time with
     | Some d => asyncio_sleep d
     | None => ret tt
     end ;;;
     rate_limit_leave) env st.
Proof.
  unfold bind at 1. rewrite rate_limit_enter_run.
  unfold igdb_client._rate_limit, bind at 1. rewrite time_time_run.
  unfold bind at 1, get_self; cbn [self].
  fold (rate_limit_elapsed env st). fold (rate_limit_suspends env st).
  destruct (rate_limit_suspends env st); reflexivity.
Qed.

(** A call that has the event loop to itself is a call of
    [_rate_limit]. *)
Lemma coroutine_alone (st : State) :
  gather_rate_limit 1 env st =
    (Ok [Returned (last_request_time (self (snd (igdb_client._rate_limit env st))))],
     snd (igdb_client._rate_limit env st)).
Proof.
  rewrite rate_limit_halves.
  unfold gather_rate_limit. cbn [Nat.mul Nat.add repeat event_loop first_ready run_turn turn].
  cbv [bind]. rewrite !rate_limit_enter_run.
  destruct (rate_limit_suspends env st) eqn:Hs.
  - apply Qltb_lt in Hs.
    assert (Hd : Py.Qltb 0 (request_interval (self st) - rate_limit_elapsed env st) = true)
      by (apply Qltb_lt; lra).
    assert (Hdue : Py.Qltb (next_reading env st)
                     (next_reading env st
                      + (request_interval (self st) - rate_limit_elapsed env st)) = true)
      by (apply Qltb_lt; lra).
    cbv [suspend emit read_clock ret bind asyncio_sleep advance elapse].
    cbn [self clock step trace]. rewrite Hd.
    cbn [first_ready first_due option_map event_loop run_turn turn fst snd].
    cbv [bind resume wait_until elapse ret]. cbn [self clock step trace].
    rewrite Hdue. reflexivity.
  - reflexivity.
Qed.

End RateLimiter.

Section RateLimiterSequences.

Variable env : Env.

Lemma rate_limit_calls_spaced (n : nat) :
  forall st : State,
  exists starts st',
    rate_limit_calls n env st = (Ok starts, st') /\
    length starts = n /\
    spaced (request_interval (self st)) (last_request_time (self st) :: starts).
Proof.
  induction n as [| n IH]; intros st.
  - exists [], st. cbn. auto.
  - destruct (rate_limit_run env st) as (st1 & Hrun & _ & Hlast & Hint & _ & _ & Hle).
    destruct (IH st1) as (starts & st' & Hcalls & Hlen & Hsp).
    exists (last_request_time (self st1) :: starts), st'.
    split; [ | split ].
    + cbn [rate_limit_calls]. unfold bind at 1. rewrite Hrun.
      unfold bind at 1, get_self. unfold bind at 1. rewrite Hcalls. reflexivity.
    + cbn. now rewrite Hlen.
    + rewrite Hint in Hsp. split; [ now rewrite Hlast | exact Hsp ].
Qed.

End RateLimiterSequences.

(** C3, as the code has it. Through the rate limiter of one client,
    calls that follow one another (each has returned before the next is
    made) are let go at least
    [request_interval = 1 / requests_per_second] apart: the times that
    they record in [last_request_time] are so. A call reads the clock,
    computes the time elapsed since [last_request_time], sleeps for the
    remainder of the interval when the elapsed time is shorter, and then
    records the current clock reading in [last_request_time]. A call
    that the event loop runs alone is such a call. (Clock arithmetic is
    exact and a sleep lasts at least as long as asked.) *)
Theorem rate_limiter_minimum_spacing :
  (forall (cid secret : string) (rps : Q),
      match igdb_client.__init__ cid secret rps with
      | Ok c => request_interval c = 1 / rps /\ requests_per_second c = rps
      | Raise _ => rps == 0
      end) /\
  (forall (env : Env) (st : State),
      exists st',
        igdb_client._rate_limit env st = (Ok tt, st') /\
        trace st' =
          trace st
            ++ EvTime (next_reading env st)
            :: (if Py.Qltb (next_reading env st - last_request_time (self st))
                           (request_interval (self st))
                then [EvSleep (request_interval (self st)
                               - (next_reading env st - last_request_time (self st)))]
                else [])
            ++ [EvTime (clock st')] /\
        last_request_time (self st') = clock st' /\
        request_interval (self st') = request_interval (self st)) /\
  (forall (env : Env) (st : State) (n : nat),
      exists starts st',
        rate_limit_calls n env st = (Ok starts, st') /\
        length starts = n /\
        spaced (request_interval (self st)) starts) /\
  (forall (env : Env) (st : State),
      gather_rate_limit 1 env st =
        (Ok [Returned (last_request_time (self (snd (igdb_client._rate_limit env st))))],
         snd (igdb_client._rate_limit env st))).
Proof.
  split; [ | split; [ | split ] ].
  - intros cid secret rps. unfold igdb_client.__init__.
    destruct (Qeq_bool rps 0) eqn:Hz.
    + now apply Qeq_bool_eq.
    + cbn. auto.
  - intros env st.
    destruct (rate_limit_run env st) as (st' & Hrun & Htr & Hlast & Hint & _).
    exists st'. repeat split; assumption.
  - intros env st n.
    destruct (rate_limit_calls_spaced env n st) as (starts & st' & Hcalls & Hlen & Hsp).
    exists starts, st'. repeat split; try assumption.
    destruct starts; [ exact I | apply Hsp ].
  - intros env st. apply coroutine_alone.
Qed.

(** C3 fails as stated, in two ways.

    Calls that overlap are not spaced. The client has no lock around
    the reading of [last_request_time] and its update, and the sleep
    lies between the two. When two calls are started together on a
    client that has just made a request, the first reads the timestamp
    and goes to sleep, the second reads the same timestamp and goes to
    sleep, both are due at the same time, and they leave the limiter
    two milliseconds apart (the time of two effects), for an interval of
    two sevenths of a second.

    And what is spaced is the times at which the limiter lets the calls
    go, not the requests that follow. Between the limiter and the POST
    comes the token manager. When a new client makes two searches one
    after the other and the exchange of the credentials takes a quarter
    of a second, the limiter lets the two calls go more than the
    interval apart, and the two queries are posted 33/875 of a second
    apart. *)
Lemma overlapping_calls_are_not_spaced :
  (exists (start1 start2 : Q) (st' : State),
      gather_rate_limit 2 (Sample.refusing (httpx.Failed "unreachable")) Scenario.busy
        = (Ok [Returned start1; Returned start2], st') /\
      start2 - start1 == 2 # 1000 /\
      request_interval (self Scenario.busy) == 2 # 7 /\
      ~ spaced (request_interval (self Scenario.busy)) [start1; start2]) /\
  (exists st1 st2 : State,
      igdb_client.search_games "zelda" 20 Scenario.slow_exchange Sample.fresh
        = (Ok (JList []), st1) /\
      igdb_client.search_games "zelda" 20 Scenario.slow_exchange st1
        = (Ok (JList []), st2) /\
      entity_posts (trace st2) = 2%nat /\
      last_request_time (self st1) + request_interval (self Sample.fresh)
        <= last_request_time (self st2) /\
      post_time Scenario.slow_exchange st1 - post_time Scenario.slow_exchange Sample.fresh
        == 33 # 875 /\
      ~ spaced (request_interval (self Sample.fresh))
          [post_time Scenario.slow_exchange Sample.fresh;
           post_time Scenario.slow_exchange st1]).
Proof.
  split.
  - eexists; eexists; eexists.
    split; [ vm_compute; reflexivity | ].
    split; [ vm_compute; reflexivity | ].
    split; [ vm_compute; reflexivity | ].
    cbn [spaced]. intros [Hspaced _]. revert Hspaced. vm_compute. intros Hle. now apply Hle.
  - eexists; eexists.
    split; [ vm_compute; reflexivity | ].
    split; [ vm_compute; reflexivity | ].
    split; [ vm_compute; reflexivity | ].
    split; [ vm_compute; discriminate | ].
    split; [ vm_compute; reflexivity | ].
    cbn [spaced]. intros [Hspaced _]. revert Hspaced. vm_compute. intros Hle. now apply Hle.
Qed.

(** C10. On a client that has just been constructed
    ([last_request_time = 0.0]) the first call through the rate limiter
    does not sleep, whenever the interval is realistic, that is, not
    longer than the time since the epoch that the clock shows: the call
    reads the clock twice and records the second reading. *)
Theorem first_call_never_suspends
    (env : Env) (cid secret : string) (rps : Q) (c : IGDBClient) (st : State) :
  igdb_client.__init__ cid secret rps = Ok c ->
  self st = c ->
  1 / rps <= clock st ->
  exists st',
    igdb_client._rate_limit env st = (Ok tt, st') /\
    trace st' = trace st ++ [EvTime (next_reading env st); EvTime (clock st')] /\
    clock st' = next_reading env st + seconds (latency env (S (step st))) /\
    last_request_time (self st') = clock st'.
Proof.
  intros Hinit Hself Hreal.
  unfold igdb_client.__init__ in Hinit.
  destruct (Qeq_bool rps 0); [ discriminate | ].
  injection Hinit as Hc.
  assert (Hno : rate_limit_suspends env st = false).
  { apply Qltb_ge. unfold rate_limit_elapsed, next_reading.
    rewrite Hself, <- Hc; cbn [last_request_time request_interval].
    pose proof (seconds_nonneg (latency env (step st))). lra. }
  destruct (rate_limit_run env st) as (st' & Hrun & Htr & Hlast & _).
  exists st'. rewrite Hno in Htr.
  repeat split; try assumption.
  unfold igdb_client._rate_limit, bind at 1 in Hrun. rewrite time_time_run in Hrun.
  unfold bind at 1, get_self in Hrun; cbn [self] in Hrun.
  fold (rate_limit_elapsed env st) in Hrun. fold (rate_limit_suspends env st) in Hrun.
  rewrite Hno in Hrun. cbn in Hrun. injection Hrun as <-. reflexivity.
Qed.

Lemma first_call_never_suspends_witness :
  igdb_client.__init__ "id" "secret" (7 # 2) = Ok Sample.client /\
  1 / (7 # 2) <= clock Sample.fresh /\
  exists st',
    igdb_client._rate_limit (Sample.granting 5000000 (httpx.Failed "connection reset")) Sample.fresh
      = (Ok tt, st') /\
    trace st' =
      trace Sample.fresh
        ++ [EvTime (next_reading (Sample.granting 5000000 (httpx.Failed "connection reset")) Sample.fresh);
            EvTime (clock st')] /\
    clock st' =
      next_reading (Sample.granting 5000000 (httpx.Failed "connection reset")) Sample.fresh
        + seconds (latency (Sample.granting 5000000 (httpx.Failed "connection reset")) (S (step Sample.fresh))) /\
    last_request_time (self st') = clock st'.
Proof.
  split; [ reflexivity | ].
  split; [ unfold Qle; simpl; lia | ].
  apply (@first_call_never_suspends (Sample.granting 5000000 (httpx.Failed "connection reset"))
           "id" "secret" (7 # 2) Sample.client Sample.fresh).
  - reflexivity.
  - reflexivity.
  - unfold Qle; simpl; lia.
Defined.

Section TokenManager.

Variable env : Env.

Lemma token_posts_app (tr1 tr2 : list Event) :
  token_posts (tr1 ++ tr2) = (token_posts tr1 + token_posts tr2)%nat.
Proof.
  unfold token_posts. now rewrite filter_app, length_app.
Qed.

Lemma entity_posts_app (tr1 tr2 : list Event) :
  entity_posts (tr1 ++ tr2) = (entity_posts tr1 + entity_posts tr2)%nat.
Proof.
  unfold entity_posts. now rewrite filter_app, length_app.
Qed.

(** The guard never raises, never touches the client and never posts. *)
Lemma cached_token_run (st : State) :
  exists hit st',
    igdb_client.cached_token env st = (Ok hit, st') /\
    self st' = self st /\
    (trace st' = trace st \/ exists now : Q, trace st' = trace st ++ [EvNow now]).
Proof.
  unfold igdb_client.cached_token, bind at 1, get_self.
  destruct (access_token (self st)) as [tok |]; [ | now exists None, st; auto ].
  destruct (Py.truthy_str tok); [ | now exists None, st; auto ].
  destruct (token_expires_at (self st)) as [expires_at |]; [ | now exists None, st; auto ].
  unfold bind. rewrite datetime_now_run.
  destruct (Py.Qltb (wall (localtime env (next_reading env st))) expires_at);
    eexists; eexists; (split; [ reflexivity | cbn; eauto ]).
Qed.

Lemma cached_token_hit (st : State) (tok : string) (expires_at : Q) :
  access_token (self st) = Some tok ->
  tok <> EmptyString ->
  token_expires_at (self st) = Some expires_at ->
  next_now env st < expires_at ->
  igdb_client.cached_token env st =
    (Ok (Some tok),
     mkState (self st) (next_reading env st) (S (step st))
             (trace st ++ [EvNow (next_now env st)])).
Proof.
  intros Htok Hne Hexp Hlt.
  unfold igdb_client.cached_token, bind at 1, get_self. rewrite Htok, Hexp.
  destruct tok as [| c tok]; [ congruence | cbn [Py.truthy_str] ].
  unfold bind. rewrite datetime_now_run.
  apply Qltb_lt in Hlt. unfold next_now in Hlt. now rewrite Hlt.
Qed.

End TokenManager.

(** C4. When the client holds a token (a non-empty string: the guard
    tests the truth value of [access_token]) and the clock shows a time
    before [token_expires_at] when [datetime.now()] reads it,
    [_get_access_token] returns that token; the only effect is the
    reading of the clock: no request goes to the token endpoint and the
    client, token and expiry included, is as it was. *)
Theorem cached_token_returned_without_network
    (env : Env) (st : State) (tok : string) (expires_at : Q) :
  access_token (self st) = Some tok ->
  tok <> EmptyString ->
  token_expires_at (self st) = Some expires_at ->
  next_now env st < expires_at ->
  exists st',
    igdb_client._get_access_token env st = (Ok (Some tok), st') /\
    self st' = self st /\
    trace st' = trace st ++ [EvNow (next_now env st)] /\
    token_posts (trace st') = token_posts (trace st) /\
    entity_posts (trace st') = entity_posts (trace st).
Proof.
  intros Htok Hne Hexp Hlt.
  eexists. split.
  - unfold igdb_client._get_access_token, bind at 1.
    rewrite (@cached_token_hit env st tok expires_at Htok Hne Hexp Hlt). reflexivity.
  - cbn [self trace]. rewrite token_posts_app, entity_posts_app. cbn.
    repeat split; lia.
Qed.

Lemma cached_token_returned_without_network_witness :
  access_token (self Sample.holding_token) = Some "token-0"%string /\
  "token-0"%string <> EmptyString /\
  token_expires_at (self Sample.holding_token) = Some 1700003600 /\
  next_now (Sample.refusing (httpx.Failed "unreachable")) Sample.holding_token
    < 1700003600 /\
  exists st',
    igdb_client._get_access_token (Sample.refusing (httpx.Failed "unreachable"))
      Sample.holding_token = (Ok (Some "token-0"%string), st') /\
    self st' = self Sample.holding_token /\
    trace st' =
      trace Sample.holding_token
        ++ [EvNow (next_now (Sample.refusing (httpx.Failed "unreachable"))
                            Sample.holding_token)] /\
    token_posts (trace st') = token_posts (trace Sample.holding_token) /\
    entity_posts (trace st') = entity_posts (trace Sample.holding_token).
Proof.
  assert (Hne : "token-0"%string <> EmptyString) by discriminate.
  assert (Hlt : next_now (Sample.refusing (httpx.Failed "unreachable"))
                  Sample.holding_token < 1700003600)
    by (unfold Qlt; simpl; lia).
  split; [ reflexivity | ]. split; [ exact Hne | ].
  split; [ reflexivity | ]. split; [ exact Hlt | ].
  exact (@cached_token_returned_without_network
           (Sample.refusing (httpx.Failed "unreachable")) Sample.holding_token
           "token-0"%string 1700003600 eq_refl Hne eq_refl Hlt).
Defined.

(** C5. When the exchange of the credentials is attempted (the guard
    found no usable token) and ends in a transport failure or in a
    response whose status is not 2xx, [_get_access_token] raises
    [IGDBAuthError] whose message quotes the upstream error (the
    transport's message, or the status line of the response), after one
    request to the token endpoint, and the client, token and expiry
    included, is as it was. *)
Theorem failed_exchange_raises_AuthError (env : Env) (st st1 : State) :
  igdb_client.cached_token env st = (Ok None, st1) ->
  (forall m : string,
      token_endpoint env (step st1) = httpx.Failed m ->
      exists st',
        igdb_client._get_access_token env st
          = (Raise (IGDBAuthError ("Authentication failed: " ++ m)), st') /\
        self st' = self st /\
        token_posts (trace st') = S (token_posts (trace st))) /\
  (forall r : httpx.Response TokenData,
      token_endpoint env (step st1) = httpx.Responded r ->
      httpx.is_success r = false ->
      exists st',
        igdb_client._get_access_token env st
          = (Raise (IGDBAuthError ("Authentication failed: " ++ httpx.status_message r)),
             st') /\
        self st' = self st /\
        token_posts (trace st') = S (token_posts (trace st))).
Proof.
  intros Hmiss.
  destruct (cached_token_run env st) as (hit & st1' & Hrun & Hself & Htrace).
  rewrite Hmiss in Hrun. injection Hrun as <- <-.
  assert (Hposts : token_posts (trace st1) = token_posts (trace st)).
  { destruct Htrace as [-> | (now & ->)]; [ reflexivity | ].
    rewrite token_posts_app. cbn. lia. }
  split.
  - intros m Hfail.
    unfold igdb_client._get_access_token, bind at 1. rewrite Hmiss.
    unfold bind at 1, get_self. unfold try_except, bind at 1, post_params.
    cbn [step elapse]. rewrite Hfail. cbn [is_HTTPError str_exn raise].
    eexists. split; [ reflexivity | ]. cbn [self trace].
    split; [ assumption | ]. rewrite token_posts_app, Hposts. cbn. lia.
  - intros r Hresp Hstatus.
    unfold igdb_client._get_access_token, bind at 1. rewrite Hmiss.
    unfold bind at 1, get_self. unfold try_except, bind at 1, post_params.
    cbn [step elapse]. rewrite Hresp.
    unfold bind at 1, raise_for_status. rewrite Hstatus.
    cbn [is_HTTPError str_exn raise].
    eexists. split; [ reflexivity | ]. cbn [self trace].
    split; [ assumption | ]. rewrite token_posts_app, Hposts. cbn. lia.
Qed.

Lemma failed_exchange_raises_AuthError_witness :
  igdb_client.cached_token (Sample.refusing (httpx.Failed "unreachable")) Sample.fresh
    = (Ok None, Sample.fresh) /\
  exists st',
    igdb_client._get_access_token (Sample.refusing (httpx.Failed "unreachable")) Sample.fresh
      = (Raise (IGDBAuthError "Authentication failed: unreachable"), st') /\
    self st' = self Sample.fresh /\
    token_posts (trace st') = S (token_posts (trace Sample.fresh)).
Proof.
  split; [ reflexivity | ].
  exact (proj1 (@failed_exchange_raises_AuthError
                  (Sample.refusing (httpx.Failed "unreachable"))
                  Sample.fresh Sample.fresh eq_refl)
               "unreachable"%string eq_refl).
Defined.

(** C1, as the code has it. When the exchange is attempted and answered
    with a 2xx response that carries an access token, the client stores
    [token_expires_at = now + (expires_in - 300)] for the clock reading
    [now] that [datetime.now()] takes after the response, whatever
    [expires_in] is: the margin is not clamped, and the stored expiry is
    later than [now] exactly when [expires_in > 300]. (The two range
    conditions say that the [timedelta] and the resulting [datetime]
    exist.) *)
Theorem exchange_stores_expiry_without_clamp
    (env : Env) (st st1 : State) (r : httpx.Response TokenData)
    (token_data : TokenData) (tok : option string) :
  igdb_client.cached_token env st = (Ok None, st1) ->
  token_endpoint env (step st1) = httpx.Responded r ->
  httpx.is_success r = true ->
  httpx.json_body r = Some token_data ->
  td_access_token token_data = Some tok ->
  let expires_in := igdb_client.get_expires_in token_data in
  let now := now_after_post env st1 in
  (-999999999 * 86400 <= expires_in - 300 < 1000000000 * 86400)%Z ->
  inject_Z (-62135596800) <= now + inject_Z (expires_in - 300) ->
  now + inject_Z (expires_in - 300) < inject_Z 253402300800 ->
  exists st',
    igdb_client._get_access_token env st = (Ok tok, st') /\
    access_token (self st') = tok /\
    token_expires_at (self st') = Some (now + inject_Z (expires_in - 300)) /\
    (now < now + inject_Z (expires_in - 300) <-> (300 < expires_in)%Z).
Proof.
  intros Hmiss Hresp Hstatus Hbody Htok expires_in now Hdelta Hlow Hhigh.
  unfold igdb_client._get_access_token, bind at 1. rewrite Hmiss.
  unfold bind at 1, get_self. unfold try_except, bind at 1, post_params.
  cbn [step elapse]. rewrite Hresp.
  unfold bind at 1, raise_for_status. rewrite Hstatus. unfold ret at 1.
  unfold bind at 1, response_json. rewrite Hbody. unfold ret at 1.
  unfold bind at 1, igdb_client.subscript_access_token. rewrite Htok. unfold ret at 1.
  unfold bind at 1, igdb_client.set_access_token, bind at 1, get_self, set_self.
  cbn [self clock step trace].
  unfold bind at 1. rewrite datetime_now_run.
  unfold next_now, next_reading; cbn [self clock step trace].
  fold (reading_after_post env st1). fold (now_after_post env st1).
  fold now. fold expires_in.
  unfold bind at 1, datetime.timedelta_seconds.
  assert (Hd : ((-999999999 * 86400 <=? expires_in - 300)
                && (expires_in - 300 <? 1000000000 * 86400))%Z = true).
  { apply andb_true_iff. split; [ apply Z.leb_le | apply Z.ltb_lt ]; lia. }
  rewrite Hd. unfold ret at 1.
  unfold bind at 1, datetime.add.
  assert (Ha : Qle_bool (inject_Z (-62135596800)) (now + inject_Z (expires_in - 300))
               && Py.Qltb (now + inject_Z (expires_in - 300)) (inject_Z 253402300800)
               = true).
  { apply andb_true_iff. split; [ now apply Qle_bool_iff | now apply Qltb_lt ]. }
  rewrite Ha. cbn.
  eexists. split; [ reflexivity | ]. cbn.
  repeat split; try reflexivity.
  - intros Hlt. assert (H0 : 0 < inject_Z (expires_in - 300)) by lra.
    change 0 with (inject_Z 0) in H0. rewrite <- Zlt_Qlt in H0. lia.
  - intros Hgt. assert (H0 : inject_Z 0 < inject_Z (expires_in - 300))
      by (rewrite <- Zlt_Qlt; lia).
    change (inject_Z 0) with 0 in H0. lra.
Qed.

Lemma exchange_stores_expiry_without_clamp_witness :
  exists st',
    igdb_client._get_access_token
      (Sample.granting 3600 (httpx.Failed "unreachable")) Sample.fresh
      = (Ok (Some "token-1"%string), st') /\
    access_token (self st') = Some "token-1"%string /\
    token_expires_at (self st')
      = Some (now_after_post (Sample.granting 3600 (httpx.Failed "unreachable"))
                             Sample.fresh
              + inject_Z (3600 - 300)) /\
    (now_after_post (Sample.granting 3600 (httpx.Failed "unreachable")) Sample.fresh
     < now_after_post (Sample.granting 3600 (httpx.Failed "unreachable")) Sample.fresh
       + inject_Z (3600 - 300)
     <-> (300 < 3600)%Z).
Proof.
  apply (@exchange_stores_expiry_without_clamp
           (Sample.granting 3600 (httpx.Failed "unreachable")) Sample.fresh Sample.fresh
           (httpx.mkResponse 200 "OK" "https://id.twitch.tv/oauth2/token"
              (Some (mkTokenData (Some (Some "token-1"%string)) (Some 3600%Z))))
           (mkTokenData (Some (Some "token-1"%string)) (Some 3600%Z))
           (Some "token-1"%string));
    try reflexivity.
  - cbn. lia.
  - unfold Qle; simpl; lia.
Defined.

(** C1 fails as stated: a token granted for 100 seconds is stored with an
    expiry 200 seconds before the clock reading taken when it is stored
    (the last event of the call), so it is cached already expired. *)
Lemma short_lived_token_is_cached_expired :
  exists st' : State,
    igdb_client._get_access_token
      (Sample.granting 100 (httpx.Failed "unreachable")) Sample.fresh
      = (Ok (Some "token-1"%string), st') /\
    last (trace st') (EvSleep 0) = EvNow (1700000000002000 # 1000000) /\
    token_expires_at (self st') = Some (1699999800002000 # 1000000) /\
    (1699999800002000 # 1000000) == (1700000000002000 # 1000000) - 200 /\
    ~ (1700000000002000 # 1000000) < (1699999800002000 # 1000000).
Proof.
  eexists. split; [ vm_compute; reflexivity | ].
  split; [ reflexivity | ].
  split; [ reflexivity | ].
  split; [ reflexivity | ].
  unfold Qlt; simpl; lia.
Qed.

Section Dispatch.

Variable env : Env.

Ltac token_trace_done pre Hpre Hok :=
  cbn [is_HTTPError raise ret];
  eexists; eexists; eexists (pre ++ _);
  split; [ reflexivity | ];
  cbn [trace]; rewrite Hpre, <- ?app_assoc;
  split; [ reflexivity | ];
  rewrite forallb_app, Hok; reflexivity.

(** Whatever comes of it, [_get_access_token] only reads the wall clock
    and talks to the token endpoint. *)
Lemma get_access_token_trace (st : State) :
  exists (token : Result (option string)) (st' : State) (token_events : list Event),
    igdb_client._get_access_token env st = (token, st') /\
    trace st' = trace st ++ token_events /\
    forallb is_token_event token_events = true.
Proof.
  unfold igdb_client._get_access_token, bind at 1.
  destruct (cached_token_run env st) as (hit & st1 & Hrun & Hself & Htrace).
  rewrite Hrun.
  assert (Hpre : exists pre, trace st1 = trace st ++ pre /\ forallb is_token_event pre = true).
  { destruct Htrace as [Htr | (now & Htr)]; rewrite Htr.
    - exists []. split; [ now rewrite app_nil_r | reflexivity ].
    - exists [EvNow now]. split; reflexivity. }
  destruct Hpre as (pre & Hpre & Hok).
  destruct hit as [tok |].
  - exists (Ok (Some tok)), st1, pre. auto.
  - unfold bind at 1, get_self. unfold try_except, bind at 1, post_params.
    cbn [step elapse].
    destruct (token_endpoint env (step st1)) as [m | r];
      [ token_trace_done pre Hpre Hok | ].
    unfold bind at 1, raise_for_status.
    destruct (httpx.is_success r); [ | token_trace_done pre Hpre Hok ].
    unfold ret at 1. unfold bind at 1, response_json.
    destruct (httpx.json_body r) as [token_data |];
      [ | token_trace_done pre Hpre Hok ].
    unfold ret at 1. unfold bind at 1, igdb_client.subscript_access_token.
    destruct (td_access_token token_data) as [tok |];
      [ | token_trace_done pre Hpre Hok ].
    unfold ret at 1.
    unfold bind at 1, igdb_client.set_access_token, bind at 1, get_self, set_self.
    cbn [self clock step trace].
    unfold bind at 1. rewrite datetime_now_run. cbn [self clock step trace].
    unfold bind at 1, datetime.timedelta_seconds.
    destruct ((-999999999 * 86400 <=? igdb_client.get_expires_in token_data - 300)
              && (igdb_client.get_expires_in token_data - 300 <? 1000000000 * 86400))%Z;
      [ | token_trace_done pre Hpre Hok ].
    unfold ret at 1. unfold bind at 1, datetime.add.
    match goal with
    | |- context [if ?b then ret _ else _] => destruct b
    end; [ | token_trace_done pre Hpre Hok ].
    cbn. token_trace_done pre Hpre Hok.
Qed.

(** [_make_request] in one equation: the limiter, the token, one POST. *)
Lemma make_request_run (st st1 st2 : State) (token : Result (option string))
    (endpoint query : string) :
  igdb_client._rate_limit env st = (Ok tt, st1) ->
  igdb_client._get_access_token env st1 = (token, st2) ->
  igdb_client._make_request endpoint query env st =
    match token with
    | Ok t =>
        (classify (entity_endpoint env (step st2)),
         mkState (self st2) (clock st2 + seconds (latency env (step st2)))
                 (S (step st2))
                 (trace st2
                    ++ [EvPost (base_url (self st2) ++ "/" ++ endpoint) query
                               (igdb_client.request_headers (self st2) t)]))
    | Raise e => (Raise e, st2)
    end.
Proof.
  intros Hlimit Htoken.
  unfold igdb_client._make_request, bind at 1. rewrite Hlimit.
  unfold bind at 1. rewrite Htoken.
  destruct token as [t | e]; [ | reflexivity ].
  unfold bind at 1, get_self. unfold try_except, bind at 1, post_content.
  cbn [step elapse].
  destruct (entity_endpoint env (step st2)) as [m | r]; cbn [classify].
  - reflexivity.
  - unfold bind, raise_for_status, response_json.
    destruct (httpx.status_code r =? 429)%Z; [ reflexivity | ].
    cbn [ret]. destruct (httpx.is_success r); [ | reflexivity ].
    cbn [ret]. destruct (httpx.json_body r); reflexivity.
Qed.

Lemma limiter_events_no_post (events : list Event) :
  forallb is_limiter_event events = true -> entity_posts events = 0%nat.
Proof.
  unfold entity_posts.
  induction events as [| ev events IH]; [ reflexivity | ].
  cbn [forallb filter]. intros Hall. apply andb_true_iff in Hall as [Hev Hall].
  destruct ev; try discriminate; cbn; auto.
Qed.

Lemma token_events_no_post (events : list Event) :
  forallb is_token_event events = true -> entity_posts events = 0%nat.
Proof.
  unfold entity_posts.
  induction events as [| ev events IH]; [ reflexivity | ].
  cbn [forallb filter]. intros Hall. apply andb_true_iff in Hall as [Hev Hall].
  destruct ev; try discriminate; cbn; auto.
Qed.

(** Every call of [_make_request] is dispatched in that order. *)
Lemma make_request_dispatched (st : State) (endpoint query : string) :
  dispatched env st endpoint query
    (snd (igdb_client._make_request endpoint query env st)).
Proof.
  destruct (rate_limit_run env st) as (st1 & Hlimit & Htr1 & _).
  destruct (get_access_token_trace st1) as (token & st2 & token_events & Htoken & Htr2 & Hok2).
  rewrite (@make_request_run st st1 st2 token endpoint query Hlimit Htoken).
  eexists; exists token_events, st1, st2, token.
  split; [ exact Hlimit | ].
  split; [ exact Htr1 | ].
  assert (Hok1 : forallb is_limiter_event
                   (EvTime (next_reading env st)
                    :: (if rate_limit_suspends env st
                        then [EvSleep (request_interval (self st) - rate_limit_elapsed env st)]
                        else [])
                    ++ [EvTime (clock st1)]) = true)
    by (destruct (rate_limit_suspends env st); reflexivity).
  split; [ exact Hok1 | ].
  split; [ exact Htoken | ].
  split; [ exact Htr2 | ].
  split; [ exact Hok2 | ].
  pose proof (limiter_events_no_post _ Hok1) as Hn1.
  pose proof (token_events_no_post _ Hok2) as Hn2.
  destruct token as [t | e]; cbn [snd trace].
  - rewrite Htr2, Htr1, <- !app_assoc. split; [ reflexivity | ].
    rewrite !entity_posts_app, Hn1, Hn2. cbn. lia.
  - rewrite Htr2, Htr1, <- !app_assoc, app_nil_r. split; [ reflexivity | ].
    rewrite !entity_posts_app, Hn1, Hn2. lia.
Qed.

End Dispatch.

(** C2. Once the entity query has been posted (the limiter let the call
    through and a token was there), [_make_request] raises
    [IGDBRateLimitError] for a response with status 429; for a response
    with any other status outside 2xx it raises the transport library's
    status error, which carries the status and the status line; for a
    transport failure it raises the transport library's request error
    with its message. The two latter are the generic upstream errors
    (instances of [httpx.HTTPError]); the rate-limit error is not one. *)
Theorem entity_response_classification
    (env : Env) (st st1 st2 : State) (token : option string)
    (endpoint query : string) :
  igdb_client._rate_limit env st = (Ok tt, st1) ->
  igdb_client._get_access_token env st1 = (Ok token, st2) ->
  (forall r : httpx.Response JSON,
      entity_endpoint env (step st2) = httpx.Responded r ->
      httpx.status_code r = 429%Z ->
      fst (igdb_client._make_request endpoint query env st)
        = Raise (IGDBRateLimitError "Rate limit exceeded")) /\
  (forall r : httpx.Response JSON,
      entity_endpoint env (step st2) = httpx.Responded r ->
      httpx.status_code r <> 429%Z ->
      httpx.is_success r = false ->
      fst (igdb_client._make_request endpoint query env st)
        = Raise (HTTPStatusError (httpx.status_message r) (httpx.status_code r))) /\
  (forall m : string,
      entity_endpoint env (step st2) = httpx.Failed m ->
      fst (igdb_client._make_request endpoint query env st) = Raise (RequestError m)) /\
  (forall m : string, is_HTTPError (IGDBRateLimitError m) = false) /\
  (forall (m : string) (status : Z), is_HTTPError (HTTPStatusError m status) = true) /\
  (forall m : string, is_HTTPError (RequestError m) = true).
Proof.
  intros Hlimit Htoken.
  rewrite (@make_request_run env st st1 st2 (Ok token) endpoint query Hlimit Htoken).
  cbn [fst].
  split; [ | split; [ | split; [ | repeat split ] ] ].
  - intros r -> H429. cbn [classify]. now rewrite H429.
  - intros r -> Hnot Hstatus. cbn [classify].
    apply Z.eqb_neq in Hnot. now rewrite Hnot, Hstatus.
  - intros m ->. reflexivity.
Qed.

Lemma entity_response_classification_witness :
  fst (igdb_client._make_request "games" "fields name;"
         (Sample.granting 3600 (Sample.entity_response 429 "Too Many Requests" None))
         Sample.fresh)
    = Raise (IGDBRateLimitError "Rate limit exceeded").
Proof.
  set (env := Sample.granting 3600 (Sample.entity_response 429 "Too Many Requests" None)).
  set (st1 := snd (igdb_client._rate_limit env Sample.fresh)).
  set (st2 := snd (igdb_client._get_access_token env st1)).
  assert (Hlimit : igdb_client._rate_limit env Sample.fresh = (Ok tt, st1))
    by (vm_compute; reflexivity).
  assert (Htoken : igdb_client._get_access_token env st1 = (Ok (Some "token-1"%string), st2))
    by (vm_compute; reflexivity).
  assert (Hanswer : entity_endpoint env (step st2)
                    = Sample.entity_response 429 "Too Many Requests" None)
    by reflexivity.
  exact (proj1 (@entity_response_classification env Sample.fresh st1 st2
                  (Some "token-1"%string) "games"%string "fields name;"%string
                  Hlimit Htoken)
               _ Hanswer eq_refl).
Defined.

Lemma log_and_reraise_run {A : Type} (body : M A) (env : Env) (st : State) :
  igdb_client.log_and_reraise body env st = body env st.
Proof.
  unfold igdb_client.log_and_reraise, try_except.
  destruct (body env st) as [[a | e] st']; reflexivity.
Qed.

Lemma snd_logged (outcome : Result JSON * State) : snd (logged outcome) = snd outcome.
Proof.
  destruct outcome as [[response_data | e] st]; [ | reflexivity ].
  cbn [logged]. now destruct (len response_data).
Qed.

(** The request of [get_upcoming_games] with its log line. *)
Lemma logged_request_run (env : Env) (st : State) (endpoint query : string) :
  igdb_client.log_and_reraise
    (response_data <- igdb_client._make_request endpoint query ;;
     igdb_client.log_fetched response_data ;;;
     ret response_data) env st
  = logged (igdb_client._make_request endpoint query env st).
Proof.
  rewrite log_and_reraise_run. unfold bind at 1.
  destruct (igdb_client._make_request endpoint query env st) as [[response_data | e] st'];
    [ | reflexivity ].
  unfold bind, igdb_client.log_fetched. cbn [logged].
  now destruct (len response_data).
Qed.

(** [get_upcoming_games] in one equation: a reading of the clock and
    its timestamp, a second reading, the end of the window and its
    timestamp, then the request. *)
Lemma get_upcoming_games_run (env : Env) (st : State) (days_ahead limit : Z)
    (platform_ids : option (list Z)) :
  let t1 := next_reading env st in
  let t2 := t1 + seconds (latency env (S (step st))) in
  let now1 := localtime env t1 in
  let now2 := localtime env t2 in
  let opened := mkState (self st) t1 (S (step st)) (trace st ++ [EvNow (wall now1)]) in
  let built :=
    mkState (self st) t2 (S (S (step st)))
            (trace st ++ [EvNow (wall now1); EvNow (wall now2)]) in
  let end_date := wall now2 + inject_Z (days_ahead * 86400) in
  igdb_client.get_upcoming_games days_ahead limit platform_ids env st =
    match mktime env now1 with
    | Raise e => (Raise e, opened)
    | Ok start_time =>
        if ((-999999999 <=? days_ahead) && (days_ahead <=? 999999999))%Z
        then
          if Qle_bool (inject_Z (-62135596800)) end_date
             && Py.Qltb end_date (inject_Z 253402300800)
          then
            match mktime env (mkNaive end_date false) with
            | Raise e => (Raise e, built)
            | Ok end_time =>
                logged
                  (igdb_client._make_request "games"
                     (igdb_client.upcoming_query (Py.int_of start_time)
                        (Py.int_of end_time) limit platform_ids)
                     env built)
            end
          else (Raise (OverflowError "date value out of range"), built)
        else (Raise (OverflowError "days out of range"), built)
    end.
Proof.
  intros t1 t2 now1 now2 opened built end_date.
  subst t1 t2 now1 now2 opened built end_date.
  unfold igdb_client.get_upcoming_games.
  unfold bind at 1. rewrite datetime_now_run. unfold next_now.
  unfold bind at 1, datetime.timestamp.
  destruct (mktime env (localtime env (next_reading env st))) as [start_time | e];
    [ | reflexivity ].
  unfold bind at 1. rewrite datetime_now_run.
  unfold next_now, next_reading; cbn [self clock step trace].
  rewrite <- app_assoc. cbn [app].
  unfold bind at 1, datetime.timedelta_days.
  destruct ((-999999999 <=? days_ahead) && (days_ahead <=? 999999999))%Z;
    [ | reflexivity ].
  unfold ret at 1. unfold bind at 1, datetime.add.
  match goal with
  | |- context [if ?b then ret _ else _] => destruct b
  end; [ | reflexivity ].
  unfold ret at 1. unfold bind at 1.
  match goal with
  | |- context [mktime env ?d] => destruct (mktime env d) as [end_time | e]
  end; [ | reflexivity ].
  apply logged_request_run.
Qed.


Section Queries.

Lemma append_empty (s : string) : (s ++ EmptyString)%string = s.
Proof.
  induction s as [| c s IH]; cbn; [ reflexivity | now rewrite IH ].
Qed.

Lemma append_append (s1 s2 s3 : string) :
  ((s1 ++ s2) ++ s3)%string = (s1 ++ s2 ++ s3)%string.
Proof.
  induction s1 as [| c s1 IH]; cbn; [ reflexivity | now rewrite IH ].
Qed.

(** Inside a literal, text without a double quote is taken as it is. *)
Lemma statements_literal (term rest current : string) :
  quote_free term = true ->
  statements_from true current (term ++ rest)
    = statements_from true (current ++ term) rest.
Proof.
  revert current. induction term as [| c term IH]; intros current Hfree.
  - cbn. now rewrite append_empty.
  - cbn [quote_free] in Hfree. apply andb_true_iff in Hfree as [Hc Hfree].
    apply negb_true_iff in Hc.
    cbn [String.append statements_from]. rewrite Hc, andb_false_r.
    rewrite IH by assumption.
    now rewrite append_append.
Qed.

(** Outside a literal, text with neither a double quote nor a semicolon
    is taken as it is. *)
Lemma statements_plain (text rest current : string) :
  plain text = true ->
  statements_from false current (text ++ rest)
    = statements_from false (current ++ text) rest.
Proof.
  revert current. induction text as [| c text IH]; intros current Hplain.
  - cbn. now rewrite append_empty.
  - cbn [plain] in Hplain. apply andb_true_iff in Hplain as [Hc Hplain].
    apply andb_true_iff in Hc as [Hq Hs].
    apply negb_true_iff in Hq. apply negb_true_iff in Hs.
    cbn [String.append statements_from]. rewrite Hq, Hs. cbn [andb].
    rewrite IH by assumption.
    now rewrite append_append.
Qed.

Lemma plain_digits (d : Decimal.uint) : plain (NilEmpty.string_of_uint d) = true.
Proof.
  induction d; cbn; auto.
Qed.

(** The decimal text of an integer is plain. *)
Lemma plain_str_int (n : Z) : plain (Py.str_int n) = true.
Proof.
  unfold Py.str_int, NilZero.string_of_int, NilZero.string_of_uint.
  destruct (Z.to_int n) as [d | d]; destruct d; cbn; auto using plain_digits.
Qed.

End Queries.

(** C9. [search_games] puts the search term between two double quotes as
    it is, whatever characters it has, and that text is the query it
    posts: the call goes through the limiter and the token manager and
    then, holding a token, posts it to the [games] endpoint unchanged.
    Read back with the upstream grammar, a term without a double quote
    (semicolons included) stays inside the literal of the [search]
    statement, and the query has its three statements; a term with a
    double quote ends the literal early, and what follows the quote is
    read as statements of its own: such a query is posted as it is. *)
Theorem search_term_is_interpolated_unescaped :
  (forall (search_term : string) (limit : Z),
      igdb_client.search_query search_term limit
        = ("search " ++ Py.dquote ++ search_term ++ Py.dquote
           ++ "; fields name,summary,rating,first_release_date,cover.url,platforms.name; limit "
           ++ Py.str_int limit ++ ";")%string) /\
  (forall (env : Env) (st : State) (search_term : string) (limit : Z),
      dispatched env st "games" (igdb_client.search_query search_term limit)
        (snd (igdb_client.search_games search_term limit env st))) /\
  (forall (search_term : string) (limit : Z),
      quote_free search_term = true ->
      statements (igdb_client.search_query search_term limit)
        = [("search " ++ Py.dquote ++ search_term ++ Py.dquote)%string;
           " fields name,summary,rating,first_release_date,cover.url,platforms.name"%string;
           (" limit " ++ Py.str_int limit)%string]) /\
  statements
    (igdb_client.search_query
       ("zelda" ++ Py.dquote ++ "; limit 500; search " ++ Py.dquote ++ "x") 20)
    = [("search " ++ Py.dquote ++ "zelda" ++ Py.dquote)%string;
       " limit 500"%string;
       (" search " ++ Py.dquote ++ "x" ++ Py.dquote)%string;
       " fields name,summary,rating,first_release_date,cover.url,platforms.name"%string;
       " limit 20"%string] /\
  last
    (trace (snd (igdb_client.search_games
                   ("zelda" ++ Py.dquote ++ "; limit 500; search " ++ Py.dquote ++ "x") 20
                   (Sample.granting 3600 (Sample.entity_response 200 "OK" (Some (JList []))))
                   Sample.fresh)))
    (EvSleep 0)
    = EvPost "https://api.igdb.com/v4/games"
        (igdb_client.search_query
           ("zelda" ++ Py.dquote ++ "; limit 500; search " ++ Py.dquote ++ "x") 20)
        (igdb_client.request_headers Sample.client (Some "token-1"%string)).
Proof.
  split; [ reflexivity | ].
  split.
  { intros env st search_term limit. unfold igdb_client.search_games.
    rewrite log_and_reraise_run. apply make_request_dispatched. }
  split; [ | split; vm_compute; reflexivity ].
  intros search_term limit Hfree.
  unfold statements, igdb_client.search_query.
  cbn [String.append statements_from Py.dquote Ascii.eqb Bool.eqb andb negb].
  rewrite (statements_literal search_term _ _ Hfree).
  cbn [String.append statements_from Py.dquote Ascii.eqb Bool.eqb andb negb].
  rewrite (statements_plain (Py.str_int limit) ";" _ (plain_str_int limit)).
  cbn. reflexivity.
Qed.

Lemma search_term_is_interpolated_unescaped_witness :
  statements (igdb_client.search_query "zelda; the dlc" 20)
    = [("search " ++ Py.dquote ++ "zelda; the dlc" ++ Py.dquote)%string;
       " fields name,summary,rating,first_release_date,cover.url,platforms.name"%string;
       (" limit " ++ Py.str_int 20)%string].
Proof.
  exact (proj1 (proj2 (proj2 search_term_is_interpolated_unescaped))
               "zelda; the dlc"%string 20%Z eq_refl).
Defined.

(** C6 fails on the code. [get_upcoming_games] appends the platform
    restriction to [query_parts] as an element of its own, and the parts
    are joined with semicolons: the restriction is not part of the
    [where] statement, which holds the date window alone, but a statement
    of its own that starts with [&]. For [days_ahead = 90], [limit = 50],
    [platform_ids = [6, 48]] at 2023-11-14 22:13:20 UTC the query that is
    posted reads as five statements. Without platform ids the query is
    the four statements [fields], [where] (the window), [sort], [limit]. *)
Theorem platform_filter_is_a_separate_statement :
  (forall (start_timestamp end_timestamp limit id : Z) (ids : list Z),
      igdb_client.upcoming_query_parts start_timestamp end_timestamp limit (Some (id :: ids))
        = [igdb_client.upcoming_fields;
           ("where release_dates.date >= " ++ Py.str_int start_timestamp
            ++ " & release_dates.date < " ++ Py.str_int end_timestamp)%string;
           ("& release_dates.platform = ("
            ++ Py.join " | " (map Py.str_int (id :: ids)) ++ ")")%string;
           "sort release_dates.date asc"%string;
           ("limit " ++ Py.str_int limit)%string]) /\
  statements (igdb_client.upcoming_query 1700000000 1707776000 50 (Some [6; 48]%Z))
    = [igdb_client.upcoming_fields;
       " where release_dates.date >= 1700000000 & release_dates.date < 1707776000"%string;
       " & release_dates.platform = (6 | 48)"%string;
       " sort release_dates.date asc"%string;
       " limit 50"%string] /\
  statements (igdb_client.upcoming_query 1700000000 1707776000 50 None)
    = [igdb_client.upcoming_fields;
       " where release_dates.date >= 1700000000 & release_dates.date < 1707776000"%string;
       " sort release_dates.date asc"%string;
       " limit 50"%string] /\
  In (EvPost "https://api.igdb.com/v4/games"
        (igdb_client.upcoming_query 1700000000 1707776000 50 (Some [6; 48]%Z))
        (igdb_client.request_headers Sample.client (Some "token-1"%string)))
     (trace (snd (igdb_client.get_upcoming_games 90 50 (Some [6; 48]%Z)
                    (Sample.granting 3600 (Sample.entity_response 200 "OK" (Some (JList []))))
                    Sample.fresh))).
Proof.
  split; [ reflexivity | ].
  split; [ vm_compute; reflexivity | ].
  split; [ vm_compute; reflexivity | ].
  vm_compute. do 6 right. left. reflexivity.
Qed.

Section Batches.

Context {A : Type} (Entity : JSON -> Result A).

Lemma convert_parsed (batch : list JSON) :
  forall entities : list A,
    server.convert Entity entities batch = entities ++ parsed Entity batch.
Proof.
  induction batch as [| entity_data batch IH]; intros entities; cbn.
  - now rewrite app_nil_r.
  - destruct (Entity entity_data) as [entity | e]; rewrite IH;
      [ now rewrite <- app_assoc | reflexivity ].
Qed.

Lemma parsed_results (batch : list JSON) :
  map Ok (parsed Entity batch) = filter is_ok (map Entity batch).
Proof.
  induction batch as [| entity_data batch IH]; cbn; [ reflexivity | ].
  destruct (Entity entity_data) as [entity | e] eqn:Hentity; cbn;
    now rewrite IH.
Qed.

Lemma parsed_count (batch : list JSON) :
  (length (parsed Entity batch)
   + length (filter (fun entity_data => negb (parses Entity entity_data)) batch)
   = length batch)%nat.
Proof.
  unfold parses.
  induction batch as [| entity_data batch IH]; cbn; [ reflexivity | ].
  destruct (Entity entity_data) as [entity | e]; cbn; lia.
Qed.

End Batches.

(** C7. The conversion loop of the routes drops the elements of a batch
    that the entity constructor rejects and keeps the records of all the
    others, in their order; it raises nothing. So the number of records
    is the number of elements less the rejected ones: nine for a batch of
    ten with one rejected element. With such a batch from the upstream
    client, the search route answers with the records and their count,
    and the refresh of the upcoming games goes on with the records. *)
Theorem malformed_entities_are_skipped (P : Pydantic) :
  (forall (A : Type) (Entity : JSON -> Result A) (batch : list JSON),
      map Ok (server.convert Entity [] batch) = filter is_ok (map Entity batch)) /\
  (forall (A : Type) (Entity : JSON -> Result A) (batch : list JSON),
      length batch = 10%nat ->
      length (filter (fun entity_data => negb (parses Entity entity_data)) batch) = 1%nat ->
      length (server.convert Entity [] batch) = 9%nat) /\
  (forall (env : Env) (st st' : State) (q : string) (limit : Z) (batch : list JSON),
      igdb_client.search_games q limit env st = (Ok (JList batch), st') ->
      server.search_games q limit env st
        = (Ok (models.mkGameResponse
                 (server.convert server.Game [] batch)
                 (Some (Z.of_nat (length (server.convert server.Game [] batch))))
                 1 limit),
           st')) /\
  (forall (env : Env) (st st' : State) (days_ahead limit : Z)
          (platform_filter : option (list Z)) (batch : list JSON),
      igdb_client.get_upcoming_games days_ahead limit platform_filter env st
        = (Ok (JList batch), st') ->
      server.refresh_upcoming_games days_ahead limit platform_filter env st
        = (Ok (server.convert server.Game [] batch), st')).
Proof.
  split; [ | split; [ | split ] ].
  - intros A Entity batch. rewrite convert_parsed. cbn [app]. apply parsed_results.
  - intros A Entity batch Hten Hone. rewrite convert_parsed. cbn [app].
    pose proof (parsed_count Entity batch). lia.
  - intros env st st' q limit batch Hsearch.
    unfold server.search_games, try_except, bind at 1. now rewrite Hsearch.
  - intros env st st' days_ahead limit platform_filter batch Hupcoming.
    unfold server.refresh_upcoming_games, bind at 1. now rewrite Hupcoming.
Qed.

Lemma malformed_entities_are_skipped_witness :
  length Sample.batch = 10%nat /\
  length (filter (fun entity_data =>
                    negb (parses (@server.Game Sample.scalars) entity_data))
                 Sample.batch) = 1%nat /\
  length (server.convert (@server.Game Sample.scalars) [] Sample.batch) = 9%nat.
Proof.
  split; [ reflexivity | ]. split; [ reflexivity | ].
  exact (proj1 (proj2 (malformed_entities_are_skipped Sample.scalars))
               _ (@server.Game Sample.scalars) Sample.batch eq_refl eq_refl).
Defined.

(** * Further properties of the client core *)

From Stdlib Require Import Qround.

Unset Implicit Arguments.

Section Exchange.

Variable env : Env.

(** [_get_access_token] in one equation, once the guard has found no
    usable token. *)
Lemma exchange_run (st st1 : State) :
  igdb_client.cached_token env st = (Ok None, st1) ->
  igdb_client._get_access_token env st =
    match token_endpoint env (step st1) with
    | httpx.Failed m =>
        (Raise (IGDBAuthError ("Authentication failed: " ++ m)), posted env st1)
    | httpx.Responded r =>
        if httpx.is_success r then
          match httpx.json_body r with
          | None => (Raise JSONDecodeError, posted env st1)
          | Some token_data =>
              match td_access_token token_data with
              | None => (Raise (KeyError "access_token"), posted env st1)
              | Some tok =>
                  let seconds_left := (igdb_client.get_expires_in token_data - 300)%Z in
                  let expires_at := now_after_post env st1 + inject_Z seconds_left in
                  if ((-999999999 * 86400 <=? seconds_left)
                      && (seconds_left <? 1000000000 * 86400))%Z
                  then
                    if Qle_bool (inject_Z (-62135596800)) expires_at
                       && Py.Qltb expires_at (inject_Z 253402300800)
                    then
                      (Ok tok,
                       mkState (expiring (self st1) tok expires_at)
                               (reading_after_post env st1) (S (S (step st1)))
                               (trace (token_read env st1 tok)))
                    else (Raise (OverflowError "date value out of range"),
                          token_read env st1 tok)
                  else (Raise (OverflowError "days out of range"), token_read env st1 tok)
              end
          end
        else (Raise (IGDBAuthError ("Authentication failed: " ++ httpx.status_message r)),
              posted env st1)
    end.
Proof.
  intros Hmiss.
  unfold igdb_client._get_access_token, bind at 1. rewrite Hmiss.
  unfold bind at 1, get_self. unfold try_except, bind at 1, post_params.
  cbn [step elapse]. fold (posted env st1).
  destruct (token_endpoint env (step st1)) as [m | r]; [ reflexivity | ].
  unfold bind at 1, raise_for_status.
  destruct (httpx.is_success r); [ | reflexivity ].
  unfold ret at 1. unfold bind at 1, response_json.
  destruct (httpx.json_body r) as [token_data |]; [ | reflexivity ].
  unfold ret at 1. unfold bind at 1, igdb_client.subscript_access_token.
  destruct (td_access_token token_data) as [tok |]; [ | reflexivity ].
  unfold ret at 1.
  unfold bind at 1, igdb_client.set_access_token, bind at 1, get_self, set_self.
  cbn [self clock step trace posted].
  unfold bind at 1. rewrite datetime_now_run.
  unfold next_now, next_reading; cbn [self clock step trace].
  fold (reading_after_post env st1). fold (now_after_post env st1).
  fold (holding (self st1) tok).
  unfold bind at 1, datetime.timedelta_seconds.
  cbv zeta.
  destruct ((-999999999 * 86400 <=? igdb_client.get_expires_in token_data - 300)
            && (igdb_client.get_expires_in token_data - 300 <? 1000000000 * 86400))%Z;
    [ | reflexivity ].
  unfold ret at 1. unfold bind at 1, datetime.add.
  match goal with
  | |- context [if ?b then ret _ else _] => destruct b
  end; reflexivity.
Qed.

End Exchange.

Section Guard.

Variable env : Env.

(** When the guard finds the token no longer good, it has read the clock
    and nothing else. *)
Lemma cached_token_expired (st : State) (tok : string) (expires_at : Q) :
  access_token (self st) = Some tok ->
  tok <> EmptyString ->
  token_expires_at (self st) = Some expires_at ->
  expires_at <= next_now env st ->
  igdb_client.cached_token env st =
    (Ok None,
     mkState (self st) (next_reading env st) (S (step st))
             (trace st ++ [EvNow (next_now env st)])).
Proof.
  intros Htok Hne Hexp Hle.
  unfold igdb_client.cached_token, bind at 1, get_self. rewrite Htok, Hexp.
  destruct tok as [| c tok]; [ congruence | cbn [Py.truthy_str] ].
  unfold bind. rewrite datetime_now_run.
  apply Qltb_ge in Hle. unfold next_now in Hle. now rewrite Hle.
Qed.

(** Without a token, with an empty one or without an expiry, the guard
    does not even read the clock. *)
Lemma cached_token_absent (st : State) :
  access_token (self st) = None \/
  access_token (self st) = Some EmptyString \/
  token_expires_at (self st) = None ->
  igdb_client.cached_token env st = (Ok None, st).
Proof.
  unfold igdb_client.cached_token, bind at 1, get_self.
  intros [Hnone | [Hempty | Hexp]].
  - now rewrite Hnone.
  - now rewrite Hempty.
  - rewrite Hexp. destruct (access_token (self st)) as [tok |]; [ | reflexivity ].
    now destruct (Py.truthy_str tok).
Qed.

(** The guard misses exactly in these cases, and then the state it
    leaves has the client and the requests of the state it found. *)
Lemma cached_token_unusable (st : State) :
  access_token (self st) = None \/
  access_token (self st) = Some EmptyString \/
  token_expires_at (self st) = None \/
  (exists expires_at, token_expires_at (self st) = Some expires_at /\
                      expires_at <= next_now env st) ->
  exists st1,
    igdb_client.cached_token env st = (Ok None, st1) /\
    self st1 = self st /\
    token_posts (trace st1) = token_posts (trace st) /\
    entity_posts (trace st1) = entity_posts (trace st).
Proof.
  intros [Hnone | [Hempty | [Hexp | (expires_at & Hexp & Hle)]]].
  - exists st. rewrite cached_token_absent; auto.
  - exists st. rewrite cached_token_absent; auto.
  - exists st. rewrite cached_token_absent; auto.
  - destruct (access_token (self st)) as [tok |] eqn:Htok;
      [ | exists st; rewrite cached_token_absent; auto ].
    destruct tok as [| c tok];
      [ exists st; rewrite cached_token_absent; auto | ].
    eexists. split.
    + apply (cached_token_expired st (String c tok) expires_at);
        [ assumption | discriminate | assumption | assumption ].
    + cbn [self trace]. rewrite token_posts_app, entity_posts_app. cbn.
      repeat split; lia.
Qed.

End Guard.

(** X1. A token that is missing, empty, without expiry or no longer good
    when [datetime.now()] reads the clock is never served from the cache: the call
    posts the credentials (client id, client secret and the
    client-credentials grant type) to the token URL, exactly once and
    whatever comes of it, and posts nothing to the catalogue. *)
Theorem unusable_token_is_exchanged_once (env : Env) (st : State) :
  access_token (self st) = None \/
  access_token (self st) = Some EmptyString \/
  token_expires_at (self st) = None \/
  (exists expires_at, token_expires_at (self st) = Some expires_at /\
                      expires_at <= next_now env st) ->
  let st' := snd (igdb_client._get_access_token env st) in
  token_posts (trace st') = S (token_posts (trace st)) /\
  entity_posts (trace st') = entity_posts (trace st) /\
  In (EvTokenPost (token_url (self st))
        [("client_id", client_id (self st));
         ("client_secret", client_secret (self st));
         ("grant_type", "client_credentials")]
        [("Accept", "application/json")])%string
     (trace st').
Proof.
  intros Hunusable st'. subst st'.
  destruct (cached_token_unusable env st Hunusable) as (st1 & Hmiss & Hself & Htok & Hent).
  rewrite (exchange_run env st st1 Hmiss).
  assert (Hposted : token_posts (trace (posted env st1)) = S (token_posts (trace st))
                    /\ entity_posts (trace (posted env st1)) = entity_posts (trace st)
                    /\ In (EvTokenPost (token_url (self st))
                             [("client_id", client_id (self st));
                              ("client_secret", client_secret (self st));
                              ("grant_type", "client_credentials")]
                             [("Accept", "application/json")])%string
                          (trace (posted env st1))).
  { unfold posted; cbn [trace]. rewrite token_posts_app, entity_posts_app, Htok, Hent, Hself.
    cbn. repeat split; try lia. apply in_or_app. right. now left. }
  assert (Hread : forall tok,
             token_posts (trace (token_read env st1 tok)) = S (token_posts (trace st))
             /\ entity_posts (trace (token_read env st1 tok)) = entity_posts (trace st)
             /\ In (EvTokenPost (token_url (self st))
                      [("client_id", client_id (self st));
                       ("client_secret", client_secret (self st));
                       ("grant_type", "client_credentials")]
                      [("Accept", "application/json")])%string
                   (trace (token_read env st1 tok))).
  { intros tok. destruct Hposted as (Hp1 & Hp2 & Hp3).
    unfold token_read; cbn [trace]. rewrite token_posts_app, entity_posts_app, Hp1, Hp2.
    cbn. repeat split; try lia. apply in_or_app. now left. }
  destruct (token_endpoint env (step st1)) as [m | r]; [ exact Hposted | ].
  destruct (httpx.is_success r); [ | exact Hposted ].
  destruct (httpx.json_body r) as [token_data |]; [ | exact Hposted ].
  destruct (td_access_token token_data) as [tok |]; [ | exact Hposted ].
  cbv zeta.
  repeat match goal with
         | |- context [if ?b then _ else _] => destruct b
         end; cbn [snd trace]; apply Hread.
Qed.

Lemma unusable_token_is_exchanged_once_witness :
  (exists expires_at,
      token_expires_at (self Scenario.expired) = Some expires_at /\
      expires_at <= next_now (Sample.granting 3600 (httpx.Failed "unreachable"))
                             Scenario.expired) /\
  token_posts
    (trace (snd (igdb_client._get_access_token
                   (Sample.granting 3600 (httpx.Failed "unreachable")) Scenario.expired)))
    = S (token_posts (trace Scenario.expired)).
Proof.
  assert (Hexpired : exists expires_at,
             token_expires_at (self Scenario.expired) = Some expires_at /\
             expires_at <= next_now (Sample.granting 3600 (httpx.Failed "unreachable"))
                                    Scenario.expired).
  { exists 1700003600. split; [ reflexivity | unfold Qle; simpl; lia ]. }
  split; [ exact Hexpired | ].
  exact (proj1 (unusable_token_is_exchanged_once
                  (Sample.granting 3600 (httpx.Failed "unreachable")) Scenario.expired
                  (or_intror (or_intror (or_intror Hexpired))))).
Defined.

(** X2. A grant that does not say how long it lasts is taken to last
    3600 seconds: the expiry stored is 3300 seconds after the clock
    reading taken when the token is stored. *)
Theorem grant_without_lifetime_lasts_an_hour
    (env : Env) (st st1 : State) (r : httpx.Response TokenData)
    (token_data : TokenData) (tok : option string) :
  igdb_client.cached_token env st = (Ok None, st1) ->
  token_endpoint env (step st1) = httpx.Responded r ->
  httpx.is_success r = true ->
  httpx.json_body r = Some token_data ->
  td_access_token token_data = Some tok ->
  td_expires_in token_data = None ->
  inject_Z (-62135596800) <= now_after_post env st1 + inject_Z 3300 ->
  now_after_post env st1 + inject_Z 3300 < inject_Z 253402300800 ->
  exists st',
    igdb_client._get_access_token env st = (Ok tok, st') /\
    access_token (self st') = tok /\
    token_expires_at (self st') = Some (now_after_post env st1 + inject_Z 3300).
Proof.
  intros Hmiss Hresp Hstatus Hbody Htok Hnone Hlow Hhigh.
  rewrite (exchange_run env st st1 Hmiss), Hresp, Hstatus, Hbody, Htok.
  unfold igdb_client.get_expires_in. rewrite Hnone. cbv zeta.
  change (3600 - 300)%Z with 3300%Z.
  apply Qle_bool_iff in Hlow. apply Qltb_lt in Hhigh.
  cbn [Z.leb Z.ltb Z.compare Z.mul Z.opp andb]. rewrite Hlow, Hhigh.
  cbn [andb]. eexists. split; [ reflexivity | ]. split; reflexivity.
Qed.

Lemma grant_without_lifetime_lasts_an_hour_witness :
  exists st',
    igdb_client._get_access_token
      (Scenario.answering (Some (mkTokenData (Some (Some "token-2"%string)) None)))
      Sample.fresh
      = (Ok (Some "token-2"%string), st') /\
    access_token (self st') = Some "token-2"%string /\
    token_expires_at (self st')
      = Some (now_after_post
                (Scenario.answering (Some (mkTokenData (Some (Some "token-2"%string)) None)))
                Sample.fresh
              + inject_Z 3300).
Proof.
  apply (grant_without_lifetime_lasts_an_hour
           (Scenario.answering (Some (mkTokenData (Some (Some "token-2"%string)) None)))
           Sample.fresh Sample.fresh
           (httpx.mkResponse 200 "OK" "https://id.twitch.tv/oauth2/token"
              (Some (mkTokenData (Some (Some "token-2"%string)) None)))
           (mkTokenData (Some (Some "token-2"%string)) None) (Some "token-2"%string));
    try reflexivity.
  unfold Qle; simpl; lia.
Defined.

(** X3. A 2xx answer of the identity provider that is not JSON, or that
    is JSON without an [access_token], does not become an
    [IGDBAuthError]: the decoding error, or the [KeyError] of the missing
    key, leaves [_get_access_token] as it is, after the one request, and
    the client is as it was. *)
Theorem malformed_grant_is_not_an_auth_error
    (env : Env) (st st1 : State) (r : httpx.Response TokenData) :
  igdb_client.cached_token env st = (Ok None, st1) ->
  token_endpoint env (step st1) = httpx.Responded r ->
  httpx.is_success r = true ->
  (httpx.json_body r = None ->
   igdb_client._get_access_token env st = (Raise JSONDecodeError, posted env st1)) /\
  (forall token_data : TokenData,
      httpx.json_body r = Some token_data ->
      td_access_token token_data = None ->
      igdb_client._get_access_token env st
        = (Raise (KeyError "access_token"), posted env st1)) /\
  self (posted env st1) = self st /\
  token_posts (trace (posted env st1)) = S (token_posts (trace st)).
Proof.
  intros Hmiss Hresp Hstatus.
  rewrite (exchange_run env st st1 Hmiss), Hresp, Hstatus.
  destruct (cached_token_run env st) as (hit & st1' & Hrun & Hself & Htrace).
  rewrite Hmiss in Hrun. injection Hrun as <- <-.
  split; [ | split; [ | split ] ].
  - intros Hbody. now rewrite Hbody.
  - intros token_data Hbody Hkey. now rewrite Hbody, Hkey.
  - exact Hself.
  - unfold posted; cbn [trace]. rewrite token_posts_app.
    destruct Htrace as [-> | (now & ->)]; [ | rewrite token_posts_app ]; cbn; lia.
Qed.

Lemma malformed_grant_is_not_an_auth_error_witness :
  igdb_client._get_access_token
    (Scenario.answering (Some (mkTokenData None (Some 3600%Z)))) Sample.fresh
    = (Raise (KeyError "access_token"),
       posted (Scenario.answering (Some (mkTokenData None (Some 3600%Z)))) Sample.fresh).
Proof.
  exact (proj1 (proj2 (malformed_grant_is_not_an_auth_error
                         (Scenario.answering (Some (mkTokenData None (Some 3600%Z))))
                         Sample.fresh Sample.fresh
                         (httpx.mkResponse 200 "OK" "https://id.twitch.tv/oauth2/token"
                            (Some (mkTokenData None (Some 3600%Z))))
                         eq_refl eq_refl eq_refl))
               (mkTokenData None (Some 3600%Z)) eq_refl eq_refl).
Defined.

Section Frame.

Variable env : Env.

(** The guard either leaves the state alone or reads the clock once;
    what it answers with is the token of the client, with an expiry
    later than the reading. *)
Lemma cached_token_cases (st : State) :
  exists hit st1,
    igdb_client.cached_token env st = (Ok hit, st1) /\
    (st1 = st \/
     st1 = mkState (self st) (next_reading env st) (S (step st))
                   (trace st ++ [EvNow (next_now env st)])) /\
    (forall tok, hit = Some tok ->
       access_token (self st) = Some tok /\
       tok <> EmptyString /\
       exists expires_at,
         token_expires_at (self st) = Some expires_at /\
         next_now env st < expires_at).
Proof.
  unfold igdb_client.cached_token, bind at 1, get_self.
  destruct (access_token (self st)) as [tok |];
    [ | exists None, st; repeat split; auto; discriminate ].
  destruct (Py.truthy_str tok) eqn:Htruthy;
    [ | exists None, st; repeat split; auto; discriminate ].
  destruct (token_expires_at (self st)) as [expires_at |];
    [ | exists None, st; repeat split; auto; discriminate ].
  unfold bind. rewrite datetime_now_run.
  destruct (Py.Qltb (wall (localtime env (next_reading env st))) expires_at) eqn:Hlt.
  - eexists; eexists. split; [ reflexivity | ]. split; [ now right | ].
    intros tok' Heq. injection Heq as <-. split; [ reflexivity | ].
    split; [ intros ->; discriminate | ].
    exists expires_at. split; [ reflexivity | now apply Qltb_lt ].
  - eexists; eexists. split; [ reflexivity | ]. split; [ now right | discriminate ].
Qed.

Lemma next_reading_ge (st : State) : clock st <= next_reading env st.
Proof.
  unfold next_reading. pose proof (seconds_nonneg (latency env (step st))). lra.
Qed.

Lemma reading_after_post_ge (st : State) : clock st <= reading_after_post env st.
Proof.
  unfold reading_after_post.
  pose proof (seconds_nonneg (latency env (step st))).
  pose proof (seconds_nonneg (latency env (S (step st)))). lra.
Qed.

(** [_get_access_token] leaves the limiter and the addresses of the
    client alone, and the clock does not run backwards. *)
Lemma get_access_token_frame (st : State) :
  let st' := snd (igdb_client._get_access_token env st) in
  last_request_time (self st') = last_request_time (self st) /\
  request_interval (self st') = request_interval (self st) /\
  requests_per_second (self st') = requests_per_second (self st) /\
  base_url (self st') = base_url (self st) /\
  client_id (self st') = client_id (self st) /\
  clock st <= clock st'.
Proof.
  cbv zeta.
  destruct (cached_token_cases st) as (hit & st1 & Hrun & Hst1 & _).
  assert (Hself : self st1 = self st) by (destruct Hst1 as [-> | ->]; reflexivity).
  assert (Hclock : clock st <= clock st1).
  { destruct Hst1 as [-> | ->]; [ lra | apply next_reading_ge ]. }
  destruct hit as [tok |].
  - assert (Hhit : igdb_client._get_access_token env st = (Ok (Some tok), st1)).
    { unfold igdb_client._get_access_token, bind at 1. now rewrite Hrun. }
    rewrite Hhit. cbn [snd].
    rewrite Hself. repeat (split; [ reflexivity | ]). exact Hclock.
  - rewrite (exchange_run env st st1 Hrun).
    pose proof (next_reading_ge st1) as Hnext.
    pose proof (reading_after_post_ge st1) as Hafter.
    unfold next_reading in Hnext.
    destruct (token_endpoint env (step st1)) as [m | r];
      [ cbn [snd posted self clock]; rewrite Hself; repeat (split; [ reflexivity | ]); lra | ].
    destruct (httpx.is_success r);
      [ | cbn [snd posted self clock]; rewrite Hself; repeat (split; [ reflexivity | ]); lra ].
    destruct (httpx.json_body r) as [token_data |];
      [ | cbn [snd posted self clock]; rewrite Hself; repeat (split; [ reflexivity | ]); lra ].
    destruct (td_access_token token_data) as [tok |];
      [ | cbn [snd posted self clock]; rewrite Hself; repeat (split; [ reflexivity | ]); lra ].
    cbv zeta.
    repeat match goal with
           | |- context [if ?b then _ else _] => destruct b
           end;
      cbn [snd token_read holding expiring self clock last_request_time request_interval
             requests_per_second base_url client_id];
      rewrite Hself; repeat (split; [ reflexivity | ]); lra.
Qed.

End Frame.

(** X4. What [_get_access_token] returns is what the client holds as
    [access_token] afterwards, with an expiry beside it. From the cache
    it is a string that is not empty, and the client is as it was. From
    an exchange it is whatever the identity provider sent under
    [access_token] in a 2xx answer: when that is [null], the caller is
    handed [None], which the client has stored. *)
Theorem returned_token_is_the_stored_token
    (env : Env) (st st' : State) (token : option string) :
  igdb_client._get_access_token env st = (Ok token, st') ->
  access_token (self st') = token /\
  (exists expires_at : Q, token_expires_at (self st') = Some expires_at) /\
  ((exists tok : string,
       token = Some tok /\ tok <> EmptyString /\ self st' = self st) \/
   (exists (st1 : State) (r : httpx.Response TokenData) (token_data : TokenData),
       igdb_client.cached_token env st = (Ok None, st1) /\
       token_endpoint env (step st1) = httpx.Responded r /\
       httpx.is_success r = true /\
       httpx.json_body r = Some token_data /\
       td_access_token token_data = Some token)).
Proof.
  intros Hrun.
  destruct (cached_token_cases env st) as (hit & st1 & Hguard & Hst1 & Hhit).
  destruct hit as [tok |].
  - unfold igdb_client._get_access_token, bind at 1 in Hrun. rewrite Hguard in Hrun.
    cbn [ret] in Hrun. injection Hrun as <- <-.
    destruct (Hhit tok eq_refl) as (Htok & Hne & expires_at & Hexp & _).
    assert (Hself : self st1 = self st) by (destruct Hst1 as [-> | ->]; reflexivity).
    rewrite Hself. split; [ exact Htok | ].
    split; [ now exists expires_at | ].
    left. now exists tok.
  - rewrite (exchange_run env st st1 Hguard) in Hrun.
    destruct (token_endpoint env (step st1)) as [m | r] eqn:Hanswer; [ discriminate | ].
    destruct (httpx.is_success r) eqn:Hstatus; [ | discriminate ].
    destruct (httpx.json_body r) as [token_data |] eqn:Hbody; [ | discriminate ].
    destruct (td_access_token token_data) as [tok |] eqn:Hkey; [ | discriminate ].
    cbv zeta in Hrun.
    repeat match type of Hrun with
           | context [if ?b then _ else _] => destruct b
           end; try discriminate.
    injection Hrun as <- <-. cbn [self expiring access_token token_expires_at].
    split; [ reflexivity | ]. split; [ eexists; reflexivity | ].
    right. exists st1, r, token_data. auto.
Qed.

Lemma returned_token_is_the_stored_token_witness :
  fst (igdb_client._get_access_token
         (Scenario.answering (Some (mkTokenData (Some None) (Some 3600%Z)))) Sample.fresh)
    = Ok None /\
  access_token
    (self (snd (igdb_client._get_access_token
                  (Scenario.answering (Some (mkTokenData (Some None) (Some 3600%Z))))
                  Sample.fresh)))
    = None /\
  exists expires_at : Q,
    token_expires_at
      (self (snd (igdb_client._get_access_token
                    (Scenario.answering (Some (mkTokenData (Some None) (Some 3600%Z))))
                    Sample.fresh)))
      = Some expires_at.
Proof.
  set (env := Scenario.answering (Some (mkTokenData (Some None) (Some 3600%Z)))).
  set (st' := snd (igdb_client._get_access_token env Sample.fresh)).
  assert (Hrun : igdb_client._get_access_token env Sample.fresh = (Ok None, st'))
    by (vm_compute; reflexivity).
  split; [ now rewrite Hrun | ].
  pose proof (returned_token_is_the_stored_token env Sample.fresh st' None Hrun)
    as (Hstored & Hexpiry & _).
  split; [ exact Hstored | exact Hexpiry ].
Defined.

(** X5. Not every failure leaves the token state alone. When the grant
    is accepted but its [expires_in] is too large for a [timedelta], the
    call raises [OverflowError] after it has stored the new token: the
    client then holds the new token with the expiry it had before. *)
Theorem oversized_lifetime_stores_token_without_expiry
    (env : Env) (st st1 : State) (r : httpx.Response TokenData)
    (token_data : TokenData) (tok : option string) :
  igdb_client.cached_token env st = (Ok None, st1) ->
  token_endpoint env (step st1) = httpx.Responded r ->
  httpx.is_success r = true ->
  httpx.json_body r = Some token_data ->
  td_access_token token_data = Some tok ->
  (1000000000 * 86400 <= igdb_client.get_expires_in token_data - 300)%Z ->
  exists (m : string) (st' : State),
    igdb_client._get_access_token env st = (Raise (OverflowError m), st') /\
    access_token (self st') = tok /\
    token_expires_at (self st') = token_expires_at (self st).
Proof.
  intros Hmiss Hresp Hstatus Hbody Htok Hbig.
  rewrite (exchange_run env st st1 Hmiss), Hresp, Hstatus, Hbody, Htok. cbv zeta.
  assert (Hrange : (igdb_client.get_expires_in token_data - 300 <? 1000000000 * 86400)%Z
                   = false) by (apply Z.ltb_ge; exact Hbig).
  rewrite Hrange, andb_false_r.
  eexists. eexists. split; [ reflexivity | ].
  destruct (cached_token_cases env st) as (hit & st1' & Hguard & Hst1 & _).
  rewrite Hmiss in Hguard. injection Hguard as <- <-.
  cbn [token_read holding self access_token token_expires_at].
  split; [ reflexivity | ]. destruct Hst1 as [-> | ->]; reflexivity.
Qed.

Lemma oversized_lifetime_stores_token_without_expiry_witness :
  exists (m : string) (st' : State),
    igdb_client._get_access_token
      (Sample.granting 100000000000000 (httpx.Failed "unreachable")) Scenario.expired
      = (Raise (OverflowError m), st') /\
    access_token (self st') = Some "token-1"%string /\
    token_expires_at (self st') = token_expires_at (self Scenario.expired).
Proof.
  apply (oversized_lifetime_stores_token_without_expiry
           (Sample.granting 100000000000000 (httpx.Failed "unreachable"))
           Scenario.expired
           (mkState (self Scenario.expired)
              (next_reading (Sample.granting 100000000000000 (httpx.Failed "unreachable"))
                 Scenario.expired)
              1 [EvNow (next_now
                          (Sample.granting 100000000000000 (httpx.Failed "unreachable"))
                          Scenario.expired)])
           (httpx.mkResponse 200 "OK" "https://id.twitch.tv/oauth2/token"
              (Some (mkTokenData (Some (Some "token-1"%string)) (Some 100000000000000%Z))))
           (mkTokenData (Some (Some "token-1"%string)) (Some 100000000000000%Z))
           (Some "token-1"%string));
    try reflexivity.
  cbn. lia.
Defined.

Section Requests.

Variable env : Env.

Lemma success_is_not_429 {A : Type} (r : httpx.Response A) :
  httpx.is_success r = true -> (httpx.status_code r =? 429)%Z = false.
Proof.
  unfold httpx.is_success. intros Hok. apply andb_true_iff in Hok as [_ Hle].
  apply Z.leb_le in Hle. apply Z.eqb_neq. lia.
Qed.

(** What [_make_request] does to the limiter: its timestamp moves on by
    at least the interval and is not ahead of the clock; the interval
    stays. *)
Lemma make_request_limiter (st : State) (endpoint query : string) :
  let st' := snd (igdb_client._make_request endpoint query env st) in
  request_interval (self st') = request_interval (self st) /\
  last_request_time (self st) + request_interval (self st)
    <= last_request_time (self st') /\
  clock_ahead st'.
Proof.
  cbv zeta. unfold clock_ahead.
  destruct (rate_limit_run env st) as (st1 & Hlimit & _ & Hlast & Hint & _ & _ & Hle).
  destruct (igdb_client._get_access_token env st1) as [token st2] eqn:Htoken.
  pose proof (get_access_token_frame env st1) as Hframe. cbv zeta in Hframe.
  rewrite Htoken in Hframe. cbn [snd] in Hframe.
  destruct Hframe as (Hl & Hi & _ & _ & _ & Hclock).
  rewrite (@make_request_run env st st1 st2 token endpoint query Hlimit Htoken).
  destruct token as [t | e]; cbn [snd self clock]; rewrite Hl, Hi, Hlast, Hint.
  - pose proof (seconds_nonneg (latency env (step st2))).
    split; [ reflexivity | ]. split; lra.
  - split; [ reflexivity | ]. split; lra.
Qed.

End Requests.

(** X6. When no token can be had, the operation fails with the very
    exception of the token manager and sends nothing to the catalogue;
    the call has gone through the rate limiter all the same, whose
    timestamp has moved on by the interval or more. *)
Theorem token_failure_costs_a_slot_and_posts_nothing
    (env : Env) (st st1 st2 : State) (e : exn) :
  igdb_client._rate_limit env st = (Ok tt, st1) ->
  igdb_client._get_access_token env st1 = (Raise e, st2) ->
  (forall endpoint query : string,
      igdb_client._make_request endpoint query env st = (Raise e, st2)) /\
  igdb_client.get_platforms env st = (Raise e, st2) /\
  (forall (search_term : string) (limit : Z),
      igdb_client.search_games search_term limit env st = (Raise e, st2)) /\
  entity_posts (trace st2) = entity_posts (trace st) /\
  last_request_time (self st) + request_interval (self st)
    <= last_request_time (self st2).
Proof.
  intros Hlimit Htoken.
  assert (Hrequest : forall endpoint query : string,
             igdb_client._make_request endpoint query env st = (Raise e, st2)).
  { intros endpoint query.
    now rewrite (@make_request_run env st st1 st2 (Raise e) endpoint query Hlimit Htoken). }
  split; [ exact Hrequest | ].
  split; [ unfold igdb_client.get_platforms; rewrite log_and_reraise_run; apply Hrequest | ].
  split; [ intros search_term limit; unfold igdb_client.search_games;
           rewrite log_and_reraise_run; apply Hrequest | ].
  split.
  - destruct (@make_request_dispatched env st "x" "q")
      as (limiter & token_events & st1' & st2' & token & Hl & _ & _ & Ht & _ & _ & _ & Hposts).
    rewrite Hlimit in Hl. injection Hl as <-.
    rewrite Htoken in Ht. injection Ht as <- <-.
    rewrite (Hrequest "x" "q")%string in Hposts. cbn [snd] in Hposts. lia.
  - pose proof (make_request_limiter env st "x" "q") as Hlim. cbv zeta in Hlim.
    rewrite (Hrequest "x" "q")%string in Hlim. cbn [snd] in Hlim. apply Hlim.
Qed.

Lemma token_failure_costs_a_slot_and_posts_nothing_witness :
  fst (igdb_client.get_platforms (Sample.refusing (httpx.Failed "unreachable")) Sample.fresh)
    = Raise (IGDBAuthError "Authentication failed: unreachable") /\
  entity_posts
    (trace (snd (igdb_client.get_platforms
                   (Sample.refusing (httpx.Failed "unreachable")) Sample.fresh)))
    = entity_posts (trace Sample.fresh).
Proof.
  set (env := Sample.refusing (httpx.Failed "unreachable")).
  set (st1 := snd (igdb_client._rate_limit env Sample.fresh)).
  set (st2 := snd (igdb_client._get_access_token env st1)).
  assert (Hlimit : igdb_client._rate_limit env Sample.fresh = (Ok tt, st1))
    by (vm_compute; reflexivity).
  assert (Htoken : igdb_client._get_access_token env st1
                   = (Raise (IGDBAuthError "Authentication failed: unreachable"), st2))
    by (vm_compute; reflexivity).
  pose proof (token_failure_costs_a_slot_and_posts_nothing env Sample.fresh st1 st2
                (IGDBAuthError "Authentication failed: unreachable") Hlimit Htoken)
    as (_ & Hplatforms & _ & Hposts & _).
  rewrite Hplatforms. split; [ reflexivity | exact Hposts ].
Defined.

(** X7. When the catalogue answers a query with a 2xx status, the
    operation returns the decoded body as it is, whatever JSON value it
    is; when that body is not JSON, the decoding error is raised. *)
Theorem successful_query_returns_the_body
    (env : Env) (st st1 st2 : State) (token : option string)
    (r : httpx.Response JSON) :
  igdb_client._rate_limit env st = (Ok tt, st1) ->
  igdb_client._get_access_token env st1 = (Ok token, st2) ->
  entity_endpoint env (step st2) = httpx.Responded r ->
  httpx.is_success r = true ->
  let outcome :=
    match httpx.json_body r with
    | Some body => Ok body
    | None => Raise JSONDecodeError
    end in
  (forall endpoint query : string,
      fst (igdb_client._make_request endpoint query env st) = outcome) /\
  fst (igdb_client.get_platforms env st) = outcome /\
  (forall (search_term : string) (limit : Z),
      fst (igdb_client.search_games search_term limit env st) = outcome).
Proof.
  intros Hlimit Htoken Hanswer Hstatus outcome.
  assert (Hrequest : forall endpoint query : string,
             fst (igdb_client._make_request endpoint query env st) = outcome).
  { intros endpoint query.
    rewrite (@make_request_run env st st1 st2 (Ok token) endpoint query Hlimit Htoken).
    cbn [fst]. rewrite Hanswer. cbn [classify].
    now rewrite (success_is_not_429 r Hstatus), Hstatus. }
  split; [ exact Hrequest | ].
  split; [ unfold igdb_client.get_platforms; rewrite log_and_reraise_run; apply Hrequest | ].
  intros search_term limit. unfold igdb_client.search_games.
  rewrite log_and_reraise_run. apply Hrequest.
Qed.

Lemma successful_query_returns_the_body_witness :
  fst (igdb_client.get_platforms
         (Sample.granting 3600 (Sample.entity_response 200 "OK" (Some (JObj []))))
         Sample.fresh)
    = Ok (JObj []).
Proof.
  set (env := Sample.granting 3600 (Sample.entity_response 200 "OK" (Some (JObj [])))).
  set (st1 := snd (igdb_client._rate_limit env Sample.fresh)).
  set (st2 := snd (igdb_client._get_access_token env st1)).
  assert (Hlimit : igdb_client._rate_limit env Sample.fresh = (Ok tt, st1))
    by (vm_compute; reflexivity).
  assert (Htoken : igdb_client._get_access_token env st1 = (Ok (Some "token-1"%string), st2))
    by (vm_compute; reflexivity).
  exact (proj1 (proj2 (successful_query_returns_the_body env Sample.fresh st1 st2
                         (Some "token-1"%string)
                         (httpx.mkResponse 200 "OK" "https://api.igdb.com/v4/games"
                            (Some (JObj [])))
                         Hlimit Htoken eq_refl eq_refl))).
Defined.

Section Invariant.

Variable env : Env.

(** A call for upcoming games either raises while it forms its window,
    having read the clock only, or goes on to its request. *)
Lemma upcoming_games_cases (st : State) (days_ahead limit : Z)
    (platform_ids : option (list Z)) :
  (exists (e : exn) (readings : list Q) (st' : State),
      igdb_client.get_upcoming_games days_ahead limit platform_ids env st = (Raise e, st') /\
      self st' = self st /\
      trace st' = trace st ++ map EvNow readings /\
      clock st <= clock st') \/
  (exists (query : string) (built : State),
      igdb_client.get_upcoming_games days_ahead limit platform_ids env st
        = logged (igdb_client._make_request "games" query env built) /\
      self built = self st /\
      clock st <= clock built).
Proof.
  rewrite get_upcoming_games_run.
  pose proof (next_reading_ge env st) as Hnext.
  pose proof (seconds_nonneg (latency env (S (step st)))) as Hlat.
  assert (Hfail1 : forall e : exn,
             exists (e' : exn) (readings : list Q) (st' : State),
               (Raise e,
                mkState (self st) (next_reading env st) (S (step st))
                        (trace st ++ [EvNow (wall (localtime env (next_reading env st)))]))
                 = (@Raise JSON e', st') /\
               self st' = self st /\
               trace st' = trace st ++ map EvNow readings /\
               clock st <= clock st').
  { intros e. exists e, [wall (localtime env (next_reading env st))]. eexists.
    split; [ reflexivity | ]. cbn [self trace clock map]. auto. }
  assert (Hfail2 : forall e : exn,
             exists (e' : exn) (readings : list Q) (st' : State),
               (Raise e,
                mkState (self st)
                        (next_reading env st + seconds (latency env (S (step st))))
                        (S (S (step st)))
                        (trace st
                           ++ [EvNow (wall (localtime env (next_reading env st)));
                               EvNow (wall (localtime env
                                              (next_reading env st
                                               + seconds (latency env (S (step st))))))]))
                 = (@Raise JSON e', st') /\
               self st' = self st /\
               trace st' = trace st ++ map EvNow readings /\
               clock st <= clock st').
  { intros e.
    exists e, [wall (localtime env (next_reading env st));
               wall (localtime env (next_reading env st
                                    + seconds (latency env (S (step st)))))].
    eexists. split; [ reflexivity | ]. cbn [self trace clock map].
    repeat split. lra. }
  destruct (mktime env (localtime env (next_reading env st))) as [start_time | e];
    [ | left; apply Hfail1 ].
  destruct ((-999999999 <=? days_ahead) && (days_ahead <=? 999999999))%Z;
    [ | left; apply Hfail2 ].
  match goal with
  | |- context [if ?b then _ else _] => destruct b
  end; [ | left; apply Hfail2 ].
  match goal with
  | |- context [mktime env ?d] => destruct (mktime env d) as [end_time | e]
  end; [ | left; apply Hfail2 ].
  right. eexists; eexists. split; [ reflexivity | ].
  cbn [self clock]. split; [ reflexivity | lra ].
Qed.

Lemma perform_limiter (call : Call) (st : State) :
  let st' := snd (perform call env st) in
  request_interval (self st') = request_interval (self st) /\
  (failed_on_window env st call \/
   last_request_time (self st) + request_interval (self st)
     <= last_request_time (self st')) /\
  (clock_ahead st -> clock_ahead st').
Proof.
  destruct call as [days_ahead limit platform_ids | search_term limit |]; cbv zeta.
  - destruct (upcoming_games_cases st days_ahead limit platform_ids)
      as [(e & readings & st' & Hrun & Hself & Htrace & Hclock)
         | (query & built & Hrun & Hself & Hclock)].
    + cbn [perform]. rewrite Hrun. cbn [snd]. rewrite Hself.
      split; [ reflexivity | ]. split.
      * left. exists days_ahead, limit, platform_ids, e, readings.
        cbn [perform]. rewrite Hrun. cbn [fst snd]. auto.
      * unfold clock_ahead. rewrite Hself. intros Hahead. lra.
    + cbn [perform]. rewrite Hrun, snd_logged.
      pose proof (make_request_limiter env built "games" query) as Hlim.
      cbv zeta in Hlim. rewrite Hself in Hlim. destruct Hlim as (Hi & Hl & Hc).
      split; [ exact Hi | ]. split; [ now right | auto ].
  - cbn [perform]. unfold igdb_client.search_games. rewrite log_and_reraise_run.
    destruct (make_request_limiter env st "games"
                (igdb_client.search_query search_term limit)) as (Hi & Hl & Hc).
    split; [ exact Hi | ]. split; [ now right | auto ].
  - cbn [perform]. unfold igdb_client.get_platforms. rewrite log_and_reraise_run.
    destruct (make_request_limiter env st "platforms" igdb_client.platforms_query)
      as (Hi & Hl & Hc).
    split; [ exact Hi | ]. split; [ now right | auto ].
Qed.

End Invariant.

(** X8. The timestamp of the limiter is never ahead of the clock: the
    rate limiter, the token manager and each of the three operations
    keep it so, whether they return or raise. *)
Theorem limiter_timestamp_never_ahead_of_clock (env : Env) (st : State) :
  clock_ahead st ->
  clock_ahead (snd (igdb_client._rate_limit env st)) /\
  clock_ahead (snd (igdb_client._get_access_token env st)) /\
  (forall call : Call, clock_ahead (snd (perform call env st))).
Proof.
  intros Hahead. split; [ | split ].
  - destruct (rate_limit_run env st) as (st' & Hrun & _ & Hlast & _).
    rewrite Hrun. cbn [snd]. unfold clock_ahead. rewrite Hlast. lra.
  - pose proof (get_access_token_frame env st) as Hframe. cbv zeta in Hframe.
    destruct Hframe as (Hl & _ & _ & _ & _ & Hclock).
    unfold clock_ahead in *. rewrite Hl. lra.
  - intros call. now apply (perform_limiter env call st).
Qed.

Lemma limiter_timestamp_never_ahead_of_clock_witness :
  clock_ahead Sample.fresh /\
  clock_ahead (snd (perform Platforms (Sample.refusing (httpx.Failed "unreachable"))
                      Sample.fresh)).
Proof.
  assert (Hfresh : clock_ahead Sample.fresh) by (unfold clock_ahead, Qle; simpl; lia).
  split; [ exact Hfresh | ].
  exact (proj2 (proj2 (limiter_timestamp_never_ahead_of_clock
                         (Sample.refusing (httpx.Failed "unreachable")) Sample.fresh Hfresh))
               Platforms).
Defined.

(** X9. With a timestamp that is not ahead of the clock, a call through
    the rate limiter either does not sleep at all or sleeps once, for a
    time that is positive and no longer than the interval. *)
Theorem limiter_sleeps_at_most_one_interval (env : Env) (st : State) :
  clock_ahead st ->
  exists st',
    igdb_client._rate_limit env st = (Ok tt, st') /\
    (trace st' = trace st ++ [EvTime (next_reading env st); EvTime (clock st')] \/
     exists d : Q,
       trace st' = trace st ++ [EvTime (next_reading env st); EvSleep d; EvTime (clock st')] /\
       0 < d /\ d <= request_interval (self st)).
Proof.
  intros Hahead. unfold clock_ahead in Hahead.
  destruct (rate_limit_run env st) as (st' & Hrun & Htrace & _).
  exists st'. split; [ exact Hrun | ].
  destruct (rate_limit_suspends env st) eqn:Hsuspends.
  - right. exists (request_interval (self st) - rate_limit_elapsed env st).
    split; [ exact Htrace | ].
    apply Qltb_lt in Hsuspends. unfold rate_limit_elapsed in *.
    pose proof (next_reading_ge env st). split; lra.
  - left. exact Htrace.
Qed.

Lemma limiter_sleeps_at_most_one_interval_witness :
  clock_ahead Sample.holding_token /\
  exists st',
    igdb_client._rate_limit (Sample.refusing (httpx.Failed "unreachable"))
      Sample.holding_token = (Ok tt, st') /\
    (trace st' =
       trace Sample.holding_token
         ++ [EvTime (next_reading (Sample.refusing (httpx.Failed "unreachable"))
                                  Sample.holding_token);
             EvTime (clock st')] \/
     exists d : Q,
       trace st' =
         trace Sample.holding_token
           ++ [EvTime (next_reading (Sample.refusing (httpx.Failed "unreachable"))
                                    Sample.holding_token);
               EvSleep d; EvTime (clock st')] /\
       0 < d /\ d <= request_interval (self Sample.holding_token)).
Proof.
  assert (Hahead : clock_ahead Sample.holding_token)
    by (unfold clock_ahead, Qle; simpl; lia).
  split; [ exact Hahead | ].
  exact (limiter_sleeps_at_most_one_interval
           (Sample.refusing (httpx.Failed "unreachable")) Sample.holding_token Hahead).
Defined.

Section Sequences.

Variable env : Env.

Lemma timestamps_paced (calls : list Call) :
  forall st : State,
    paced (request_interval (self st)) (last_request_time (self st))
          (timestamps calls env st).
Proof.
  induction calls as [| call calls IH]; intros st; cbn [timestamps paced]; [ exact I | ].
  destruct (perform_limiter env call st) as (Hinterval & Hstep & _).
  split.
  - destruct Hstep as [(_ & _ & _ & _ & _ & _ & _ & Hself & _) | Hlater];
      [ left; now rewrite Hself | now right ].
  - rewrite <- Hinterval. apply IH.
Qed.

End Sequences.

(** X10. There is one limiter for all the operations of a client. Along
    any sequence of calls of any of them that follow one another (each
    has returned or raised before the next is made), the timestamp of
    the limiter after a call is the one after the call before or at
    least the interval later. A search and a platform query always move
    it. A call for upcoming games moves it unless it raises while it
    forms its window, before it reaches the limiter: it has then read
    the local clock and done nothing else. With a positive interval,
    this is the only way for the timestamp to stay as it is. (The
    timestamp is the time at which the limiter lets a call go, not the
    time of its request.) *)
Theorem one_limiter_timestamp_for_all_operations :
  (forall (env : Env) (calls : list Call) (st : State),
      paced (request_interval (self st)) (last_request_time (self st))
            (timestamps calls env st)) /\
  (forall (env : Env) (st : State) (search_term : string) (limit : Z),
      last_request_time (self st) + request_interval (self st)
        <= last_request_time (self (snd (perform (SearchGames search_term limit) env st)))) /\
  (forall (env : Env) (st : State),
      last_request_time (self st) + request_interval (self st)
        <= last_request_time (self (snd (perform Platforms env st)))) /\
  (forall (env : Env) (st : State) (call : Call),
      failed_on_window env st call \/
      last_request_time (self st) + request_interval (self st)
        <= last_request_time (self (snd (perform call env st)))) /\
  (forall (env : Env) (st : State) (call : Call),
      0 < request_interval (self st) ->
      last_request_time (self (snd (perform call env st))) = last_request_time (self st) ->
      failed_on_window env st call).
Proof.
  split; [ | split; [ | split; [ | split ] ] ].
  - intros env calls st. apply timestamps_paced.
  - intros env st search_term limit. cbn [perform].
    unfold igdb_client.search_games. rewrite log_and_reraise_run.
    apply (make_request_limiter env st "games"
             (igdb_client.search_query search_term limit)).
  - intros env st. cbn [perform].
    unfold igdb_client.get_platforms. rewrite log_and_reraise_run.
    apply (make_request_limiter env st "platforms" igdb_client.platforms_query).
  - intros env st call. apply (perform_limiter env call st).
  - intros env st call Hpositive Hsame.
    destruct (perform_limiter env call st) as (_ & [Hfailed | Hmoved] & _);
      [ exact Hfailed | ].
    rewrite Hsame in Hmoved. lra.
Qed.

Lemma one_limiter_timestamp_for_all_operations_witness :
  failed_on_window (Sample.refusing (httpx.Failed "unreachable")) Sample.fresh
    (UpcomingGames 1000000000000 50 None).
Proof.
  apply (proj2 (proj2 (proj2 (proj2 one_limiter_timestamp_for_all_operations)))).
  - unfold Qlt; simpl; lia.
  - vm_compute. reflexivity.
Defined.

(** X11. The limiter holds nothing back when its interval is not
    positive, and a negative [requests_per_second] makes it so: the
    client is constructed without complaint, with a negative interval,
    and none of its calls through the limiter sleeps. *)
Theorem negative_rate_disables_the_limiter :
  (forall (cid secret : string) (rps : Q) (c : IGDBClient),
      igdb_client.__init__ cid secret rps = Ok c ->
      rps < 0 ->
      request_interval c < 0) /\
  (forall (env : Env) (st : State),
      request_interval (self st) <= 0 ->
      clock_ahead st ->
      exists st',
        igdb_client._rate_limit env st = (Ok tt, st') /\
        trace st' = trace st ++ [EvTime (next_reading env st); EvTime (clock st')]).
Proof.
  split.
  - intros cid secret rps c Hinit Hneg.
    unfold igdb_client.__init__ in Hinit.
    destruct (Qeq_bool rps 0); [ discriminate | ].
    injection Hinit as <-. cbn [request_interval].
    destruct rps as [[| n | n] d]; unfold Qlt in *; cbn in *; lia.
  - intros env st Hinterval Hahead. unfold clock_ahead in Hahead.
    destruct (rate_limit_run env st) as (st' & Hrun & Htrace & _).
    exists st'. split; [ exact Hrun | ].
    assert (Hno : rate_limit_suspends env st = false).
    { apply Qltb_ge. unfold rate_limit_elapsed.
      pose proof (next_reading_ge env st). lra. }
    now rewrite Hno in Htrace.
Qed.

Lemma negative_rate_disables_the_limiter_witness :
  match igdb_client.__init__ "id" "secret" (-1) with
  | Ok c => request_interval c < 0
  | Raise _ => False
  end.
Proof.
  cbn [igdb_client.__init__ Qeq_bool Qnum Qden Z.mul Z.eqb Pos.mul Z.opp].
  refine (proj1 negative_rate_disables_the_limiter "id"%string "secret"%string (-1) _
            eq_refl eq_refl).
Defined.

Section Statements.

Lemma plain_app (s1 s2 : string) :
  plain (s1 ++ s2) = plain s1 && plain s2.
Proof.
  induction s1 as [| c s1 IH]; cbn [String.append plain]; [ reflexivity | ].
  rewrite IH. now rewrite andb_assoc.
Qed.

(** The query that joins plain parts reads as these parts. *)
Lemma statements_join (rest : list string) :
  forall (part current : string),
    plain part = true ->
    forallb plain rest = true ->
    statements_from false current (Py.join "; " (part :: rest) ++ ";")
      = (current ++ part)%string :: map (String " ") rest.
Proof.
  induction rest as [| next rest IH]; intros part current Hpart Hrest.
  - cbn [Py.join map]. rewrite statements_plain by assumption. reflexivity.
  - cbn [forallb] in Hrest. apply andb_true_iff in Hrest as [Hnext Hrest].
    change (Py.join "; " (part :: next :: rest))
      with (part ++ "; " ++ Py.join "; " (next :: rest))%string.
    rewrite !append_append. rewrite statements_plain by assumption.
    cbn [String.append statements_from Ascii.eqb Bool.eqb andb negb map].
    f_equal. apply (IH next " "%string Hnext Hrest).
Qed.

Lemma plain_platform_filter (ids : list Z) :
  plain (Py.join " | " (map Py.str_int ids)) = true.
Proof.
  induction ids as [| id ids IH]; [ reflexivity | ].
  destruct ids as [| id' ids]; cbn [map Py.join] in *.
  - apply plain_str_int.
  - rewrite !plain_app, plain_str_int, IH. reflexivity.
Qed.

End Statements.

(** X12. Without platform ids, and an empty list of ids is as good as
    none, the query for upcoming games reads as four statements: the
    fields, the [where] with the two bounds of the window, the sort by
    release date and the limit. *)
Theorem unfiltered_upcoming_query_has_four_statements
    (start_timestamp end_timestamp limit : Z) :
  igdb_client.upcoming_query start_timestamp end_timestamp limit (Some [])
    = igdb_client.upcoming_query start_timestamp end_timestamp limit None /\
  statements (igdb_client.upcoming_query start_timestamp end_timestamp limit None)
    = [igdb_client.upcoming_fields;
       (" where release_dates.date >= " ++ Py.str_int start_timestamp
        ++ " & release_dates.date < " ++ Py.str_int end_timestamp)%string;
       " sort release_dates.date asc"%string;
       (" limit " ++ Py.str_int limit)%string].
Proof.
  split; [ reflexivity | ].
  unfold statements, igdb_client.upcoming_query, igdb_client.upcoming_query_parts.
  cbn [app]. rewrite statements_join.
  - reflexivity.
  - reflexivity.
  - cbn [forallb]. rewrite !plain_app, !plain_str_int. reflexivity.
Qed.

(** X13. With platform ids, the query reads as five statements. The
    [where] statement holds the window and nothing else; the ids come in
    a statement of their own, all of them and in the order given,
    separated by [|]. *)
Theorem filtered_upcoming_query_has_five_statements
    (start_timestamp end_timestamp limit id : Z) (ids : list Z) :
  statements
    (igdb_client.upcoming_query start_timestamp end_timestamp limit (Some (id :: ids)))
    = [igdb_client.upcoming_fields;
       (" where release_dates.date >= " ++ Py.str_int start_timestamp
        ++ " & release_dates.date < " ++ Py.str_int end_timestamp)%string;
       (" & release_dates.platform = ("
        ++ Py.join " | " (map Py.str_int (id :: ids)) ++ ")")%string;
       " sort release_dates.date asc"%string;
       (" limit " ++ Py.str_int limit)%string].
Proof.
  unfold statements, igdb_client.upcoming_query, igdb_client.upcoming_query_parts.
  cbn [Py.truthy_list app]. rewrite statements_join.
  - reflexivity.
  - reflexivity.
  - cbn [forallb].
    rewrite !plain_app, !plain_str_int, (plain_platform_filter (id :: ids)). reflexivity.
Qed.

Section Window.



End Window.



(** A window that ends in the first day of the year 1 has an end that
    is a date, but one that the host does not convert: the call raises
    [ValueError] before it reaches the limiter. *)
Example window_end_in_the_first_day :
  fst (igdb_client.get_upcoming_games (-738837) 50 None
         (Sample.granting 3600 (Sample.entity_response 200 "OK" (Some (JList []))))
         Sample.fresh)
    = Raise (ValueError "year 0 is out of range") /\
  failed_on_window
    (Sample.granting 3600 (Sample.entity_response 200 "OK" (Some (JList []))))
    Sample.fresh (UpcomingGames (-738837) 50 None).
Proof.
  split; [ vm_compute; reflexivity | ].
  exists (-738837)%Z, 50%Z, None, (ValueError "year 0 is out of range").
  eexists [_; _].
  split; [ reflexivity | ].
  split; [ vm_compute; reflexivity | ].
  split; [ vm_compute; reflexivity | ].
  vm_compute. reflexivity.
Qed.

(** Where the clock of the host is moved forward by an hour within the
    window, the window is an hour shorter than the days asked for. *)
Example window_across_a_clock_change :
  In (EvPost "https://api.igdb.com/v4/games"
        (igdb_client.upcoming_query 1700000000 1710364400 50 None)
        (igdb_client.request_headers Sample.client (Some "token-1"%string)))
     (trace (snd (igdb_client.get_upcoming_games 120 50 None
                    (Scenario.eastern (Sample.entity_response 200 "OK" (Some (JList []))))
                    Sample.fresh))) /\
  (1710364400 - 1700000000 = 120 * 86400 - 3600)%Z.
Proof.
  split; [ | reflexivity ].
  vm_compute. do 6 right. left. reflexivity.
Qed.

(** * Properties of the routes and of the records *)

From Stdlib Require Import DecimalPos Permutation Sorted.

Section SearchRoute.

Context {P : Pydantic}.

(** A string is no mapping: no key of an object and no character of a
    string makes a game. *)
Lemma convert_rejects_all {A : Type} (Entity : JSON -> Result A) (batch : list JSON) :
  forallb (fun entity_data => negb (parses Entity entity_data)) batch = true ->
  forall entities : list A, server.convert Entity entities batch = entities.
Proof.
  unfold parses.
  induction batch as [| entity_data batch IH]; intros Hall entities; [ reflexivity | ].
  cbn [forallb] in Hall. apply andb_true_iff in Hall as [Hone Hall].
  cbn [server.convert]. destruct (Entity entity_data); [ discriminate | now apply IH ].
Qed.

Lemma keys_are_no_games (members : list (string * JSON)) :
  forallb (fun entity_data => negb (parses server.Game entity_data))
          (map (fun kv => JStr (fst kv)) members) = true.
Proof.
  induction members as [| kv members IH]; [ reflexivity | ].
  cbn [map forallb]. now rewrite IH.
Qed.

Lemma characters_are_no_games (s : string) :
  forallb (fun entity_data => negb (parses server.Game entity_data))
          (server.characters s) = true.
Proof.
  induction s as [| c s IH]; [ reflexivity | ].
  cbn [server.characters forallb]. now rewrite IH.
Qed.

End SearchRoute.

(** X15. The search route has two outcomes only. It answers with the
    games converted from the batch, their number as [total_count], page
    1 and the limit as [per_page]; or it raises the HTTP error 500,
    which is what every failure of the upstream call becomes, the
    rate-limit and the authentication errors included. *)
Theorem search_route_answers_or_raises_500
    (P : Pydantic) (env : Env) (st : State) (q : string) (limit : Z) :
  match server.search_games q limit env st with
  | (Ok response, _) =>
      models.total_count response = Some (Z.of_nat (length (models.games response))) /\
      models.page response = 1%Z /\
      models.per_page response = limit
  | (Raise e, _) => e = HTTPException 500 "Internal server error"
  end /\
  (forall (e : exn) (st' : State),
      igdb_client.search_games q limit env st = (Raise e, st') ->
      server.search_games q limit env st
        = (Raise (HTTPException 500 "Internal server error"), st')).
Proof.
  unfold server.search_games, try_except, bind at 1 3.
  destruct (igdb_client.search_games q limit env st) as [[games_data | e] st'].
  - split; [ | discriminate ].
    unfold bind, server.lift. destruct (server.iterate games_data); cbn; auto.
  - split; [ reflexivity | ]. intros e' st'' Heq. now injection Heq as <- <-.
Qed.

(** X16. What the search route makes of a 2xx body that is not a list.
    The keys of an object and the characters of a string are refused one
    by one by the conversion, so the answer is an empty list of games
    with a count of zero; a number, a boolean or [null] cannot be
    iterated, and the route raises the HTTP error 500. *)
Theorem search_route_on_a_body_that_is_no_list
    (P : Pydantic) (env : Env) (st st' : State) (q : string) (limit : Z)
    (games_data : JSON) :
  igdb_client.search_games q limit env st = (Ok games_data, st') ->
  match games_data with
  | JList batch =>
      server.search_games q limit env st
        = (Ok (models.mkGameResponse
                 (server.convert server.Game [] batch)
                 (Some (Z.of_nat (length (server.convert server.Game [] batch))))
                 1 limit),
           st')
  | JObj _ | JStr _ =>
      server.search_games q limit env st
        = (Ok (models.mkGameResponse [] (Some 0%Z) 1 limit), st')
  | JNull | JBool _ | JInt _ | JFloat _ =>
      server.search_games q limit env st
        = (Raise (HTTPException 500 "Internal server error"), st')
  end.
Proof.
  intros Hsearch.
  destruct games_data as [| b | n | x | s | batch | members];
    unfold server.search_games, try_except; unfold bind at 1; rewrite Hsearch;
    cbn [server.lift server.iterate bind ret raise]; try reflexivity.
  - now rewrite (convert_rejects_all server.Game _ (characters_are_no_games s)).
  - now rewrite (convert_rejects_all server.Game _ (keys_are_no_games members)).
Qed.

Lemma search_route_on_a_body_that_is_no_list_witness :
  server.search_games (H := Sample.scalars) "zelda" 20
    (Sample.granting 3600
       (Sample.entity_response 200 "OK" (Some (JObj [("message"%string, JStr "ok")]))))
    Sample.fresh
  = (Ok (models.mkGameResponse [] (Some 0%Z) 1 20),
     snd (igdb_client.search_games "zelda" 20
            (Sample.granting 3600
               (Sample.entity_response 200 "OK"
                  (Some (JObj [("message"%string, JStr "ok")]))))
            Sample.fresh)).
Proof.
  apply (search_route_on_a_body_that_is_no_list Sample.scalars
           (Sample.granting 3600
              (Sample.entity_response 200 "OK" (Some (JObj [("message"%string, JStr "ok")]))))
           Sample.fresh _ "zelda"%string 20%Z (JObj [("message"%string, JStr "ok")])).
  vm_compute. reflexivity.
Defined.

Section PlatformIds.

Lemma decimal_digits (d : Decimal.uint) :
  text.decimal (NilEmpty.string_of_uint d) = true.
Proof.
  induction d; cbn; auto.
Qed.

Lemma decimal_lacks_comma (s : string) :
  text.decimal s = true -> text.lacks "," s = true.
Proof.
  induction s as [| c s IH]; [ reflexivity | ].
  cbn [text.decimal text.lacks]. intros Hd. apply andb_true_iff in Hd as [Hc Hs].
  rewrite IH by assumption. rewrite andb_true_r.
  destruct (Ascii.eqb_spec c ","); [ subst c; discriminate | reflexivity ].
Qed.

Lemma decimal_rstrip (s : string) : text.decimal s = true -> text.rstrip s = s.
Proof.
  induction s as [| c s IH]; [ reflexivity | ].
  cbn [text.decimal text.rstrip]. intros Hd. apply andb_true_iff in Hd as [Hc Hs].
  rewrite IH by assumption.
  destruct s; [ | reflexivity ].
  assert (Hspace : text.is_space c = false).
  { unfold text.is_digit in Hc. unfold text.is_space.
    apply andb_true_iff in Hc as [Hlow Hhigh].
    apply N.leb_le in Hlow. apply N.leb_le in Hhigh.
    repeat (apply orb_false_iff; split).
    - apply N.eqb_neq. lia.
    - apply andb_false_iff. right. apply N.leb_gt. lia.
    - apply andb_false_iff. right. apply N.leb_gt. lia. }
  now rewrite Hspace.
Qed.

Lemma decimal_count (s : string) :
  (text.count_digits s <= String.length s)%nat.
Proof.
  induction s as [| c s IH]; cbn [text.count_digits String.length]; [ lia | ].
  destruct (text.is_digit c); lia.
Qed.

(** Reading back the digits of a number. *)
Lemma digits_from_acc (d : Decimal.uint) :
  forall (acc : positive) (after_digit : bool),
    d <> Decimal.Nil \/ after_digit = true ->
    text.digits_from (Zpos acc) after_digit (NilEmpty.string_of_uint d)
      = Some (Zpos (Pos.of_uint_acc d acc)).
Proof.
  induction d; intros acc after_digit Hne;
    try (cbn [NilEmpty.string_of_uint text.digits_from Pos.of_uint_acc];
         match goal with
         | |- context [text.is_digit ?c] =>
             change (text.is_digit c) with true; cbv iota
         end;
         match goal with
         | |- text.digits_from ?v true _ = Some (Zpos (Pos.of_uint_acc _ ?a)) =>
             replace v with (Zpos a) by (unfold text.digit_value; simpl N_of_ascii; lia)
         end;
         apply IHd; now right).
  destruct Hne as [Hne | ->]; [ congruence | reflexivity ].
Qed.

Lemma digits_from_zero (d : Decimal.uint) :
  forall after_digit : bool,
    d <> Decimal.Nil \/ after_digit = true ->
    text.digits_from 0 after_digit (NilEmpty.string_of_uint d)
      = Some (Z.of_N (Pos.of_uint d)).
Proof.
  induction d; intros after_digit Hne;
    try (cbn [NilEmpty.string_of_uint text.digits_from Pos.of_uint];
         match goal with
         | |- context [text.is_digit ?c] =>
             change (text.is_digit c) with true; cbv iota
         end;
         match goal with
         | |- text.digits_from ?v true _ = Some (Z.of_N (N.pos (Pos.of_uint_acc _ ?a))) =>
             replace v with (Zpos a) by (unfold text.digit_value; simpl N_of_ascii; lia)
         end;
         apply digits_from_acc; now right).
  - destruct Hne as [Hne | ->]; [ congruence | reflexivity ].
  - cbn [NilEmpty.string_of_uint text.digits_from Pos.of_uint].
    change (text.is_digit "0") with true. cbv iota.
    change (10 * 0 + text.digit_value "0")%Z with 0%Z.
    apply IHd. now right.
Qed.

Lemma literal_of_positive (p : positive) :
  (String.length (NilEmpty.string_of_uint (Pos.to_uint p)) <= 4300)%nat ->
  text.literal (NilEmpty.string_of_uint (Pos.to_uint p)) = Some (Zpos p).
Proof.
  intros Hlen. unfold text.literal.
  pose proof (decimal_count (NilEmpty.string_of_uint (Pos.to_uint p))) as Hcount.
  assert (Hlimit : (4300 <? text.count_digits (NilEmpty.string_of_uint (Pos.to_uint p)))%nat
                   = false) by (apply Nat.ltb_ge; lia).
  rewrite Hlimit, digits_from_zero by (left; apply Unsigned.to_uint_nonnil).
  now rewrite DecimalPos.Unsigned.of_to.
Qed.

End PlatformIds.

Section PlatformIdsRoundTrip.

Lemma digit_not_space (c : ascii) : text.is_digit c = true -> text.is_space c = false.
Proof.
  unfold text.is_digit, text.is_space. intros Hc.
  apply andb_true_iff in Hc as [Hlow Hhigh].
  apply N.leb_le in Hlow. apply N.leb_le in Hhigh.
  repeat (apply orb_false_iff; split).
  - apply N.eqb_neq. lia.
  - apply andb_false_iff. right. apply N.leb_gt. lia.
  - apply andb_false_iff. right. apply N.leb_gt. lia.
Qed.

Lemma rstrip_cons (c : ascii) (s : string) :
  text.is_space c = false -> text.rstrip (String c s) = String c (text.rstrip s).
Proof.
  intros Hc. cbn [text.rstrip]. destruct (text.rstrip s); [ now rewrite Hc | reflexivity ].
Qed.

(** The decimal text of an integer: digits, after a minus sign when it
    is negative. *)
Lemma str_int_shape (n : Z) :
  (exists (c : ascii) (digits : string),
      Py.str_int n = String c digits /\
      text.is_digit c = true /\ text.decimal digits = true) \/
  (exists digits : string,
      Py.str_int n = String "-" digits /\ text.decimal digits = true).
Proof.
  unfold Py.str_int, NilZero.string_of_int.
  destruct n as [| p | p]; cbn [Z.to_int].
  - left. exists "0"%char, EmptyString. repeat split.
  - left. pose proof (Unsigned.to_uint_nonnil p) as Hnonnil.
    pose proof (decimal_digits (Pos.to_uint p)) as Hdecimal.
    unfold NilZero.string_of_uint.
    destruct (Pos.to_uint p) eqn:Hd; [ congruence | .. ];
      cbn [NilEmpty.string_of_uint text.decimal] in *;
      apply andb_true_iff in Hdecimal as [Hc Hrest];
      eexists; eexists; (split; [ reflexivity | ]); auto.
  - right. pose proof (Unsigned.to_uint_nonnil p) as Hnonnil.
    exists (NilEmpty.string_of_uint (Pos.to_uint p)).
    split; [ | apply decimal_digits ].
    unfold NilZero.string_of_uint. now destruct (Pos.to_uint p).
Qed.

Lemma strip_str_int (n : Z) : text.strip (Py.str_int n) = Py.str_int n.
Proof.
  unfold text.strip.
  destruct (str_int_shape n) as [(c & digits & -> & Hc & Hd) | (digits & -> & Hd)].
  - cbn [text.lstrip]. rewrite (digit_not_space c Hc).
    rewrite rstrip_cons by (now apply digit_not_space). now rewrite decimal_rstrip.
  - cbn [text.lstrip]. change (text.is_space "-") with false. cbv iota.
    rewrite rstrip_cons by reflexivity. now rewrite decimal_rstrip.
Qed.

Lemma lacks_comma_str_int (n : Z) : text.lacks "," (Py.str_int n) = true.
Proof.
  destruct (str_int_shape n) as [(c & digits & -> & Hc & Hd) | (digits & -> & Hd)].
  - apply (decimal_lacks_comma (String c digits)). cbn [text.decimal]. now rewrite Hc.
  - cbn [text.lacks]. now rewrite (decimal_lacks_comma digits Hd).
Qed.

(** [int(str(n)) == n], as long as the text is within the limit of the
    conversion. *)
Lemma int_of_str_str_int (n : Z) :
  (String.length (Py.str_int n) <= 4300)%nat ->
  text.int_of_str (Py.str_int n) = Some n.
Proof.
  unfold text.int_of_str. rewrite strip_str_int.
  unfold Py.str_int, NilZero.string_of_int.
  destruct n as [| p | p]; cbn [Z.to_int]; intros Hlen.
  - reflexivity.
  - pose proof (Unsigned.to_uint_nonnil p) as Hnonnil.
    assert (Hshape : NilZero.string_of_uint (Pos.to_uint p)
                     = NilEmpty.string_of_uint (Pos.to_uint p))
      by (unfold NilZero.string_of_uint; now destruct (Pos.to_uint p)).
    rewrite Hshape in *.
    pose proof (literal_of_positive p Hlen) as Hliteral.
    destruct (Pos.to_uint p); [ congruence | .. ];
      cbn [NilEmpty.string_of_uint] in *; exact Hliteral.
  - pose proof (Unsigned.to_uint_nonnil p) as Hnonnil.
    assert (Hshape : NilZero.string_of_uint (Pos.to_uint p)
                     = NilEmpty.string_of_uint (Pos.to_uint p))
      by (unfold NilZero.string_of_uint; now destruct (Pos.to_uint p)).
    rewrite Hshape in *. cbn [String.length] in Hlen.
    rewrite (literal_of_positive p) by lia. reflexivity.
Qed.

Lemma split_lacks (s rest current : string) :
  text.lacks "," s = true ->
  text.split_from current (s ++ rest) = text.split_from (current ++ s) rest.
Proof.
  revert current. induction s as [| c s IH]; intros current Hlacks.
  - cbn. now rewrite append_empty.
  - cbn [text.lacks] in Hlacks. apply andb_true_iff in Hlacks as [Hc Hs].
    apply negb_true_iff in Hc.
    cbn [String.append text.split_from]. rewrite Hc, IH by assumption.
    now rewrite append_append.
Qed.

(** Splitting at the commas what was joined with commas. *)
Lemma split_join (rest : list string) :
  forall piece current : string,
    text.lacks "," piece = true ->
    forallb (text.lacks ",") rest = true ->
    text.split_from current (Py.join "," (piece :: rest))
      = (current ++ piece)%string :: rest.
Proof.
  induction rest as [| next rest IH]; intros piece current Hpiece Hrest.
  - cbn [Py.join]. rewrite <- (append_empty piece) at 1.
    rewrite split_lacks by assumption. reflexivity.
  - cbn [forallb] in Hrest. apply andb_true_iff in Hrest as [Hnext Hrest].
    change (Py.join "," (piece :: next :: rest))
      with (piece ++ "," ++ Py.join "," (next :: rest))%string.
    rewrite split_lacks by assumption.
    cbn [String.append text.split_from Ascii.eqb Bool.eqb]. f_equal.
    apply (IH next EmptyString Hnext Hrest).
Qed.

Lemma int_all_str_int (ids : list Z) :
  Forall (fun id => (String.length (Py.str_int id) <= 4300)%nat) ids ->
  routes.int_all (map Py.str_int ids) = Some ids.
Proof.
  induction 1 as [| id ids Hid Hids IH]; [ reflexivity | ].
  cbn [map routes.int_all]. rewrite strip_str_int, int_of_str_str_int by assumption.
  now rewrite IH.
Qed.

(** A text that ends with a comma has an empty last piece. *)
Lemma split_trailing_comma (s : string) :
  forall current : string,
    exists pieces : list string,
      text.split_from current (s ++ ",") = pieces ++ [EmptyString].
Proof.
  induction s as [| c s IH]; intros current.
  - exists [current]. reflexivity.
  - cbn [String.append text.split_from]. destruct (Ascii.eqb c ",").
    + destruct (IH EmptyString) as (pieces & ->). now exists (current :: pieces).
    + apply IH.
Qed.

Lemma int_all_empty_piece (pieces : list string) :
  routes.int_all (pieces ++ [EmptyString]) = None.
Proof.
  induction pieces as [| pid pieces IH]; [ reflexivity | ].
  cbn [app routes.int_all]. rewrite IH.
  now destruct (text.int_of_str (text.strip pid)).
Qed.

End PlatformIdsRoundTrip.

(** X17. The [platform_ids] parameter of the upcoming-games route. The
    decimal texts of integers, joined with commas, are read back as
    these integers, in their order (each text within the 4300 digits
    that the conversion accepts). A text that ends with a comma has an
    empty last element and is refused with the HTTP error 400. Without
    the parameter, or with an empty one, there is no filter. *)
Theorem platform_ids_are_read_back :
  (forall (id : Z) (ids : list Z),
      Forall (fun i => (String.length (Py.str_int i) <= 4300)%nat) (id :: ids) ->
      routes.parse_platform_ids (Some (Py.join "," (map Py.str_int (id :: ids))))
        = Ok (Some (id :: ids))) /\
  (forall s : string,
      routes.parse_platform_ids (Some (s ++ ",")%string)
        = Raise (HTTPException 400 "Invalid platform IDs format")) /\
  routes.parse_platform_ids None = Ok None /\
  routes.parse_platform_ids (Some EmptyString) = Ok None.
Proof.
  split; [ | split; [ | split; reflexivity ] ].
  - intros id ids Hlen.
    unfold routes.parse_platform_ids.
    assert (Htruthy : Py.truthy_str (Py.join "," (map Py.str_int (id :: ids))) = true).
    { cbn [map Py.join].
      destruct (str_int_shape id) as [(c & digits & -> & _) | (digits & -> & _)];
        now destruct (map Py.str_int ids). }
    rewrite Htruthy. unfold text.split_comma. cbn [map].
    rewrite split_join.
    + cbn [String.append]. change (Py.str_int id :: map Py.str_int ids)
        with (map Py.str_int (id :: ids)).
      now rewrite int_all_str_int.
    + apply lacks_comma_str_int.
    + clear. induction ids as [| i ids IH]; [ reflexivity | ].
      cbn [map forallb]. now rewrite lacks_comma_str_int.
  - intros s. unfold routes.parse_platform_ids, text.split_comma.
    assert (Htruthy : Py.truthy_str (s ++ ",")%string = true) by (now destruct s).
    rewrite Htruthy.
    destruct (split_trailing_comma s EmptyString) as (pieces & ->).
    now rewrite int_all_empty_piece.
Qed.

Lemma platform_ids_are_read_back_witness :
  routes.parse_platform_ids (Some "6,48,-3"%string) = Ok (Some [6; 48; -3]%Z).
Proof.
  refine (proj1 platform_ids_are_read_back 6%Z [48; -3]%Z _).
  repeat (apply Forall_cons; [ apply Nat.leb_le; vm_compute; reflexivity | ]).
  apply Forall_nil.
Defined.

Section Order.

Lemma ascii_compare_lt_trans (a b c : ascii) :
  Ascii.compare a b = Lt -> Ascii.compare b c = Lt -> Ascii.compare a c = Lt.
Proof.
  unfold Ascii.compare. rewrite !N.compare_lt_iff. lia.
Qed.

Lemma string_compare_lt_trans (s1 : string) :
  forall s2 s3 : string,
    String.compare s1 s2 = Lt -> String.compare s2 s3 = Lt -> String.compare s1 s3 = Lt.
Proof.
  induction s1 as [| a s1 IH]; intros [| b s2] [| c s3];
    cbn [String.compare]; try discriminate; auto.
  destruct (Ascii.compare a b) eqn:Hab; try discriminate;
    destruct (Ascii.compare b c) eqn:Hbc; try discriminate; intros H12 H23.
  - apply Ascii.compare_eq_iff in Hab. apply Ascii.compare_eq_iff in Hbc. subst.
    assert (Hcc : Ascii.compare c c = Eq)
      by (unfold Ascii.compare; apply N.compare_refl).
    rewrite Hcc. now apply (IH s2 s3).
  - apply Ascii.compare_eq_iff in Hab. subst. now rewrite Hbc.
  - apply Ascii.compare_eq_iff in Hbc. subst. now rewrite Hab.
  - now rewrite (ascii_compare_lt_trans a b c Hab Hbc).
Qed.

Lemma string_compare_refl (s : string) : String.compare s s = Eq.
Proof.
  induction s as [| c s IH]; cbn [String.compare]; [ reflexivity | ].
  assert (Hcc : Ascii.compare c c = Eq) by (unfold Ascii.compare; apply N.compare_refl).
  now rewrite Hcc.
Qed.

Lemma string_ltb_asym (s1 s2 : string) :
  String.ltb s1 s2 = true -> String.ltb s2 s1 = false.
Proof.
  unfold String.ltb. rewrite (String.compare_antisym s1 s2).
  now destruct (String.compare s2 s1).
Qed.

(** [s1 <= s2 <= s3] on strings. *)
Lemma string_not_ltb_trans (s1 s2 s3 : string) :
  String.ltb s2 s1 = false -> String.ltb s3 s2 = false -> String.ltb s3 s1 = false.
Proof.
  unfold String.ltb.
  rewrite (String.compare_antisym s2 s1), (String.compare_antisym s3 s2),
    (String.compare_antisym s3 s1).
  destruct (String.compare s1 s2) eqn:H12; cbn [CompOpp]; try discriminate;
    destruct (String.compare s2 s3) eqn:H23; cbn [CompOpp]; try discriminate;
    intros _ _.
  - apply String.compare_eq_iff in H12. apply String.compare_eq_iff in H23. subst.
    now rewrite string_compare_refl.
  - apply String.compare_eq_iff in H12. subst. now rewrite H23.
  - apply String.compare_eq_iff in H23. subst. now rewrite H12.
  - now rewrite (string_compare_lt_trans s1 s2 s3 H12 H23).
Qed.

Lemma key_lt_asym (k1 k2 : Q * string) :
  routes.key_lt k1 k2 = true -> routes.key_lt k2 k1 = false.
Proof.
  unfold routes.key_lt. destruct k1 as [d1 n1], k2 as [d2 n2]; cbn [fst snd].
  destruct (Qeq_bool d1 d2) eqn:H12.
  - apply Qeq_bool_iff in H12.
    assert (H21 : Qeq_bool d2 d1 = true) by (apply Qeq_bool_iff; lra).
    rewrite H21. apply string_ltb_asym.
  - destruct (Qeq_bool d2 d1) eqn:H21.
    + apply Qeq_bool_iff in H21.
      assert (H12' : Qeq_bool d1 d2 = true) by (apply Qeq_bool_iff; lra). congruence.
    + intros Hlt. apply Qltb_lt in Hlt. apply Qltb_ge. lra.
Qed.

(** [k1 <= k2 <= k3] on keys. *)
Lemma key_not_lt_trans (k1 k2 k3 : Q * string) :
  routes.key_lt k2 k1 = false -> routes.key_lt k3 k2 = false ->
  routes.key_lt k3 k1 = false.
Proof.
  unfold routes.key_lt.
  destruct k1 as [d1 n1], k2 as [d2 n2], k3 as [d3 n3]; cbn [fst snd].
  intros H21 H32.
  assert (H12 : (d1 == d2 /\ String.ltb n2 n1 = false) \/ d1 < d2).
  { destruct (Qeq_bool d2 d1) eqn:He.
    - apply Qeq_bool_iff in He. left. split; [ lra | assumption ].
    - apply Qeq_bool_neq in He. apply Qltb_ge in H21. right. lra. }
  assert (H23 : (d2 == d3 /\ String.ltb n3 n2 = false) \/ d2 < d3).
  { destruct (Qeq_bool d3 d2) eqn:He.
    - apply Qeq_bool_iff in He. left. split; [ lra | assumption ].
    - apply Qeq_bool_neq in He. apply Qltb_ge in H32. right. lra. }
  destruct (Qeq_bool d3 d1) eqn:He.
  - apply Qeq_bool_iff in He.
    destruct H12 as [[Hd12 Hn12] | Hd12]; destruct H23 as [[Hd23 Hn23] | Hd23]; try lra.
    now apply (string_not_ltb_trans n1 n2 n3).
  - apply Qltb_ge.
    destruct H12 as [[Hd12 _] | Hd12]; destruct H23 as [[Hd23 _] | Hd23]; lra.
Qed.

Lemma insert_permutation (g : models.Game) (games : list models.Game) :
  Permutation (routes.insert g games) (g :: games).
Proof.
  induction games as [| g' games IH]; cbn [routes.insert]; [ reflexivity | ].
  destruct (routes.key_lt (routes.sort_key g') (routes.sort_key g)); [ | reflexivity ].
  rewrite IH. apply perm_swap.
Qed.

Lemma sorted_permutation (games : list models.Game) :
  Permutation (routes.sorted games) games.
Proof.
  induction games as [| g games IH]; cbn [routes.sorted]; [ reflexivity | ].
  rewrite insert_permutation. now apply perm_skip.
Qed.

Lemma insert_sorted (g : models.Game) (games : list models.Game) :
  StronglySorted
    (fun a b => routes.key_lt (routes.sort_key b) (routes.sort_key a) = false) games ->
  StronglySorted
    (fun a b => routes.key_lt (routes.sort_key b) (routes.sort_key a) = false)
    (routes.insert g games).
Proof.
  induction 1 as [| g' games Hsorted IH Hall]; cbn [routes.insert].
  - constructor; constructor.
  - destruct (routes.key_lt (routes.sort_key g') (routes.sort_key g)) eqn:Hlt.
    + constructor; [ exact IH | ].
      assert (Hboth : Forall
                (fun b => routes.key_lt (routes.sort_key b) (routes.sort_key g') = false)
                (g :: games))
        by (constructor; [ now apply key_lt_asym | exact Hall ]).
      rewrite <- (insert_permutation g games) in Hboth. exact Hboth.
    + constructor; [ now constructor | ].
      constructor; [ exact Hlt | ].
      refine (Forall_impl _ _ Hall).
      intros b Hb.
      now apply (key_not_lt_trans (routes.sort_key g) (routes.sort_key g')
                   (routes.sort_key b)).
Qed.

Lemma sorted_sorted (games : list models.Game) :
  StronglySorted
    (fun a b => routes.key_lt (routes.sort_key b) (routes.sort_key a) = false)
    (routes.sorted games).
Proof.
  induction games as [| g games IH]; cbn [routes.sorted]; [ constructor | ].
  now apply insert_sorted.
Qed.

End Order.

(** X18. [sorted(games, key=...)] of the upcoming-games route returns
    the games it was given, each as often as it was there, in an order
    in which no game comes before one with a smaller key: by release
    date, the games without a date last, and by name among the games of
    one date. *)
Theorem upcoming_games_are_sorted_by_date_then_name (games : list models.Game) :
  Permutation (routes.sorted games) games /\
  length (routes.sorted games) = length games /\
  StronglySorted
    (fun a b => routes.key_lt (routes.sort_key b) (routes.sort_key a) = false)
    (routes.sorted games).
Proof.
  split; [ apply sorted_permutation | ].
  split; [ apply Permutation_length, sorted_permutation | apply sorted_sorted ].
Qed.

Section UpcomingRoute.

Context {P : Pydantic}.
Variable save_games : list models.Game -> M Z.
Variable get_upcoming_games_from_db : Z -> option (list Z) -> Z -> M (list models.Game).
Variable env : Env.

(** [fetch_and_save] in one equation. *)
Lemma fetch_and_save_run (days_ahead limit : Z) (platform_filter : option (list Z))
    (games : list models.Game) (st st1 : State) (fetched : Result JSON) :
  igdb_client.get_upcoming_games days_ahead limit platform_filter env st = (fetched, st1) ->
  routes.fetch_and_save save_games days_ahead limit platform_filter games env st =
    match fetched with
    | Raise e => (Raise e, st1)
    | Ok games_data =>
        match server.iterate games_data with
        | Raise e => (Raise e, st1)
        | Ok batch =>
            let converted := server.convert server.Game games batch in
            if Py.truthy_list converted
            then match save_games converted env st1 with
                 | (Ok _, st2) => (Ok converted, st2)
                 | (Raise e, st2) => (Raise e, st2)
                 end
            else (Ok converted, st1)
        end
    end.
Proof.
  intros Hfetch. unfold routes.fetch_and_save. unfold bind at 1. rewrite Hfetch.
  destruct fetched as [games_data | e]; [ | reflexivity ].
  unfold bind at 1, server.lift.
  destruct (server.iterate games_data) as [batch | e]; [ | reflexivity ].
  cbv zeta. unfold bind at 1.
  destruct (Py.truthy_list (server.convert server.Game games batch)); [ | reflexivity ].
  unfold bind at 1.
  destruct (save_games (server.convert server.Game games batch) env st1) as [[n | e] st2];
    reflexivity.
Qed.

End UpcomingRoute.

(** X19. How the upcoming-games route fails. A [platform_ids] parameter
    that cannot be parsed is refused before anything is done. With
    [force_refresh], a failure of the upstream call becomes the HTTP
    error 429 when it is the rate-limit error, 503 when it is the
    authentication error, and 500 otherwise. *)
Theorem upcoming_route_maps_the_failures
    (P : Pydantic) (save_games : list models.Game -> M Z)
    (get_upcoming_games_from_db : Z -> option (list Z) -> Z -> M (list models.Game))
    (env : Env) (st : State) (days_ahead limit : Z) (platform_ids : option string) :
  (forall (e : exn) (force_refresh : bool),
      routes.parse_platform_ids platform_ids = Raise e ->
      routes.get_upcoming_games save_games get_upcoming_games_from_db
        days_ahead limit platform_ids force_refresh env st = (Raise e, st)) /\
  (forall (platform_filter : option (list Z)) (e : exn) (st1 : State),
      routes.parse_platform_ids platform_ids = Ok platform_filter ->
      igdb_client.get_upcoming_games days_ahead limit platform_filter env st
        = (Raise e, st1) ->
      routes.get_upcoming_games save_games get_upcoming_games_from_db
        days_ahead limit platform_ids true env st
        = (Raise
             match e with
             | IGDBRateLimitError _ =>
                 HTTPException 429 "Rate limit exceeded. Please try again later."
             | IGDBAuthError _ => HTTPException 503 "Authentication failed with IGDB API"
             | _ => HTTPException 500 "Internal server error"
             end,
           st1)).
Proof.
  split.
  - intros e force_refresh Hparse.
    unfold routes.get_upcoming_games, bind at 1, server.lift. now rewrite Hparse.
  - intros platform_filter e st1 Hparse Hfetch.
    unfold routes.get_upcoming_games. unfold bind at 1, server.lift. rewrite Hparse.
    unfold try_except. unfold bind at 1.
    rewrite (fetch_and_save_run save_games env days_ahead limit platform_filter []
               st st1 (Raise e) Hfetch).
    reflexivity.
Qed.

Lemma upcoming_route_maps_the_failures_witness :
  fst (routes.get_upcoming_games (H := Sample.scalars)
         Scenario.save_all Scenario.find_nothing 90 50 (Some "6,48"%string) true
         (Sample.granting 3600 (Sample.entity_response 429 "Too Many Requests" None))
         Sample.fresh)
    = Raise (HTTPException 429 "Rate limit exceeded. Please try again later.").
Proof.
  set (env := Sample.granting 3600 (Sample.entity_response 429 "Too Many Requests" None)).
  set (st1 := snd (igdb_client.get_upcoming_games 90 50 (Some [6; 48]%Z) env Sample.fresh)).
  assert (Hfetch : igdb_client.get_upcoming_games 90 50 (Some [6; 48]%Z) env Sample.fresh
                   = (Raise (IGDBRateLimitError "Rate limit exceeded"), st1))
    by (vm_compute; reflexivity).
  assert (Hparse : routes.parse_platform_ids (Some "6,48"%string) = Ok (Some [6; 48]%Z))
    by (vm_compute; reflexivity).
  rewrite (proj2 (upcoming_route_maps_the_failures Sample.scalars
                    Scenario.save_all Scenario.find_nothing env Sample.fresh 90 50
                    (Some "6,48"%string))
                 (Some [6; 48]%Z) (IGDBRateLimitError "Rate limit exceeded") st1
                 Hparse Hfetch).
  reflexivity.
Defined.

(** X20. What the upcoming-games route answers with [force_refresh]
    when the catalogue has sent a list. The games converted from the
    list are saved, unless there is none, and the answer holds them
    sorted, with their number as [total_count], page 1 and the limit as
    [per_page]. When the store fails, the request fails though the games
    were there. *)
Theorem upcoming_route_answers_with_the_sorted_games
    (P : Pydantic) (save_games : list models.Game -> M Z)
    (get_upcoming_games_from_db : Z -> option (list Z) -> Z -> M (list models.Game))
    (env : Env) (st st1 : State) (days_ahead limit : Z) (platform_ids : option string)
    (platform_filter : option (list Z)) (batch : list JSON) :
  routes.parse_platform_ids platform_ids = Ok platform_filter ->
  igdb_client.get_upcoming_games days_ahead limit platform_filter env st
    = (Ok (JList batch), st1) ->
  let games := server.convert server.Game [] batch in
  let answer :=
    models.mkGameResponse (routes.sorted games)
      (Some (Z.of_nat (length (routes.sorted games)))) 1 limit in
  (games = [] ->
   routes.get_upcoming_games save_games get_upcoming_games_from_db
     days_ahead limit platform_ids true env st = (Ok answer, st1)) /\
  (forall (n : Z) (st2 : State),
      games <> [] ->
      save_games games env st1 = (Ok n, st2) ->
      routes.get_upcoming_games save_games get_upcoming_games_from_db
        days_ahead limit platform_ids true env st = (Ok answer, st2)) /\
  (forall (e : exn) (st2 : State),
      games <> [] ->
      save_games games env st1 = (Raise e, st2) ->
      routes.get_upcoming_games save_games get_upcoming_games_from_db
        days_ahead limit platform_ids true env st
        = (Raise (routes.upcoming_errors e), st2)).
Proof.
  intros Hparse Hfetch. cbv zeta.
  assert (Hroute :
            routes.get_upcoming_games save_games get_upcoming_games_from_db
              days_ahead limit platform_ids true env st
            = match routes.fetch_and_save save_games days_ahead limit platform_filter []
                      env st with
              | (Ok fetched, st') =>
                  (Ok (models.mkGameResponse (routes.sorted fetched)
                         (Some (Z.of_nat (length (routes.sorted fetched)))) 1 limit),
                   st')
              | (Raise e, st') => (Raise (routes.upcoming_errors e), st')
              end).
  { unfold routes.get_upcoming_games. unfold bind at 1, server.lift. rewrite Hparse.
    unfold try_except. unfold bind at 1.
    destruct (routes.fetch_and_save save_games days_ahead limit platform_filter [] env st)
      as [[fetched | e] st']; reflexivity. }
  rewrite Hroute.
  rewrite (fetch_and_save_run save_games env days_ahead limit platform_filter []
             st st1 (Ok (JList batch)) Hfetch).
  cbn [server.iterate]. cbv zeta.
  remember (server.convert server.Game [] batch) as games eqn:Hgames.
  split; [ | split ].
  - intros Hnone. now rewrite Hnone.
  - intros n st2 Hsome Hsave. destruct games as [| g games']; [ congruence | ].
    cbn [Py.truthy_list]. now rewrite Hsave.
  - intros e st2 Hsome Hsave. destruct games as [| g games']; [ congruence | ].
    cbn [Py.truthy_list]. now rewrite Hsave.
Qed.

Lemma upcoming_route_answers_with_the_sorted_games_witness :
  fst (routes.get_upcoming_games (H := Sample.scalars)
         Scenario.save_all Scenario.find_nothing 90 50 None true
         (Sample.granting 3600
            (Sample.entity_response 200 "OK"
               (Some (JList [Sample.game 1 "Zelda"; Sample.game 2 "Metroid"]))))
         Sample.fresh)
    = Ok (models.mkGameResponse
            (routes.sorted
               (server.convert (server.Game (H := Sample.scalars)) []
                  [Sample.game 1 "Zelda"; Sample.game 2 "Metroid"]))
            (Some (Z.of_nat
                     (length
                        (routes.sorted
                           (server.convert (server.Game (H := Sample.scalars)) []
                              [Sample.game 1 "Zelda"; Sample.game 2 "Metroid"])))))
            1 50).
Proof.
  set (env := Sample.granting 3600
                (Sample.entity_response 200 "OK"
                   (Some (JList [Sample.game 1 "Zelda"; Sample.game 2 "Metroid"])))).
  set (st1 := snd (igdb_client.get_upcoming_games 90 50 None env Sample.fresh)).
  assert (Hfetch : igdb_client.get_upcoming_games 90 50 None env Sample.fresh
                   = (Ok (JList [Sample.game 1 "Zelda"; Sample.game 2 "Metroid"]), st1))
    by (vm_compute; reflexivity).
  assert (Hsome : server.convert (server.Game (H := Sample.scalars)) []
                    [Sample.game 1 "Zelda"; Sample.game 2 "Metroid"] <> [])
    by (vm_compute; discriminate).
  rewrite (proj1 (proj2 (upcoming_route_answers_with_the_sorted_games Sample.scalars
                           Scenario.save_all Scenario.find_nothing env Sample.fresh st1
                           90 50 None None
                           [Sample.game 1 "Zelda"; Sample.game 2 "Metroid"]
                           eq_refl Hfetch))
                 _ st1 Hsome eq_refl).
  reflexivity.
Defined.

(** X21. Without [force_refresh] the upcoming-games route reads the
    store first. When the store has games, they are the answer, sorted:
    the catalogue is not asked and nothing is saved, for the state is
    the one the read has left. When the store has none, the route goes
    on as with [force_refresh]; and a failure of the read fails the
    request. *)
Theorem upcoming_route_serves_the_store_first
    (P : Pydantic) (save_games : list models.Game -> M Z)
    (get_upcoming_games_from_db : Z -> option (list Z) -> Z -> M (list models.Game))
    (env : Env) (st st1 : State) (days_ahead limit : Z) (platform_ids : option string)
    (platform_filter : option (list Z)) (found : Result (list models.Game)) :
  routes.parse_platform_ids platform_ids = Ok platform_filter ->
  get_upcoming_games_from_db days_ahead platform_filter limit env st = (found, st1) ->
  routes.get_upcoming_games save_games get_upcoming_games_from_db
    days_ahead limit platform_ids false env st
  = match found with
    | Ok [] =>
        routes.get_upcoming_games save_games get_upcoming_games_from_db
          days_ahead limit platform_ids true env st1
    | Ok games =>
        (Ok (models.mkGameResponse (routes.sorted games)
               (Some (Z.of_nat (length (routes.sorted games)))) 1 limit),
         st1)
    | Raise e => (Raise (routes.upcoming_errors e), st1)
    end.
Proof.
  intros Hparse Hfound.
  unfold routes.get_upcoming_games. unfold bind at 1 3, server.lift. rewrite Hparse.
  unfold try_except. unfold bind at 1 2. rewrite Hfound.
  destruct found as [[| g games] | e]; reflexivity.
Qed.

Lemma upcoming_route_serves_the_store_first_witness :
  routes.get_upcoming_games (H := Sample.scalars)
    Scenario.save_all (Scenario.find [Scenario.zelda; Scenario.undated; Scenario.metroid])
    90 50 None false (Sample.refusing (httpx.Failed "unreachable")) Sample.fresh
  = (Ok (models.mkGameResponse
           (routes.sorted [Scenario.zelda; Scenario.undated; Scenario.metroid])
           (Some (Z.of_nat
                    (length (routes.sorted
                               [Scenario.zelda; Scenario.undated; Scenario.metroid]))))
           1 50),
     Sample.fresh).
Proof.
  exact (upcoming_route_serves_the_store_first Sample.scalars
           Scenario.save_all (Scenario.find [Scenario.zelda; Scenario.undated; Scenario.metroid])
           (Sample.refusing (httpx.Failed "unreachable")) Sample.fresh Sample.fresh
           90 50 None None (Ok [Scenario.zelda; Scenario.undated; Scenario.metroid])
           eq_refl eq_refl).
Defined.

Example sorted_by_date_then_name :
  routes.sorted [Scenario.zelda; Scenario.undated; Scenario.metroid]
    = [Scenario.metroid; Scenario.zelda; Scenario.undated].
Proof. reflexivity. Qed.

(** X22. What a game needs. Whatever pydantic accepts for the scalar
    types, an object without [id] or without [name] makes no game; an
    object with the two and nothing else makes one whose other fields
    are [None], or empty for the two lists, and so does one that gives
    [null] for the optional fields; but [null] for a list is refused. *)
Theorem game_needs_its_id_and_name_only (P : Pydantic) (kwargs : list (string * JSON)) :
  (dict_find "id" kwargs = None \/ dict_find "name" kwargs = None ->
   is_ok (models.Game_init kwargs) = false) /\
  (forall (id_value name_value : JSON) (id : Z) (name : string),
      dict_find "id" kwargs = Some id_value -> validate_int id_value = Ok id ->
      dict_find "name" kwargs = Some name_value -> validate_str name_value = Ok name ->
      (dict_find "summary" kwargs = None \/ dict_find "summary" kwargs = Some JNull) ->
      (dict_find "rating" kwargs = None \/ dict_find "rating" kwargs = Some JNull) ->
      (dict_find "first_release_date" kwargs = None \/
       dict_find "first_release_date" kwargs = Some JNull) ->
      (dict_find "cover" kwargs = None \/ dict_find "cover" kwargs = Some JNull) ->
      dict_find "release_dates" kwargs = None ->
      dict_find "platforms" kwargs = None ->
      models.Game_init kwargs = Ok (models.mkGame id name None None None [] [] None)) /\
  (dict_find "release_dates" kwargs = Some JNull \/
   dict_find "platforms" kwargs = Some JNull ->
   is_ok (models.Game_init kwargs) = false).
Proof.
  unfold models.Game_init.
  split; [ | split ].
  - intros [Hid | Hname].
    + unfold models.required at 1. now rewrite Hid.
    + unfold models.required at 1 2. rewrite Hname.
      destruct (dict_find "id" kwargs) as [v |]; [ | reflexivity ].
      now destruct (validate_int v).
  - intros id_value name_value id name Hid Hvid Hname Hvname
      Hsummary Hrating Hdate Hcover Hreleases Hplatforms.
    unfold models.required, models.optional, models.list_field.
    rewrite Hid, Hvid, Hname, Hvname, Hreleases, Hplatforms. cbn [and_then].
    destruct Hsummary as [-> | ->]; destruct Hrating as [-> | ->];
      destruct Hdate as [-> | ->]; destruct Hcover as [-> | ->]; reflexivity.
  - assert (Hskip : forall (A B : Type) (r : Result A) (k : A -> Result B),
               (forall a, is_ok (k a) = false) -> is_ok (and_then r k) = false)
      by (intros A B [a | e] k Hk; [ apply Hk | reflexivity ]).
    intros [Hreleases | Hplatforms].
    + do 5 (apply Hskip; intros ?).
      unfold models.list_field at 1. now rewrite Hreleases.
    + do 6 (apply Hskip; intros ?).
      unfold models.list_field at 1. now rewrite Hplatforms.
Qed.

Lemma game_needs_its_id_and_name_only_witness :
  models.Game_init (H := Sample.scalars)
    [("id"%string, JInt 7); ("name"%string, JStr "Seven"); ("summary"%string, JNull)]
  = Ok (models.mkGame 7 "Seven" None None None [] [] None).
Proof.
  refine (proj1 (proj2 (game_needs_its_id_and_name_only Sample.scalars
                          [("id"%string, JInt 7); ("name"%string, JStr "Seven");
                           ("summary"%string, JNull)]))
                (JInt 7) (JStr "Seven") 7%Z "Seven"%string
                eq_refl eq_refl eq_refl eq_refl
                (or_intror eq_refl) (or_introl eq_refl) (or_introl eq_refl)
                (or_introl eq_refl) eq_refl eq_refl).
Defined.

Section Covers.

Lemma no_thumb_here (c : ascii) (s : string) :
  Ascii.eqb c "t" = false -> String.prefix "t_thumb" (String c s) = false.
Proof.
  intros Hc. cbn [String.prefix].
  destruct (ascii_dec "t" c) as [<- | _]; [ discriminate | reflexivity ].
Qed.

(** Text without a [t] goes through the replacement as it is. *)
Lemma replace_lacking_t (new a rest : string) :
  text.lacks "t" a = true ->
  text.replace_from 0 "t_thumb" new (a ++ rest)
    = (a ++ text.replace_from 0 "t_thumb" new rest)%string.
Proof.
  induction a as [| c a IH]; intros Hlacks; [ reflexivity | ].
  cbn [text.lacks] in Hlacks. apply andb_true_iff in Hlacks as [Hc Ha].
  apply negb_true_iff in Hc.
  cbn [String.append text.replace_from]. rewrite (no_thumb_here c _ Hc).
  now rewrite IH.
Qed.

Lemma replace_thumb (new rest : string) :
  text.replace_from 0 "t_thumb" new ("t_thumb" ++ rest)
    = (new ++ text.replace_from 0 "t_thumb" new rest)%string.
Proof.
  destruct rest; reflexivity.
Qed.

End Covers.

(** X23. [get_cover_url] answers [None] for a cover without a URL or
    with an empty one. Otherwise it puts [https:] before the URL, in
    which it has replaced [t_thumb] by [t_] and the size: a URL without
    the letter [t] is kept as it is, and in a URL whose first [t] begins
    [t_thumb] what comes before is kept and what comes after is treated
    alike. *)
Theorem cover_url_swaps_the_thumbnail_size (id : Z) (size : string) :
  game_cover.get_cover_url (models.mkGameCover id None) size = None /\
  game_cover.get_cover_url (models.mkGameCover id (Some EmptyString)) size = None /\
  (forall url : string,
      url <> EmptyString ->
      text.lacks "t" url = true ->
      game_cover.get_cover_url (models.mkGameCover id (Some url)) size
        = Some ("https:" ++ url)%string) /\
  (forall before after : string,
      text.lacks "t" before = true ->
      game_cover.get_cover_url
        (models.mkGameCover id (Some (before ++ "t_thumb" ++ after)%string)) size
        = Some ("https:" ++ before ++ "t_" ++ size
                ++ text.replace "t_thumb" ("t_" ++ size) after)%string).
Proof.
  split; [ reflexivity | ]. split; [ reflexivity | ]. split.
  - intros url Hsome Hlacks. unfold game_cover.get_cover_url; cbn [models.cover_url].
    destruct url as [| c url]; [ congruence | cbn [Py.truthy_str] ].
    unfold text.replace.
    rewrite <- (append_empty (String c url)) at 1.
    rewrite replace_lacking_t by assumption. cbn [text.replace_from].
    now rewrite append_empty.
  - intros before after Hlacks. unfold game_cover.get_cover_url; cbn [models.cover_url].
    assert (Htruthy : Py.truthy_str (before ++ "t_thumb" ++ after) = true)
      by (now destruct before).
    rewrite Htruthy. unfold text.replace.
    rewrite replace_lacking_t by assumption. rewrite replace_thumb.
    now rewrite <- !append_append.
Qed.

Lemma cover_url_swaps_the_thumbnail_size_witness :
  game_cover.get_cover_url
    (models.mkGameCover 1
       (Some "//images.igdb.com/igdb/image/upload/t_thumb/co1abc.jpg"%string))
    "cover_big"
  = Some "https://images.igdb.com/igdb/image/upload/t_cover_big/co1abc.jpg"%string.
Proof.
  exact (proj2 (proj2 (proj2 (cover_url_swaps_the_thumbnail_size 1 "cover_big")))
               "//images.igdb.com/igdb/image/upload/"%string "/co1abc.jpg"%string
               eq_refl).
Defined.

Lemma search_route_answers_or_raises_500_witness :
  fst (server.search_games (H := Sample.scalars) "zelda" 20
         (Sample.granting 3600 (Sample.entity_response 429 "Too Many Requests" None))
         Sample.fresh)
    = Raise (HTTPException 500 "Internal server error").
Proof.
  set (env := Sample.granting 3600 (Sample.entity_response 429 "Too Many Requests" None)).
  set (st' := snd (igdb_client.search_games "zelda" 20 env Sample.fresh)).
  assert (Hsearch : igdb_client.search_games "zelda" 20 env Sample.fresh
                    = (Raise (IGDBRateLimitError "Rate limit exceeded"), st'))
    by (vm_compute; reflexivity).
  rewrite (proj2 (search_route_answers_or_raises_500 Sample.scalars env Sample.fresh
                    "zelda"%string 20%Z)
                 (IGDBRateLimitError "Rate limit exceeded") st' Hsearch).
  reflexivity.
Defined.

Section Nested.

Context {P : Pydantic}.

Lemma validate_items_rejects {A : Type} (validate : JSON -> Result A) (items : list JSON) :
  Exists (fun item => is_ok (validate item) = false) items ->
  is_ok (models.validate_items validate items) = false.
Proof.
  induction 1 as [item items Hbad | item items Hbad IH]; cbn [models.validate_items].
  - destruct (validate item); [ discriminate | reflexivity ].
  - destruct (validate item) as [x | e]; [ | reflexivity ].
    cbn [and_then]. destruct (models.validate_items validate items); [ discriminate | ].
    reflexivity.
Qed.

Lemma is_ok_and_then {A B : Type} (r : Result A) (k : A -> Result B) :
  (forall a, is_ok (k a) = false) -> is_ok (and_then r k) = false.
Proof.
  intros Hk. destruct r as [a | e]; [ apply Hk | reflexivity ].
Qed.

End Nested.

(** X24. A game is taken whole or not at all. Whatever pydantic accepts
    for the scalar types, a platform must be an object with an [id] and
    a [name], a release date an object with an [id]; and one element of
    [platforms] or of [release_dates] that is refused makes the
    constructor refuse the game. *)
Theorem malformed_nested_record_rejects_the_game
    (P : Pydantic) (kwargs : list (string * JSON)) :
  (forall members : list (string * JSON),
      dict_find "id" members = None \/ dict_find "name" members = None ->
      is_ok (models.nested models.Platform_init (JObj members)) = false) /\
  (forall members : list (string * JSON),
      dict_find "id" members = None ->
      is_ok (models.nested models.ReleaseDate_init (JObj members)) = false) /\
  (forall s : string,
      is_ok (models.nested models.Platform_init (JStr s)) = false /\
      is_ok (models.nested models.ReleaseDate_init (JStr s)) = false) /\
  (forall items : list JSON,
      dict_find "platforms" kwargs = Some (JList items) ->
      Exists (fun item => is_ok (models.nested models.Platform_init item) = false) items ->
      is_ok (models.Game_init kwargs) = false) /\
  (forall items : list JSON,
      dict_find "release_dates" kwargs = Some (JList items) ->
      Exists (fun item => is_ok (models.nested models.ReleaseDate_init item) = false)
             items ->
      is_ok (models.Game_init kwargs) = false).
Proof.
  split; [ | split; [ | split; [ | split ] ] ].
  - intros members [Hid | Hname]; cbn [models.nested]; unfold models.Platform_init.
    + unfold models.required at 1. now rewrite Hid.
    + apply is_ok_and_then. intros id. unfold models.required at 1. now rewrite Hname.
  - intros members Hid. cbn [models.nested]. unfold models.ReleaseDate_init.
    unfold models.required at 1. now rewrite Hid.
  - intros s. split; reflexivity.
  - intros items Hfind Hbad. unfold models.Game_init.
    do 6 (apply is_ok_and_then; intros ?).
    unfold models.list_field at 1. rewrite Hfind.
    pose proof (validate_items_rejects _ items Hbad) as Hrejected.
    match goal with
    | |- context [models.validate_items ?v items] =>
        destruct (models.validate_items v items); [ discriminate | reflexivity ]
    end.
  - intros items Hfind Hbad. unfold models.Game_init.
    do 5 (apply is_ok_and_then; intros ?).
    unfold models.list_field at 1. rewrite Hfind.
    pose proof (validate_items_rejects _ items Hbad) as Hrejected.
    match goal with
    | |- context [models.validate_items ?v items] =>
        destruct (models.validate_items v items); [ discriminate | reflexivity ]
    end.
Qed.

Lemma malformed_nested_record_rejects_the_game_witness :
  is_ok (models.Game_init (H := Sample.scalars)
           [("id"%string, JInt 7); ("name"%string, JStr "Seven");
            ("platforms"%string,
             JList [JObj [("id"%string, JInt 6); ("name"%string, JStr "PC")];
                    JObj [("id"%string, JInt 48)]])])
    = false.
Proof.
  refine (proj1 (proj2 (proj2 (proj2
            (malformed_nested_record_rejects_the_game Sample.scalars
               [("id"%string, JInt 7); ("name"%string, JStr "Seven");
                ("platforms"%string,
                 JList [JObj [("id"%string, JInt 6); ("name"%string, JStr "PC")];
                        JObj [("id"%string, JInt 48)]])]))))
            [JObj [("id"%string, JInt 6); ("name"%string, JStr "PC")];
             JObj [("id"%string, JInt 48)]]
            eq_refl _).
  apply Exists_cons_tl. apply Exists_cons_hd. reflexivity.
Defined.

(** X25. The limiter holds a call back no longer than it must. When it
    sleeps, the call leaves it at the time of the request before plus
    the interval, plus what the scheduler adds at the sleep and at the
    reading of the clock that follows. *)
Theorem limiter_releases_at_the_interval (env : Env) (st : State) :
  next_reading env st - last_request_time (self st) < request_interval (self st) ->
  exists st',
    igdb_client._rate_limit env st = (Ok tt, st') /\
    clock st' ==
      last_request_time (self st) + request_interval (self st)
      + seconds (latency env (S (step st)))
      + seconds (latency env (S (S (step st)))) /\
    last_request_time (self st') = clock st'.
Proof.
  intros Hshort.
  unfold igdb_client._rate_limit, bind at 1. rewrite time_time_run.
  unfold bind at 1, get_self; cbn [self].
  assert (Hsuspends :
            Py.Qltb (next_reading env st - last_request_time (self st))
                    (request_interval (self st)) = true) by (now apply Qltb_lt).
  rewrite Hsuspends.
  assert (Hpositive :
            Py.Qltb 0 (request_interval (self st)
                       - (next_reading env st - last_request_time (self st))) = true)
    by (apply Qltb_lt; lra).
  eexists. split; [ reflexivity | ].
  cbn [asyncio_sleep time_time bind emit advance elapse read_clock ret
         igdb_client.set_last_request_time get_self set_self
         self clock step trace last_request_time].
  rewrite Hpositive. split; [ ring | reflexivity ].
Qed.

Lemma limiter_releases_at_the_interval_witness :
  exists st',
    igdb_client._rate_limit (Sample.refusing (httpx.Failed "unreachable"))
      Scenario.busy = (Ok tt, st') /\
    clock st' ==
      last_request_time (self Scenario.busy)
      + request_interval (self Scenario.busy)
      + seconds (latency (Sample.refusing (httpx.Failed "unreachable"))
                   (S (step Scenario.busy)))
      + seconds (latency (Sample.refusing (httpx.Failed "unreachable"))
                   (S (S (step Scenario.busy)))) /\
    last_request_time (self st') = clock st'.
Proof.
  apply (limiter_releases_at_the_interval
           (Sample.refusing (httpx.Failed "unreachable")) Scenario.busy).
  unfold Qlt; simpl; lia.
Defined.
